(** * rem.py: delta/theta band-power ratio and motion derivative

    A shallow embedding of [src/rem.py] (LiveRemSleepDetector).  The
    program is a thin numerical pipeline over NumPy and SciPy:

      raw LFP  -> downsample -> bandpass -> hilbert -> |.|^2   (get_band_power)
               -> zscore(theta) / zscore(delta)                (delta_theta)
      raw acc  -> downsample -> gradient w.r.t. a time axis    (speed)

    Samples are IEEE binary64 numbers (the kernel's primitive [float]),
    arrays are lists of samples living in a store of array objects, and
    every function of the program is a computation in a state-and-exception
    monad over that store, so that "raises", "returns" and "does not touch
    its input" are all statements about one definition per source function.

    The numerical kernels of the libraries (FIR design, polyphase
    resampling, Butterworth design, forward-backward filtering, the FFT
    behind the analytic signal, hypot, pairwise summation) are parameters
    of the development, see [NumKernels]; what the libraries do around them
    (argument validation, padding-length checks, linspace, gradient, zscore)
    is written out.  Integers too large for a binary64 number and memory
    limits are outside the model.  [generate_data], the seeded fixture of
    the file, is not embedded.

    Layout: Python values and the store monad; the kernels; the library
    calls; rem.py; a reference instance of the kernels for closed examples;
    then the lemmas, and for each property of the specification its
    theorem, followed by closed examples. *)

From Stdlib Require Import ZArith QArith List Bool Lia Floats.
Import ListNotations.

Set Implicit Arguments.
Close Scope Q_scope.

(* ================================================================= *)
(** * Python values, exceptions, and the store monad *)

Module Py.

(** The exception classes that the calls made by [rem.py] can raise. *)
Inductive exn : Set :=
| TypeError
| ValueError
| ZeroDivisionError
| IndexError.

Inductive result (A : Type) : Type :=
| Ok (a : A)
| Raise (e : exn).
Arguments Ok {A} a.
Arguments Raise {A} e.

Definition is_ok {A} (r : result A) : bool :=
  match r with Ok _ => true | Raise _ => false end.

Definition raises {A} (r : result A) : Prop := exists e, r = Raise e.

(** A Python number as it can be passed for [factor]: an [int] or a
    [float]. *)
Inductive num : Set :=
| PyInt (z : Z)
| PyFloat (f : float).

(** [operator.index]: only integers have [__index__]. *)
Definition operator_index (q : num) : result Z :=
  match q with
  | PyInt z => Ok z
  | PyFloat _ => Raise TypeError
  end.

(** [float(z)]: the binary64 number nearest to [z] (exact up to 2^53). *)
Definition float_of_int (z : Z) : float :=
  SF2Prim (binary_normalize prec emax z 0 false).

(** [a / b] on two [int]s: true division.  The quotient of the two
    conversions is the correctly rounded quotient as long as both
    operands are below 2^53 in magnitude, which covers every sampling
    rate and factor. *)
Definition int_truediv (a b : Z) : result float :=
  if (b =? 0)%Z then Raise ZeroDivisionError
  else Ok (float_of_int a / float_of_int b)%float.

(** [n / x] with [n] an [int] and [x] a [float]. *)
Definition int_float_truediv (n : Z) (x : float) : result float :=
  if (x =? 0)%float then Raise ZeroDivisionError
  else Ok (float_of_int n / x)%float.

(** [x / q] with [x] a [float] and [q] an [int]. *)
Definition float_int_truediv (x : float) (q : Z) : result float :=
  if (q =? 0)%Z then Raise ZeroDivisionError
  else Ok (x / float_of_int q)%float.

(** [int(a // b)] on two [int]s: floor division. *)
Definition int_floordiv (a b : Z) : result Z :=
  if (b =? 0)%Z then Raise ZeroDivisionError
  else Ok (a / b)%Z.

End Py.
Export Py.

(** Array objects.  [h_transf] is the only complex array of the program. *)
Inductive ndarray : Type :=
| Float64 (xs : list float)
| Complex128 (zs : list (float * float)).

Definition size (a : ndarray) : nat :=
  match a with
  | Float64 xs => length xs
  | Complex128 zs => length zs
  end.

(** A Python variable holds a reference to an array object. *)
Definition loc := nat.

(** Filter representation: second-order sections, a row is
    (b0, b1, b2, a0, a1, a2). *)
Record section : Type := mkSection {
  sec_b0 : float; sec_b1 : float; sec_b2 : float;
  sec_a0 : float; sec_a1 : float; sec_a2 : float
}.
Definition SOS := list section.

Inductive btype : Set := Lowpass | Bandpass.

(** The argument tuple [make_sos_filter] is memoised on. *)
Record sos_key : Type := mkKey {
  k_order : Z; k_low : float; k_high : float; k_btype : btype; k_fs : Z
}.

Definition btype_eqb (a b : btype) : bool :=
  match a, b with
  | Lowpass, Lowpass | Bandpass, Bandpass => true
  | _, _ => false
  end.

(** Python compares the tuples field by field with [==]. *)
Definition key_eqb (k1 k2 : sos_key) : bool :=
  (k_order k1 =? k_order k2)%Z && (k_low k1 =? k_low k2)%float
  && (k_high k1 =? k_high k2)%float && btype_eqb (k_btype k1) (k_btype k2)
  && (k_fs k1 =? k_fs k2)%Z.

(** The interpreter state the program can observe: the array objects and
    the [lru_cache] of [make_sos_filter]. *)
Record state : Type := mkState {
  heap : list ndarray;
  sos_cache : list (sos_key * SOS)
}.

Definition M (A : Type) : Type := state -> result A * state.

Definition ret {A} (a : A) : M A := fun s => (Ok a, s).
Definition raise {A} (e : exn) : M A := fun s => (Raise e, s).
Definition bind {A B} (m : M A) (k : A -> M B) : M B :=
  fun s => match m s with
           | (Ok a, s') => k a s'
           | (Raise e, s') => (Raise e, s')
           end.
Definition lift {A} (r : result A) : M A := fun s => (r, s).

Notation "x <- m ;; k" := (bind m (fun x => k))
  (at level 61, m at next level, right associativity).

(** Creating an array object: the new object gets a reference no live
    object has. *)
Definition push (s : state) (a : ndarray) : state :=
  {| heap := heap s ++ [a]; sos_cache := sos_cache s |}.

Definition alloc (a : ndarray) : M loc :=
  fun s => (Ok (length (heap s)), push s a).

(** Using an object as a real array.  A reference always designates an
    object in Python; the [TypeError] branches delimit the model: signals
    are real-valued. *)
Definition read_real (l : loc) : M (list float) :=
  fun s => match nth_error (heap s) l with
           | Some (Float64 xs) => (Ok xs, s)
           | _ => (Raise TypeError, s)
           end.

Definition read (l : loc) : M ndarray :=
  fun s => match nth_error (heap s) l with
           | Some a => (Ok a, s)
           | None => (Raise TypeError, s)
           end.

(** [holds s l a]: reference [l] designates the array [a] in [s]. *)
Definition holds (s : state) (l : loc) (a : ndarray) : Prop :=
  nth_error (heap s) l = Some a.

(** [extends s s']: [s'] has every object of [s], unchanged, and possibly
    new ones. *)
Definition extends (s s' : state) : Prop :=
  exists new, heap s' = heap s ++ new.

(** A computation that leaves every existing array as it is, whether it
    returns or raises. *)
Definition frame {A} (m : M A) : Prop :=
  forall s, extends s (snd (m s)).

(** A computation whose result, when it returns, is an array created by
    the call. *)
Definition fresh_result (m : M loc) : Prop :=
  forall s l s', m s = (Ok l, s') ->
    (length (heap s) <= l < length (heap s'))%nat.

(* ================================================================= *)
(** * The numerical kernels of NumPy and SciPy *)

(** What the libraries compute in floating point behind the calls of
    [rem.py].  Only their shape is used below ([KernelLaws]); the values
    they produce are left to the libraries. *)
Class NumKernels : Type := {
  (** [firwin(numtaps, cutoff, window='hamming')]: the FIR coefficients. *)
  firwin_hamming : Z -> Q -> list float;
  (** [resample_poly(x, 1, q, window=b)]: polyphase filtering by [b] and
      selection of every [q]-th sample. *)
  resample_poly : list float -> Z -> list float -> list float;
  (** [butter(order, Wn, btype=..., output='sos', fs=fs)]; raises
      [ValueError] on a band outside (0, fs/2). *)
  butter : Z -> list float -> btype -> Z -> result SOS;
  (** The padded forward-backward pass of [sosfiltfilt], edges removed. *)
  sosfilt_forward_backward : SOS -> nat -> list float -> list float;
  (** The FFT-based analytic signal of [hilbert]: (real, imag) pairs. *)
  analytic_signal : list float -> list (float * float);
  (** C's [hypot], the modulus behind [np.abs] on a complex sample. *)
  npy_hypot : float -> float -> float;
  (** [np.add.reduce] (pairwise summation). *)
  add_reduce : list float -> float
}.

(** [n_out] of [resample_poly] for [up = 1]:
    [n_in // down + bool(n_in % down)]. *)
Definition resample_n_out (n_in : nat) (down : Z) : nat :=
  let n := Z.of_nat n_in in
  Z.to_nat (n / down + (if (n mod down =? 0)%Z then 0 else 1))%Z.

Class KernelLaws (K : NumKernels) : Prop := {
  resample_poly_length : forall x q b,
    (1 <= q)%Z -> length (resample_poly x q b) = resample_n_out (length x) q;
  sosfilt_forward_backward_length : forall sos edge x,
    length (sosfilt_forward_backward sos edge x) = length x;
  analytic_signal_length : forall x,
    length (analytic_signal x) = length x
}.

(* ================================================================= *)
(** * NumPy and SciPy calls, around the kernels *)

Section Library.
Context {K : NumKernels}.
Local Open Scope float_scope.

(** ** scipy.signal *)

(** [firwin]'s check of the normalised cutoff, "frequencies must be
    greater than 0 and less than fs/2".  The cutoff of [decimate] is
    [1. / q]; comparing it with 0 and 1 does not depend on its rounding,
    so the comparison is made on the exact quotient. *)
Definition firwin (numtaps : Z) (cutoff : Q) : result (list float) :=
  if Qle_bool cutoff (0 # 1) || Qle_bool (1 # 1) cutoff
  then Raise ValueError
  else Ok (firwin_hamming numtaps cutoff).

(** [decimate(x, q, ftype='fir')], with [n=None] and [zero_phase=True]:
    [q = operator.index(q)], the filter [firwin(20*q + 1, 1. / q)], then
    [resample_poly(x, 1, q, window=b)]. *)
Definition decimate (x : loc) (q : num) : M loc :=
  xs <- read_real x ;;
  q <- lift (operator_index q) ;;
  _ <- lift (float_int_truediv 1 q) ;;
  b <- lift (firwin (2 * (10 * q) + 1) (Qmake 1 1 / inject_Z q)%Q) ;;
  alloc (Float64 (resample_poly xs q b)).

(** The samples [decimate] returns for a valid factor. *)
Definition decimated_values (xs : list float) (q : Z) : list float :=
  resample_poly xs q (firwin_hamming (2 * (10 * q) + 1) (Qmake 1 1 / inject_Z q)%Q).

Definition count_zero (f : section -> float) (sos : SOS) : nat :=
  length (filter (fun s => f s =? 0) sos).

(** [ntaps] of [sosfiltfilt]:
    [2 * n_sections + 1 - min((sos[:, 2] == 0).sum(), (sos[:, 5] == 0).sum())]. *)
Definition sos_ntaps (sos : SOS) : nat :=
  2 * length sos + 1 - Nat.min (count_zero sec_b2 sos) (count_zero sec_a2 sos).

(** The default [padlen]: [edge = ntaps * 3]. *)
Definition sos_padlen (sos : SOS) : nat := sos_ntaps sos * 3.

(** [_validate_sos]: [sos[:, 3]] must be all ones. *)
Definition validate_sos (sos : SOS) : bool :=
  forallb (fun s => sec_a0 s =? 1) sos.

(** [sosfiltfilt(sos, x)]: the sections are validated, and "the length of
    the input vector x must be greater than padlen". *)
Definition sosfiltfilt (sos : SOS) (x : loc) : M loc :=
  if negb (validate_sos sos) then raise ValueError
  else
    xs <- read_real x ;;
    let edge := sos_padlen sos in
    if (length xs <=? edge)%nat then raise ValueError
    else alloc (Float64 (sosfilt_forward_backward sos edge xs)).

(** [hilbert(x)]: "x must be real", "N must be positive". *)
Definition hilbert (x : loc) : M loc :=
  a <- read x ;;
  match a with
  | Complex128 _ => raise ValueError
  | Float64 xs =>
      if (length xs =? 0)%nat then raise ValueError
      else alloc (Complex128 (analytic_signal xs))
  end.

(** ** numpy *)

(** [np.abs]: the absolute value, the modulus on a complex array. *)
Definition np_abs (x : loc) : M loc :=
  a <- read x ;;
  match a with
  | Float64 xs => alloc (Float64 (map abs xs))
  | Complex128 zs =>
      alloc (Float64 (map (fun z => npy_hypot (fst z) (snd z)) zs))
  end.

Definition complex_mul (z w : float * float) : float * float :=
  (fst z * fst w - snd z * snd w, fst z * snd w + snd z * fst w).

(** [a ** 2]: the square of every sample. *)
Definition np_square (x : loc) : M loc :=
  a <- read x ;;
  match a with
  | Float64 xs => alloc (Float64 (map (fun v => v * v) xs))
  | Complex128 zs => alloc (Complex128 (map (fun z => complex_mul z z) zs))
  end.

(** [len(a)]. *)
Definition np_len (x : loc) : M Z :=
  a <- read x ;;
  ret (Z.of_nat (size a)).

Fixpoint map2 {A B C} (f : A -> B -> C) (xs : list A) (ys : list B) : list C :=
  match xs, ys with
  | x :: xs', y :: ys' => f x y :: map2 f xs' ys'
  | _, _ => []
  end.

(** [a / b] on two real arrays, with broadcasting of a one-sample
    operand; other length mismatches do not broadcast. *)
Definition broadcast_divide (xs ys : list float) : result (list float) :=
  if (length xs =? length ys)%nat then Ok (map2 div xs ys)
  else match xs, ys with
       | [x], _ => Ok (map (fun y => x / y) ys)
       | _, [y] => Ok (map (fun x => x / y) xs)
       | _, _ => Raise ValueError
       end.

Definition np_divide (x y : loc) : M loc :=
  xs <- read_real x ;;
  ys <- read_real y ;;
  r <- lift (broadcast_divide xs ys) ;;
  alloc (Float64 r).

(** [np.arange(0, num)] as floats. *)
Definition arange (num : nat) : list float :=
  map (fun i => float_of_int (Z.of_nat i)) (seq 0 num).

(** [y[-1] = stop]. *)
Definition set_last (y : list float) (stop : float) : list float :=
  match y with
  | [] => []
  | _ => removelast y ++ [stop]
  end.

(** The samples of [np.linspace(start, stop, num)] ([endpoint=True]):
    [div = num - 1], [step = (stop - start) / div], [y = arange(num) * step
    + start], and the last sample is set to [stop]. *)
Definition linspace_values (start stop : float) (num : nat) : list float :=
  let div := (Z.of_nat num - 1)%Z in
  let delta := stop - start in
  let y := arange num in
  let y :=
    if (0 <? div)%Z then
      let step := delta / float_of_int div in
      if step =? 0
      then map (fun v => v / float_of_int div * delta) y
      else map (fun v => v * step) y
    else map (fun v => v * delta) y in
  let y := map (fun v => v + start) y in
  if (1 <? num)%nat then set_last y stop else y.

Definition np_linspace (start stop : float) (num : Z) : M loc :=
  if (num <? 0)%Z then raise ValueError
  else alloc (Float64 (linspace_values start stop (Z.to_nat num))).

(** [np.diff(x)]: [x[1:] - x[:-1]]. *)
Definition np_diff (x : list float) : list float :=
  map2 sub (tl x) x.

(** Interior samples of [np.gradient], uniform spacing [dx]:
    [(f[2:] - f[:-2]) / (2. * dx)]. *)
Definition gradient_interior_uniform (f : list float) (dx : float) : list float :=
  map2 (fun hi lo => (hi - lo) / (2 * dx)) (skipn 2 f) f.

(** Interior samples for a coordinate array with spacings [d]:
    [a * f[:-2] + b * f[1:-1] + c * f[2:]] with [dx1 = d[0:-1]],
    [dx2 = d[1:]], [a = -(dx2) / (dx1 * (dx1 + dx2))],
    [b = (dx2 - dx1) / (dx1 * dx2)], [c = dx1 / (dx2 * (dx1 + dx2))]. *)
Fixpoint gradient_interior (f d : list float) : list float :=
  match f, d with
  | f0 :: ((f1 :: f2 :: _) as f'), dx1 :: ((dx2 :: _) as d') =>
      let a := - dx2 / (dx1 * (dx1 + dx2)) in
      let b := (dx2 - dx1) / (dx1 * dx2) in
      let c := dx1 / (dx2 * (dx1 + dx2)) in
      (a * f0 + b * f1 + c * f2) :: gradient_interior f' d'
  | _, _ => []
  end.

(** [np.gradient(f, x)] for one-dimensional [f] and a coordinate array
    [x], [edge_order=1]: second-order differences inside, one-sided
    differences at both ends.  [diffx[0]] is read before the size of [f]
    is checked, so fewer than two samples end in [IndexError]. *)
Definition gradient_values (f x : list float) : result (list float) :=
  if negb (length x =? length f)%nat then Raise ValueError
  else
    let diffx := np_diff x in
    match diffx with
    | [] => Raise IndexError
    | d0 :: _ =>
        if (length f <? 2)%nat then Raise ValueError
        else
          let uniform := forallb (fun d => d =? d0) diffx in
          let interior :=
            if uniform then gradient_interior_uniform f d0
            else gradient_interior f diffx in
          let dx_0 := d0 in
          let dx_n := if uniform then d0 else last diffx d0 in
          let first := (nth 1 f 0 - nth 0 f 0) / dx_0 in
          let final :=
            (nth (length f - 1) f 0 - nth (length f - 2) f 0) / dx_n in
          Ok (first :: interior ++ [final])
    end.

Definition np_gradient (f x : loc) : M loc :=
  fs <- read_real f ;;
  xs <- read_real x ;;
  r <- lift (gradient_values fs xs) ;;
  alloc (Float64 r).

(** ** scipy.stats *)

(** [a.mean()]: the sum over the count. *)
Definition np_mean (a : list float) : float :=
  add_reduce a / float_of_int (Z.of_nat (length a)).

(** [a.std()] ([ddof=0]): the root of the mean squared deviation. *)
Definition np_std (a : list float) : float :=
  let mn := np_mean a in
  let x := map (fun v => v - mn) a in
  sqrt (add_reduce (map (fun v => v * v) x) / float_of_int (Z.of_nat (length a))).

(** [(a[0] == a).all()]: the array has zero variance. *)
Definition isconst (a : list float) : bool :=
  match a with
  | [] => true
  | a0 :: _ => forallb (fun v => a0 =? v) a
  end.

(** The samples of [zscore(a)] (scipy.stats 1.7 to 1.13, [zmap(a, a)]):
    [(a - mean) / std], and NaN everywhere for a constant array, whose
    standard deviation is replaced by 1 before the division. *)
Definition zscore_values (a : list float) : list float :=
  match a with
  | [] => []
  | _ =>
      let mn := np_mean a in
      let std := if isconst a then 1 else np_std a in
      let z := map (fun v => (v - mn) / std) a in
      if isconst a then map (fun _ => nan) z else z
  end.

Definition zscore (x : loc) : M loc :=
  a <- read_real x ;;
  alloc (Float64 (zscore_values a)).

End Library.

(* ================================================================= *)
(** * rem.py *)

Section Rem.
Context {K : NumKernels}.
Local Open Scope float_scope.

(** Default arguments of the source. *)
Definition default_factor : Z := 16.
Definition default_order : Z := 4.
Definition default_fs : Z := 20000.

Fixpoint cache_find (k : sos_key) (c : list (sos_key * SOS)) : option SOS :=
  match c with
  | [] => None
  | (k', v) :: c' => if key_eqb k k' then Some v else cache_find k c'
  end.

Definition cache_remove (k : sos_key) (c : list (sos_key * SOS)) :=
  filter (fun e => negb (key_eqb k (fst e))) c.

(** [@lru_cache] (maxsize 128): a hit returns the stored filter and makes
    the entry the most recent one; a miss stores the result of the call,
    evicting the least recently used entry of a full cache; a call that
    raises stores nothing.  The cache never touches the array store. *)
Definition lru_cache (k : sos_key) (call : result SOS) : M SOS :=
  fun s =>
    match cache_find k (sos_cache s) with
    | Some sos =>
        (Ok sos, {| heap := heap s;
                    sos_cache := (k, sos) :: cache_remove k (sos_cache s) |})
    | None =>
        match call with
        | Ok sos =>
            (Ok sos, {| heap := heap s;
                        sos_cache := firstn 128 ((k, sos) :: sos_cache s) |})
        | Raise e => (Raise e, s)
        end
    end.

(** rem.py, lines 11-14. *)
Definition make_sos_filter (order : Z) (low high : float) (bt : btype) (fs : Z)
  : M SOS :=
  lru_cache (mkKey order low high bt fs) (butter order [low; high] bt fs).

(** rem.py, lines 17-20. *)
Definition bandpass (sig : loc) (low high : float) (fs order : Z) : M loc :=
  sos <- make_sos_filter order low high Bandpass fs ;;
  filtered <- sosfiltfilt sos sig ;;
  ret filtered.

(** rem.py, lines 23-26. *)
Definition lowpass (sig : loc) (cut : float) (fs order : Z) : M loc :=
  sos <- lift (butter order [cut] Lowpass fs) ;;
  filtered <- sosfiltfilt sos sig ;;
  ret filtered.

(** rem.py, lines 29-32. *)
Definition downsample (raw_sig : loc) (factor : num) : M loc :=
  dwn <- decimate raw_sig factor ;;
  ret dwn.

(** rem.py, lines 35-41.  [dwn_fs = int(fs // factor)]. *)
Definition get_band_power (raw_sig : loc) (low high : float)
           (fs factor order : Z) : M loc :=
  dwn_sig <- downsample raw_sig (PyInt factor) ;;
  dwn_fs <- lift (int_floordiv fs factor) ;;
  f_sig <- bandpass dwn_sig low high dwn_fs order ;;
  h_transf <- hilbert f_sig ;;
  modulus <- np_abs h_transf ;;
  power <- np_square modulus ;;
  ret power.

(** rem.py, lines 44-48.  Both calls take the default [factor] and
    [order]. *)
Definition delta_theta (lfp : loc) (low_delta high_delta low_theta high_theta : float)
           (fs : Z) : M loc :=
  theta_power <- get_band_power lfp low_theta high_theta fs default_factor default_order ;;
  delta_power <- get_band_power lfp low_delta high_delta fs default_factor default_order ;;
  z_theta <- zscore theta_power ;;
  z_delta <- zscore delta_power ;;
  ratio <- np_divide z_theta z_delta ;;
  ret ratio.

(** rem.py, lines 51-58.  Line 52 is [downsample(acc_sig)]: the call
    takes [downsample]'s own default factor, whatever [factor] is. *)
Definition speed (acc_sig : loc) (factor fs : Z) : M loc :=
  motion <- downsample acc_sig (PyInt default_factor) ;;
  dwn_fs <- lift (int_truediv fs factor) ;;
  n_pts <- np_len motion ;;
  end_time <- lift (int_float_truediv n_pts dwn_fs) ;;
  t <- np_linspace 0 end_time n_pts ;;
  d_motion <- np_gradient motion t ;;
  ret d_motion.

(** rem.py, lines 61-64. *)
Definition is_sleeping (lfp acc : loc)
           (low_delta high_delta low_theta high_theta : float) (fs : Z)
  : M (loc * loc) :=
  ratio <- delta_theta lfp low_delta high_delta low_theta high_theta fs ;;
  motion <- speed acc default_factor fs ;;
  ret (ratio, motion).

End Rem.

(* ================================================================= *)
(** * The arrays a run creates *)

(** Names for what the functions above leave in the store when they
    return, used to state what a run does. *)
Section Outcomes.
Context {K : NumKernels}.
Local Open Scope float_scope.

(** The samples of the band power, from the decimated signal and the
    filter: lines 38 to 40. *)
Definition band_power_values (sos : SOS) (dwn : list float) : list float :=
  map (fun v => v * v)
    (map (fun z => npy_hypot (fst z) (snd z))
       (analytic_signal (sosfilt_forward_backward sos (sos_padlen sos) dwn))).

(** The modulus [np.abs(h_transf)] of line 40, before it is squared. *)
Definition band_modulus_values (sos : SOS) (dwn : list float) : list float :=
  map (fun z => npy_hypot (fst z) (snd z))
    (analytic_signal (sosfilt_forward_backward sos (sos_padlen sos) dwn)).

(** The store after lines 38 to 40. *)
Definition band_power_store (s1 : state) (sos : SOS) (dwn : list float) : state :=
  let f := sosfilt_forward_backward sos (sos_padlen sos) dwn in
  let h := analytic_signal f in
  let m := map (fun z => npy_hypot (fst z) (snd z)) h in
  push (push (push (push s1 (Float64 f)) (Complex128 h)) (Float64 m))
       (Float64 (map (fun v => v * v) m)).

(** The store after lines 47 and 48. *)
Definition ratio_store (s2 : state) (tpv dpv : list float) : state :=
  push (push (push s2 (Float64 (zscore_values tpv)))
             (Float64 (zscore_values dpv)))
       (Float64 (map2 div (zscore_values tpv) (zscore_values dpv))).

(** The time axis of line 56, for [n_pts] decimated samples. *)
Definition time_axis (n_pts : nat) (dwn_fs : float) : list float :=
  linspace_values 0 (float_of_int (Z.of_nat n_pts) / dwn_fs) n_pts.

End Outcomes.

(* ================================================================= *)
(** * A reference instance of the kernels *)

(** The simplest kernels with the libraries' shapes: a one-tap
    anti-aliasing filter (decimation keeps samples 0, q, 2q, ...), a
    Butterworth design that checks the band and returns identity sections
    (as many as the order for a band-pass filter, none of whose
    coefficients b2 and a2 is zero, so that the padding length is that
    of the real design: 27 for order 4), an analytic signal with zero
    imaginary part, and left-to-right summation.  On an all-zero signal
    they agree with the libraries sample for sample. *)
Module Reference.
Local Open Scope float_scope.

Fixpoint every (fuel : nat) (q : nat) (x : list float) : list float :=
  match fuel, x with
  | S fuel', v :: _ => v :: every fuel' q (skipn q x)
  | _, _ => []
  end.

Definition identity_section : section := mkSection 1 0 0.25 1 0 0.25.

Fixpoint increasing (band : list float) : bool :=
  match band with
  | f :: ((g :: _) as rest) => (f <? g) && increasing rest
  | _ => true
  end.

Definition reference_butter (order : Z) (band : list float) (bt : btype) (fs : Z)
  : result SOS :=
  if forallb (fun f => (0 <? f) && (f <? float_of_int fs / 2)) band
     && increasing band
  then Ok (repeat identity_section
             (match bt with
              | Bandpass => Z.to_nat order
              | Lowpass => Z.to_nat ((order + 1) / 2)
              end))
  else Raise ValueError.

#[export] Instance kernels : NumKernels := {|
  firwin_hamming := fun _ _ => [1];
  resample_poly := fun x q _ => every (length x) (Z.to_nat q) x;
  butter := reference_butter;
  sosfilt_forward_backward := fun _ _ x => x;
  analytic_signal := map (fun v => (v, 0));
  npy_hypot := fun a b => sqrt (a * a + b * b);
  add_reduce := fun a => fold_left add a 0
|}.

(** One array in the store, nothing cached. *)
Definition initial (x : list float) : state :=
  {| heap := [Float64 x]; sos_cache := [] |}.

(** Two arrays in the store: the LFP at 0, the accelerometer at 1. *)
Definition initial2 (lfp acc : list float) : state :=
  {| heap := [Float64 lfp; Float64 acc]; sos_cache := [] |}.

(** A raw signal whose samples 0, 16, 32, ... are [vs]. *)
Definition spaced (vs : list float) : list float :=
  flat_map (fun v => v :: repeat 0 15) vs.

(** 448 raw samples, 28 after decimation by 16. *)
Definition zeros448 : list float := repeat 0 448.

(** 28 decimated samples 1, 5, 7, 1, 5, 7, ..., 5 whose squares have mean
    25, the square of the samples equal to 5. *)
Definition ramp448 : list float :=
  spaced (concat (repeat [1; 5; 7] 9) ++ [5]).

(** The default bands of [is_sleeping]; 0.1 is written as the binary64
    number Python reads it as. *)
Definition low_delta : float := 0x1.999999999999ap-4.
Definition high_delta : float := 3.
Definition low_theta : float := 4.
Definition high_theta : float := 10.

End Reference.

(* ================================================================= *)
(** * Predicates of the specification *)

(** A decimation factor the specification accepts: an integer, at least 2. *)
Definition valid_factor (factor : num) : bool :=
  match factor with
  | PyInt q => (2 <=? q)%Z
  | PyFloat _ => false
  end.

(** A pipeline stage: it leaves the arrays of the store it runs in as they
    are, and what it returns is a new array. *)
Definition stage (m : M loc) : Prop := frame m /\ fresh_result m.

(** A non-negative sample: [p >= 0] holds.  NaN is not non-negative. *)
Definition non_negative (p : float) : Prop := (0 <=? p)%float = true.

(* ================================================================= *)
(** * The fixture: numpy.random, in-place operations, generate_data *)

(** What [generate_data] draws and computes through the libraries: the
    bit generator behind [gen = Generator(MT19937(6))] with its normal
    and uniform variates, and the sine. *)
Class FixtureKernels : Type := {
  bit_generator : Type;
  (** [gen.normal(loc, scale, size)]: the variates and the generator
      after the draw. *)
  random_normal : bit_generator -> float -> float -> nat -> list float * bit_generator;
  (** [gen.uniform(low, high, size)]. *)
  random_uniform : bit_generator -> float -> float -> nat -> list float * bit_generator;
  (** [np.sin] on one sample. *)
  npy_sin : float -> float
}.

Class FixtureLaws (F : FixtureKernels) : Prop := {
  random_normal_length : forall g mean scale n,
    length (fst (random_normal g mean scale n)) = n;
  random_uniform_length : forall g low high n,
    length (fst (random_uniform g low high n)) = n
}.

(** [np.pi]. *)
Definition np_pi : float := 0x1.921fb54442d18p+1.

(** [a[i:j]] for indices that are not negative: Python clips them to the
    length. *)
Definition py_slice {A} (i j : nat) (xs : list A) : list A :=
  firstn (j - i) (skipn i xs).

(** [a[i:j] = ws] on the samples, for [ws] of the length of the slice. *)
Definition set_slice (i : nat) (xs ws : list float) : list float :=
  firstn i xs ++ ws ++ skipn (i + length ws) xs.

(** Broadcasting a right operand to [n] samples: it has [n] samples or
    one. *)
Definition broadcast_to (n : nat) (ws : list float) : result (list float) :=
  if (length ws =? n)%nat then Ok ws
  else match ws with
       | [w] => Ok (repeat w n)
       | _ => Raise ValueError
       end.

(** [a + b] on two real arrays, broadcasting as [broadcast_divide]. *)
Definition broadcast_add (xs ys : list float) : result (list float) :=
  if (length xs =? length ys)%nat then Ok (map2 PrimFloat.add xs ys)
  else match xs, ys with
       | [x], _ => Ok (map (fun y => x + y)%float ys)
       | _, [y] => Ok (map (fun x => x + y)%float xs)
       | _, _ => Raise ValueError
       end.

(** Replacing the array object at [l]: an in-place operation writes into
    the object the reference designates. *)
Definition store (s : state) (l : loc) (a : ndarray) : state :=
  {| heap := firstn l (heap s) ++ a :: skipn (S l) (heap s);
     sos_cache := sos_cache s |}.

Definition write (l : loc) (a : ndarray) : M unit :=
  fun s => if (l <? length (heap s))%nat then (Ok tt, store s l a)
           else (Raise TypeError, s).

(** [np.zeros(n)]. *)
Definition np_zeros (n : Z) : M loc :=
  if (n <? 0)%Z then raise ValueError
  else alloc (Float64 (repeat 0%float (Z.to_nat n))).

Definition np_add (x y : loc) : M loc :=
  xs <- read_real x ;;
  ys <- read_real y ;;
  r <- lift (broadcast_add xs ys) ;;
  alloc (Float64 r).

(** [c * a[i:j]] for a scalar [c]: the slice is a view, the product a new
    array. *)
Definition np_scale_slice (c : float) (x : loc) (i j : nat) : M loc :=
  xs <- read_real x ;;
  alloc (Float64 (map (fun v => c * v)%float (py_slice i j xs))).

(** [a[i:j] += w], in place. *)
Definition iadd_slice (x : loc) (i j : nat) (w : loc) : M unit :=
  xs <- read_real x ;;
  ws <- read_real w ;;
  ws' <- lift (broadcast_to (length (py_slice i j xs)) ws) ;;
  write x (Float64 (set_slice i xs (map2 PrimFloat.add (py_slice i j xs) ws'))).

(** [a[i:j] = w] and, with no [j], [a[i:] = w], in place. *)
Definition setitem_slice (x : loc) (i : nat) (j : option nat) (w : loc) : M unit :=
  xs <- read_real x ;;
  ws <- read_real w ;;
  let stop := match j with Some j => j | None => length xs end in
  ws' <- lift (broadcast_to (length (py_slice i stop xs)) ws) ;;
  write x (Float64 (set_slice i xs ws')).

(** A [for] loop over the samples of an array. *)
Fixpoint for_each (fs : list float) (body : float -> M unit) : M unit :=
  match fs with
  | [] => ret tt
  | f :: fs' => _ <- body f ;; for_each fs' body
  end.

Section Fixture.
Context {F : FixtureKernels}.
Local Open Scope float_scope.

(** The interpreter state with the module-level generator [gen]. *)
Record world : Type := mkWorld {
  gen : bit_generator;
  mem : state
}.

Definition G (A : Type) : Type := world -> result A * world.

Definition gret {A} (a : A) : G A := fun w => (Ok a, w).
Definition gbind {A B} (m : G A) (k : A -> G B) : G B :=
  fun w => match m w with
           | (Ok a, w') => k a w'
           | (Raise e, w') => (Raise e, w')
           end.

(** A computation that does not use the generator. *)
Definition np {A} (m : M A) : G A :=
  fun w => let (r, s') := m (mem w) in (r, {| gen := gen w; mem := s' |}).

(** The check of numpy.random on a scale: "scale < 0" is raised for a
    scale that is not NaN and has its sign bit set. *)
Definition negative_scale (scale : float) : bool :=
  negb (is_nan scale) && get_sign scale.

(** [gen.normal(loc, scale, size=(size,))]: a negative scale and a
    negative size are refused; the draw advances the generator. *)
Definition gen_normal (mean scale : float) (size : Z) : G loc :=
  fun w =>
    if negative_scale scale then (Raise ValueError, w)
    else if (size <? 0)%Z then (Raise ValueError, w)
    else
      let (xs, g') := random_normal (gen w) mean scale (Z.to_nat size) in
      (Ok (length (heap (mem w))), {| gen := g'; mem := push (mem w) (Float64 xs) |}).

(** [gen.uniform(low, high, size=(size,))] for [low < high], as in both
    calls of the fixture. *)
Definition gen_uniform (low high : float) (size : Z) : G loc :=
  fun w =>
    if (size <? 0)%Z then (Raise ValueError, w)
    else
      let (xs, g') := random_uniform (gen w) low high (Z.to_nat size) in
      (Ok (length (heap (mem w))), {| gen := g'; mem := push (mem w) (Float64 xs) |}).

Definition np_sin (x : loc) : M loc :=
  xs <- read_real x ;;
  alloc (Float64 (map npy_sin xs)).

(** The body of the loops of lines 101-105:
    [target[third:2*third] += np.sin(2*np.pi*f*t[third:2*third])]. *)
Definition add_sinusoid (target t : loc) (third : nat) (f : float) : M unit :=
  w <- np_scale_slice (2 * np_pi * f) t third (2 * third) ;;
  sw <- np_sin w ;;
  iadd_slice target third (2 * third) sw.

(** rem.py, lines 67-110. *)
Definition generate_data (dur fs : Z) (noise : float) : G (loc * loc) :=
  let n_pts := (dur * fs)%Z in
  gbind (np (lift (int_truediv n_pts fs))) (fun end_time =>
  gbind (np (np_linspace 0 end_time n_pts)) (fun t =>
  gbind (np (np_zeros n_pts)) (fun delta =>
  gbind (np (np_zeros n_pts)) (fun theta =>
  gbind (np (np_zeros n_pts)) (fun zeros =>
  gbind (gen_normal 0 noise n_pts) (fun noise_acc =>
  gbind (np (np_add zeros noise_acc)) (fun acc =>
  let third := (n_pts / 3)%Z in
  let fourth := (n_pts / 4)%Z in
  gbind (gen_uniform 1 3 5) (fun delta_freqs =>
  gbind (np (read_real delta_freqs)) (fun fds =>
  gbind (np (for_each fds (add_sinusoid delta t (Z.to_nat third)))) (fun _ =>
  gbind (gen_uniform 4 7 5) (fun theta_freqs =>
  gbind (np (read_real theta_freqs)) (fun fts =>
  gbind (np (for_each fts (add_sinusoid theta t (Z.to_nat third)))) (fun _ =>
  gbind (gen_normal 3 1 fourth) (fun active1 =>
  gbind (np (setitem_slice acc (Z.to_nat fourth) (Some (Z.to_nat (2 * fourth))) active1))
        (fun _ =>
  gbind (gen_normal 3 1 fourth) (fun active2 =>
  gbind (np (setitem_slice acc (Z.to_nat (3 * fourth)) None active2)) (fun _ =>
  gbind (np (np_add delta theta)) (fun oscillations =>
  gbind (gen_normal 0 noise n_pts) (fun noise_lfp =>
  gbind (np (np_add oscillations noise_lfp)) (fun lfp =>
  gret (lfp, acc))))))))))))))))))))).

End Fixture.

(** Names for what a run of [generate_data] draws and leaves in the
    store. *)
Section FixtureOutcomes.
Context {F : FixtureKernels}.
Local Open Scope float_scope.

(** The six draws of a run, in the order of the source, from the
    generator [g]. *)
Record draws : Type := mkDraws {
  noise_acc : list float;
  delta_freqs : list float;
  theta_freqs : list float;
  active1 : list float;
  active2 : list float;
  noise_lfp : list float;
  gen_after : bit_generator
}.

Definition fixture_draws (g : bit_generator) (noise : float) (n_pts : Z) : draws :=
  let r1 := random_normal g 0 noise (Z.to_nat n_pts) in
  let r2 := random_uniform (snd r1) 1 3 5 in
  let r3 := random_uniform (snd r2) 4 7 5 in
  let r4 := random_normal (snd r3) 3 1 (Z.to_nat (n_pts / 4)) in
  let r5 := random_normal (snd r4) 3 1 (Z.to_nat (n_pts / 4)) in
  let r6 := random_normal (snd r5) 0 noise (Z.to_nat n_pts) in
  {| noise_acc := fst r1; delta_freqs := fst r2; theta_freqs := fst r3;
     active1 := fst r4; active2 := fst r5; noise_lfp := fst r6;
     gen_after := snd r6 |}.

(** The time axis of the fixture. *)
Definition fixture_time (n_pts fs : Z) : list float :=
  linspace_values 0 (float_of_int n_pts / float_of_int fs) (Z.to_nat n_pts).

(** One pass of a loop of lines 101-105 on the samples [xs]. *)
Definition sinusoid (ts : list float) (third : nat) (xs : list float) (f : float)
  : list float :=
  set_slice third xs
    (map2 PrimFloat.add (py_slice third (2 * third) xs)
       (map npy_sin (map (fun v => 2 * np_pi * f * v) (py_slice third (2 * third) ts)))).

(** The oscillation a loop leaves in its array of [n] zeros. *)
Definition oscillation (ts : list float) (third : nat) (fs : list float) (n : nat)
  : list float :=
  fold_left (sinusoid ts third) fs (repeat 0 n).

End FixtureOutcomes.

(** [for _ in range(n): body]: the value of the body is dropped. *)
Fixpoint for_range {A} (n : nat) (body : M A) : M unit :=
  match n with
  | O => ret tt
  | S n' => _ <- body ;; for_range n' body
  end.

Section Main.
Context {K : NumKernels} {F : FixtureKernels}.

(** rem.py, lines 113-116: the fixture of five seconds, then ten calls of
    [is_sleeping] on it, every other argument at its default. *)
Definition main : G unit :=
  gbind (generate_data 5 default_fs 1) (fun fake =>
  np (for_range 10
        (is_sleeping (fst fake) (snd fake)
           Reference.low_delta Reference.high_delta
           Reference.low_theta Reference.high_theta default_fs))).

End Main.

(** The keys under which [delta_theta] stores its two filters. *)
Definition theta_key (low_theta high_theta : float) (fs : Z) : sos_key :=
  mkKey default_order low_theta high_theta Bandpass (fs / default_factor).
Definition delta_key (low_delta high_delta : float) (fs : Z) : sos_key :=
  mkKey default_order low_delta high_delta Bandpass (fs / default_factor).

(** The cache after a returning [delta_theta] that found it empty: the
    delta filter is the most recent entry. *)
Definition two_filters (ld hd lt ht : float) (fs : Z) (st sd : SOS)
  : list (sos_key * SOS) :=
  [(delta_key ld hd fs, sd); (theta_key lt ht fs, st)].

(** The filter cache as a call of [delta_theta] finds it in the main
    block: empty, or holding the two filters of an earlier call. *)
Definition cold_or_warm (ld hd lt ht : float) (fs : Z) (st sd : SOS)
           (c : list (sos_key * SOS)) : Prop :=
  c = [] \/
  c = two_filters ld hd lt ht fs st sd /\
  key_eqb (theta_key lt ht fs) (theta_key lt ht fs) = true /\
  key_eqb (delta_key ld hd fs) (delta_key ld hd fs) = true.

(** [shape s0 s P Q]: the store [s] is [s0] with the new arrays [P] and,
    after them, [Q]; the filter cache is the one of [s0]. *)
Definition shape (s0 s : state) (P Q : list ndarray) : Prop :=
  heap s = heap s0 ++ P ++ Q /\ sos_cache s = sos_cache s0.

(** The list [P] with [a] at index [j]. *)
Definition update {A} (j : nat) (P : list A) (a : A) : list A :=
  firstn j P ++ a :: skipn (S j) P.

(** The condition of line 107: the [n_pts // 4] draws fill
    [acc[3*fourth:]] when [n_pts] is a multiple of four, and a single draw
    is broadcast. *)
Definition last_quarter_fits (n_pts : Z) : Prop :=
  (n_pts mod 4 = 0 \/ n_pts / 4 = 1)%Z.

(* ================================================================= *)
(** * More kernels and signals for closed examples *)

Module Examples.

(** The reference kernels with a filter design that refuses every band:
    what a call computes under them owes nothing to the design. *)
Definition no_design : NumKernels := {|
  firwin_hamming := @firwin_hamming Reference.kernels;
  resample_poly := @resample_poly Reference.kernels;
  butter := fun _ _ _ _ => Raise ValueError;
  sosfilt_forward_backward := @sosfilt_forward_backward Reference.kernels;
  analytic_signal := @analytic_signal Reference.kernels;
  npy_hypot := @npy_hypot Reference.kernels;
  add_reduce := @add_reduce Reference.kernels
|}.

(** 432 raw samples leave 27 after decimation by 16, 433 leave 28. *)
Definition zeros432 : list float := repeat 0%float 432.
Definition zeros433 : list float := repeat 0%float 433.

(** 17 accelerometer samples leave 2 after decimation by 16. *)
Definition ones17 : list float := repeat 1%float 17.

(** 448 samples, all 1 but sample 16, which is NaN: the second sample
    the reference decimation by 16 keeps. *)
Definition nan448 : list float := repeat 1%float 16 ++ nan :: repeat 1%float 431.

(** A generator for closed examples: its state counts the variates drawn,
    and variate [k] is a fixed point of the range.  The sine is cut after
    its cubic term. *)
Definition counter_fixture : FixtureKernels := {|
  bit_generator := nat;
  random_normal := fun g mean scale n =>
    (map (fun k => mean + scale * (float_of_int (Z.of_nat (k mod 3)) - 1))%float
         (seq g n),
     g + n);
  random_uniform := fun g low high n =>
    (map (fun k => low + (high - low) * (float_of_int (Z.of_nat (k mod 4)) / 4))%float
         (seq g n),
     g + n);
  npy_sin := fun x => (x - x * x * x / 6)%float
|}.

(** The interpreter with the store [s] and a generator that has drawn
    nothing yet. *)
Definition seeded (s : state) : @world counter_fixture :=
  @mkWorld counter_fixture 0 s.

End Examples.

(* ================================================================= *)
(** * Invariants of the filter cache *)

(** No two entries are stored under arguments that compare equal. *)
Definition distinct_keys (c : list (sos_key * SOS)) : Prop :=
  ForallOrdPairs (fun e1 e2 => key_eqb (fst e1) (fst e2) = false) c.

(** What [lru_cache] maintains: at most 128 entries, under distinct
    arguments. *)
Definition cache_inv (s : state) : Prop :=
  length (sos_cache s) <= 128 /\ distinct_keys (sos_cache s).

(** A computation that leaves the cache alone. *)
Definition cache_stable {A} (m : M A) : Prop :=
  forall s, sos_cache (snd (m s)) = sos_cache s.

(** A computation that maintains the invariant of the cache. *)
Definition keeps_cache_inv {A} (m : M A) : Prop :=
  forall s, cache_inv s -> cache_inv (snd (m s)).

(* ================================================================= *)
(** * Facts about binary64 arithmetic *)

Module FloatFacts.
Local Open Scope float_scope.

(** A NaN operand makes the quotient NaN. *)
Lemma div_nan_l (y : float) : nan / y = nan.
Proof.
  rewrite <- (SF2Prim_Prim2SF (nan / y)), div_spec.
  reflexivity.
Qed.

Lemma div_nan_r (x : float) : x / nan = nan.
Proof.
  rewrite <- (SF2Prim_Prim2SF (x / nan)), div_spec.
  change (Prim2SF nan) with S754_nan.
  destruct (Prim2SF x); reflexivity.
Qed.

Lemma is_finite_nan : is_finite nan = false.
Proof. reflexivity. Qed.

(** Dividing by a zero of either sign gives an infinity or NaN. *)
Lemma div_zero_not_finite (x y : float) :
  (y =? 0) = true -> is_finite (x / y) = false.
Proof.
  intros Hy.
  rewrite eqb_spec in Hy. change (Prim2SF 0) with (S754_zero false) in Hy.
  unfold is_finite, is_nan, is_infinity.
  rewrite !eqb_spec, abs_spec, div_spec.
  change (Prim2SF infinity) with (S754_infinity false).
  destruct (Prim2SF y) as [sy|sy| |sy my ey];
    try (cbv in Hy; destruct sy; discriminate Hy);
    destruct (Prim2SF x) as [sx|sx| |sx mx ex];
    try reflexivity; destruct sx, sy; reflexivity.
Qed.

(** A square is never negative... *)
Lemma square_not_negative (x : float) : (x * x <? 0) = false.
Proof.
  rewrite ltb_spec, mul_spec.
  change (Prim2SF 0) with (S754_zero false).
  destruct (Prim2SF x) as [s|s| |s m e];
    try reflexivity; try (destruct s; reflexivity).
  unfold SF64mul, SFmul, binary_round_aux.
  destruct (shr_fexp _ _ _ _ _) as [mrs e1].
  destruct (shr_fexp _ _ _ _ _) as [mrs' e2].
  destruct s; cbn [xorb];
    (destruct (shr_m mrs'); try reflexivity;
     destruct (Z.leb _ _); reflexivity).
Qed.

(** ... and is at least zero unless it is NaN. *)
Lemma square_nonneg_or_nan (x : float) :
  is_nan (x * x) = false -> (0 <=? x * x) = true.
Proof.
  unfold is_nan. rewrite eqb_spec, leb_spec, mul_spec.
  change (Prim2SF 0) with (S754_zero false).
  destruct (Prim2SF x) as [s|s| |s m e];
    try (intros; reflexivity); try (destruct s; intros; reflexivity);
    try (intros H; discriminate H).
  unfold SF64mul, SFmul, binary_round_aux.
  destruct (shr_fexp _ _ _ _ _) as [mrs e1].
  destruct (shr_fexp _ _ _ _ _) as [mrs' e2].
  destruct s; cbn [xorb];
    (destruct (shr_m mrs'); try (intros; reflexivity);
     try (intros H; discriminate H);
     destruct (Z.leb _ _); intros; reflexivity).
Qed.

(** [is_nan] reads the class of the number. *)
Lemma is_nan_spec (p : float) :
  is_nan p = match Prim2SF p with S754_nan => true | _ => false end.
Proof.
  unfold is_nan. rewrite eqb_spec.
  destruct (Prim2SF p) as [s|s| |s m e];
    try reflexivity; try (destruct s; reflexivity).
  unfold SFeqb, SFcompare.
  destruct s; rewrite Z.compare_refl, Pos.compare_cont_refl; reflexivity.
Qed.

(** A number that is at least zero is not NaN. *)
Lemma leb_zero_not_nan (p : float) : (0 <=? p) = true -> is_nan p = false.
Proof.
  rewrite is_nan_spec, leb_spec.
  change (Prim2SF 0) with (S754_zero false).
  destruct (Prim2SF p) as [s|s| |s m e]; try reflexivity.
  intros H. discriminate H.
Qed.

(** Rounding a mantissa that is not negative never gives NaN: shifting
    and rounding to nearest keep it so. *)
Lemma shr_1_nonneg mrs : (0 <= shr_m mrs)%Z -> (0 <= shr_m (shr_1 mrs))%Z.
Proof.
  destruct mrs as [m r s]. cbn [shr_m]. intros H.
  destruct m as [|p|p]; [| |lia]; [cbn; lia|].
  destruct p; cbn; lia.
Qed.

Lemma iter_shr_1_nonneg p mrs :
  (0 <= shr_m mrs)%Z -> (0 <= shr_m (SpecFloat.iter_pos shr_1 p mrs))%Z.
Proof.
  revert mrs. induction p as [p IH|p IH|]; intros mrs H; cbn [SpecFloat.iter_pos].
  - apply IH, IH, shr_1_nonneg, H.
  - apply IH, IH, H.
  - apply shr_1_nonneg, H.
Qed.

Lemma shr_fexp_nonneg prec emax m e l :
  (0 <= m)%Z -> (0 <= shr_m (fst (shr_fexp prec emax m e l)))%Z.
Proof.
  intros H. unfold shr_fexp, shr.
  assert (H0 : (0 <= shr_m (shr_record_of_loc m l))%Z).
  { destruct l as [|[| |]]; exact H. }
  destruct (_ - e)%Z; cbn [fst]; auto using iter_shr_1_nonneg.
Qed.

Lemma round_nearest_even_nonneg m l :
  (0 <= m)%Z -> (0 <= round_nearest_even m l)%Z.
Proof.
  intros H. unfold round_nearest_even.
  destruct l as [|[| |]]; try destruct (Z.even m); lia.
Qed.

Lemma binary_round_aux_not_nan prec emax sx mx ex lx :
  (0 <= mx)%Z -> binary_round_aux prec emax sx mx ex lx <> S754_nan.
Proof.
  intros H. unfold binary_round_aux.
  pose proof (@shr_fexp_nonneg prec emax mx ex lx H) as H1.
  destruct (shr_fexp prec emax mx ex lx) as [mrs e1]. cbn [fst] in H1.
  pose proof (@shr_fexp_nonneg prec emax
                (round_nearest_even (shr_m mrs) (loc_of_shr_record mrs)) e1 loc_Exact
                (@round_nearest_even_nonneg _ (loc_of_shr_record mrs) H1)) as H2.
  destruct (shr_fexp prec emax _ e1 loc_Exact) as [mrs' e2]. cbn [fst] in H2.
  destruct (shr_m mrs'); [discriminate| |lia].
  destruct (Z.leb _ _); discriminate.
Qed.

(** A square is NaN exactly when the number is. *)
Lemma square_is_nan (x : float) : is_nan (x * x) = is_nan x.
Proof.
  rewrite !is_nan_spec, mul_spec.
  destruct (Prim2SF x) as [s|s| |s m e];
    try reflexivity; try (destruct s; reflexivity).
  unfold SF64mul, SFmul.
  pose proof (@binary_round_aux_not_nan prec emax (xorb s s) (Z.pos (m * m)) (e + e)
                loc_Exact ltac:(lia)) as H.
  destruct (binary_round_aux _ _ _ _ _ _); try reflexivity. now elim H.
Qed.

End FloatFacts.

(* ================================================================= *)
(** * Reasoning about computations *)

Section Monad.
Context {A B : Type}.

Lemma bind_ok (m : M A) (k : A -> M B) s a s1 :
  m s = (Ok a, s1) -> bind m k s = k a s1.
Proof. intros H. unfold bind. now rewrite H. Qed.

Lemma bind_raise (m : M A) (k : A -> M B) s e s1 :
  m s = (Raise e, s1) -> bind m k s = (Raise e, s1).
Proof. intros H. unfold bind. now rewrite H. Qed.

Lemma bind_inv_ok (m : M A) (k : A -> M B) s b s' :
  bind m k s = (Ok b, s') ->
  exists a s1, m s = (Ok a, s1) /\ k a s1 = (Ok b, s').
Proof.
  unfold bind. destruct (m s) as [[a|e] s1]; intros H.
  - now exists a, s1.
  - discriminate H.
Qed.

Lemma lift_bind (r : result A) (k : A -> M B) s :
  bind (lift r) k s = match r with Ok a => k a s | Raise e => (Raise e, s) end.
Proof. unfold bind, lift. now destruct r. Qed.
End Monad.

Lemma extends_refl s : extends s s.
Proof. exists []. now rewrite app_nil_r. Qed.

Lemma extends_trans s1 s2 s3 : extends s1 s2 -> extends s2 s3 -> extends s1 s3.
Proof.
  intros [n1 H1] [n2 H2]. exists (n1 ++ n2).
  now rewrite H2, H1, app_assoc.
Qed.

Lemma extends_push s a : extends s (push s a).
Proof. now exists [a]. Qed.

Lemma extends_holds s s' l a : extends s s' -> holds s l a -> holds s' l a.
Proof.
  intros [new H] Hl. unfold holds in *. rewrite H.
  rewrite nth_error_app1; [assumption|].
  apply nth_error_Some. now rewrite Hl.
Qed.

Lemma extends_length s s' : extends s s' -> (length (heap s) <= length (heap s'))%nat.
Proof. intros [new H]. rewrite H, length_app. lia. Qed.

Lemma holds_push_new s a : holds (push s a) (length (heap s)) a.
Proof.
  unfold holds, push; cbn [heap].
  rewrite nth_error_app2, Nat.sub_diag by lia. reflexivity.
Qed.

Lemma holds_push_old s a l b : holds s l b -> holds (push s a) l b.
Proof. apply extends_holds, extends_push. Qed.

Lemma length_heap_push s a : length (heap (push s a)) = S (length (heap s)).
Proof. unfold push; cbn [heap]. rewrite length_app. cbn. lia. Qed.

Lemma read_real_holds s l xs :
  holds s l (Float64 xs) -> read_real l s = (Ok xs, s).
Proof. unfold holds, read_real. now intros ->. Qed.

Lemma read_holds s l a : holds s l a -> read l s = (Ok a, s).
Proof. unfold holds, read. now intros ->. Qed.

Lemma read_real_inv s l xs s' :
  read_real l s = (Ok xs, s') -> s' = s /\ holds s l (Float64 xs).
Proof.
  unfold read_real, holds.
  destruct (nth_error (heap s) l) as [[ys|zs]|]; intros H; inversion H; auto.
Qed.

(** ** Frame rules *)

Section Frame.
Context {A B : Type}.

Lemma frame_ret (a : A) : frame (ret a).
Proof. intros s. apply extends_refl. Qed.

Lemma frame_raise (e : exn) : frame (@raise A e).
Proof. intros s. apply extends_refl. Qed.

Lemma frame_lift (r : result A) : frame (lift r).
Proof. intros s. apply extends_refl. Qed.

Lemma frame_bind (m : M A) (k : A -> M B) :
  frame m -> (forall a, frame (k a)) -> frame (bind m k).
Proof.
  intros Hm Hk s. unfold bind.
  specialize (Hm s). destruct (m s) as [[a|e] s1]; cbn [snd] in *.
  - eapply extends_trans; [exact Hm | apply Hk].
  - exact Hm.
Qed.
End Frame.

Lemma frame_alloc a : frame (alloc a).
Proof. intros s. apply extends_push. Qed.

Lemma frame_read_real l : frame (read_real l).
Proof.
  intros s. unfold read_real.
  destruct (nth_error (heap s) l) as [[xs|zs]|]; apply extends_refl.
Qed.

Lemma frame_read l : frame (read l).
Proof.
  intros s. unfold read.
  destruct (nth_error (heap s) l); apply extends_refl.
Qed.

Create HintDb frame.
#[export] Hint Resolve frame_ret frame_raise frame_lift frame_alloc
  frame_read_real frame_read : frame.

(** Splits a computation along its binds and branches. *)
Ltac frame_step :=
  match goal with
  | |- frame (bind _ _) => apply frame_bind; [ | intros ? ]
  | |- frame (if ?b then _ else _) => destruct b
  | |- frame (match ?a with Float64 _ => _ | Complex128 _ => _ end) => destruct a
  | |- frame (let _ := _ in _) => cbv zeta
  end.
Ltac frame_auto := repeat frame_step; auto with frame.

Lemma fresh_alloc a : fresh_result (alloc a).
Proof.
  intros s l s' H. unfold alloc in H. inversion H; subst.
  rewrite length_heap_push. lia.
Qed.

(** The result of the last call is the result of the whole, and earlier
    calls only add objects. *)
Lemma fresh_bind {A} (m : M A) (k : A -> M loc) :
  frame m -> (forall a, fresh_result (k a)) -> fresh_result (bind m k).
Proof.
  intros Hm Hk s l s' H.
  apply bind_inv_ok in H. destruct H as (a & s1 & H1 & H2).
  specialize (Hm s). rewrite H1 in Hm. cbn [snd] in Hm.
  apply extends_length in Hm. apply Hk in H2. lia.
Qed.

Lemma fresh_bind_ret (m : M loc) :
  fresh_result m -> fresh_result (bind m (fun l => ret l)).
Proof.
  intros Hm s l s' H.
  apply bind_inv_ok in H. destruct H as (a & s1 & H1 & H2).
  unfold ret in H2. inversion H2; subst. now apply Hm.
Qed.

Lemma fresh_raise e : fresh_result (raise e).
Proof. intros s l s' H. discriminate H. Qed.

Create HintDb fresh.
#[export] Hint Resolve fresh_alloc fresh_raise fresh_bind_ret : fresh.

Ltac fresh_step :=
  match goal with
  | |- fresh_result (bind _ (fun l => ret l)) => apply fresh_bind_ret
  | |- fresh_result (bind _ _) => apply fresh_bind; [ frame_auto | intros ? ]
  | |- fresh_result (if ?b then _ else _) => destruct b
  | |- fresh_result (match ?a with Float64 _ => _ | Complex128 _ => _ end) => destruct a
  | |- fresh_result (let _ := _ in _) => cbv zeta
  end.
Ltac fresh_auto := repeat fresh_step; auto with fresh.

Section LibraryFrame.
Context {K : NumKernels}.

Lemma frame_decimate x q : frame (decimate x q).
Proof. unfold decimate. frame_auto. Qed.

Lemma frame_sosfiltfilt sos x : frame (sosfiltfilt sos x).
Proof. unfold sosfiltfilt. frame_auto. Qed.

Lemma frame_hilbert x : frame (hilbert x).
Proof. unfold hilbert. frame_auto. Qed.

Lemma frame_np_abs x : frame (np_abs x).
Proof. unfold np_abs. frame_auto. Qed.

Lemma frame_np_square x : frame (np_square x).
Proof. unfold np_square. frame_auto. Qed.

Lemma frame_np_len x : frame (np_len x).
Proof. unfold np_len. frame_auto. Qed.

Lemma frame_np_divide x y : frame (np_divide x y).
Proof. unfold np_divide. frame_auto. Qed.

Lemma frame_np_linspace a b n : frame (np_linspace a b n).
Proof. unfold np_linspace. frame_auto. Qed.

Lemma frame_np_gradient f x : frame (np_gradient f x).
Proof. unfold np_gradient. frame_auto. Qed.

Lemma frame_zscore x : frame (zscore x).
Proof. unfold zscore. frame_auto. Qed.

Lemma fresh_decimate x q : fresh_result (decimate x q).
Proof. unfold decimate. fresh_auto. Qed.

Lemma fresh_sosfiltfilt sos x : fresh_result (sosfiltfilt sos x).
Proof. unfold sosfiltfilt. fresh_auto. Qed.

Lemma fresh_hilbert x : fresh_result (hilbert x).
Proof. unfold hilbert. fresh_auto. Qed.

Lemma fresh_np_abs x : fresh_result (np_abs x).
Proof. unfold np_abs. fresh_auto. Qed.

Lemma fresh_np_square x : fresh_result (np_square x).
Proof. unfold np_square. fresh_auto. Qed.

Lemma fresh_np_divide x y : fresh_result (np_divide x y).
Proof. unfold np_divide. fresh_auto. Qed.

Lemma fresh_np_linspace a b n : fresh_result (np_linspace a b n).
Proof. unfold np_linspace. fresh_auto. Qed.

Lemma fresh_np_gradient f x : fresh_result (np_gradient f x).
Proof. unfold np_gradient. fresh_auto. Qed.

Lemma fresh_zscore x : fresh_result (zscore x).
Proof. unfold zscore. fresh_auto. Qed.

End LibraryFrame.

#[export] Hint Resolve frame_decimate frame_sosfiltfilt frame_hilbert
  frame_np_abs frame_np_square frame_np_len frame_np_divide
  frame_np_linspace frame_np_gradient frame_zscore : frame.
#[export] Hint Resolve fresh_decimate fresh_sosfiltfilt fresh_hilbert
  fresh_np_abs fresh_np_square fresh_np_divide fresh_np_linspace
  fresh_np_gradient fresh_zscore : fresh.

(** ** The functions of rem.py only add arrays *)

Lemma extends_same_heap s s' : heap s' = heap s -> extends s s'.
Proof. intros H. exists []. now rewrite app_nil_r. Qed.

Section RemFrame.
Context {K : NumKernels}.

Lemma lru_cache_heap k call s : heap (snd (lru_cache k call s)) = heap s.
Proof.
  unfold lru_cache.
  destruct (cache_find k (sos_cache s)); [reflexivity|].
  destruct call; reflexivity.
Qed.

Lemma frame_make_sos_filter order low high bt fs :
  frame (make_sos_filter order low high bt fs).
Proof. intros s. apply extends_same_heap, lru_cache_heap. Qed.

Lemma frame_bandpass sig low high fs order :
  frame (bandpass sig low high fs order).
Proof. unfold bandpass. pose proof frame_make_sos_filter. frame_auto. Qed.

Lemma fresh_bandpass sig low high fs order :
  fresh_result (bandpass sig low high fs order).
Proof.
  unfold bandpass. apply fresh_bind; [apply frame_make_sos_filter|].
  intros sos. fresh_auto.
Qed.

Lemma frame_lowpass sig cut fs order : frame (lowpass sig cut fs order).
Proof. unfold lowpass. frame_auto. Qed.

Lemma frame_downsample raw_sig factor : frame (downsample raw_sig factor).
Proof. unfold downsample. frame_auto. Qed.

Lemma fresh_downsample raw_sig factor : fresh_result (downsample raw_sig factor).
Proof. unfold downsample. fresh_auto. Qed.

Lemma frame_get_band_power raw_sig low high fs factor order :
  frame (get_band_power raw_sig low high fs factor order).
Proof.
  unfold get_band_power.
  pose proof frame_downsample. pose proof frame_bandpass. frame_auto.
Qed.

Lemma fresh_get_band_power raw_sig low high fs factor order :
  fresh_result (get_band_power raw_sig low high fs factor order).
Proof.
  unfold get_band_power.
  pose proof frame_downsample. pose proof frame_bandpass. fresh_auto.
Qed.

Lemma frame_delta_theta lfp ld hd lt ht fs :
  frame (delta_theta lfp ld hd lt ht fs).
Proof. unfold delta_theta. pose proof frame_get_band_power. frame_auto. Qed.

Lemma fresh_delta_theta lfp ld hd lt ht fs :
  fresh_result (delta_theta lfp ld hd lt ht fs).
Proof. unfold delta_theta. pose proof frame_get_band_power. fresh_auto. Qed.

Lemma frame_speed acc_sig factor fs : frame (speed acc_sig factor fs).
Proof. unfold speed. pose proof frame_downsample. frame_auto. Qed.

Lemma fresh_speed acc_sig factor fs : fresh_result (speed acc_sig factor fs).
Proof. unfold speed. pose proof frame_downsample. fresh_auto. Qed.

Lemma frame_is_sleeping lfp acc ld hd lt ht fs :
  frame (is_sleeping lfp acc ld hd lt ht fs).
Proof.
  unfold is_sleeping.
  pose proof frame_delta_theta. pose proof frame_speed. frame_auto.
Qed.

End RemFrame.

(* ================================================================= *)
(** * What each call does to the store *)

Lemma firwin_decimation {K : NumKernels} (n q : Z) :
  (q <> 0)%Z ->
  firwin n (Qmake 1 1 / inject_Z q)%Q =
    if (q <? 0)%Z || (q =? 1)%Z then Raise ValueError
    else Ok (firwin_hamming n (Qmake 1 1 / inject_Z q)%Q).
Proof.
  intros Hq. unfold firwin.
  replace (Qle_bool (1 / inject_Z q) (0 # 1) || Qle_bool (1 # 1) (1 / inject_Z q))%Q
    with ((q <? 0)%Z || (q =? 1)%Z); [reflexivity|].
  destruct q as [|p|p]; [congruence| |].
  - unfold Qle_bool, Qdiv, Qmult, Qinv, inject_Z; cbn [Qnum Qden Z.mul Pos.mul].
    cbn [Z.ltb Z.compare orb]. 
    destruct (Z.eqb_spec (Z.pos p) 1) as [->|Hne]; [reflexivity|].
    symmetry. apply Z.leb_gt. lia.
  - reflexivity.
Qed.

Section Runs.
Context {K : NumKernels}.
Local Open Scope float_scope.

(** [decimate] on an integer factor. *)
Lemma decimate_int x q s xs :
  holds s x (Float64 xs) ->
  decimate x (PyInt q) s =
    if (q =? 0)%Z then (Raise ZeroDivisionError, s)
    else if (q <? 0)%Z || (q =? 1)%Z then (Raise ValueError, s)
    else (Ok (length (heap s)), push s (Float64 (decimated_values xs q))).
Proof.
  intros Hx. unfold decimate.
  rewrite (bind_ok _ _ _ (read_real_holds Hx)).
  rewrite lift_bind; cbn [operator_index].
  rewrite lift_bind. unfold float_int_truediv.
  destruct (Z.eqb_spec q 0) as [->|Hq]; [reflexivity|].
  rewrite lift_bind, (firwin_decimation _ Hq).
  destruct ((q <? 0)%Z || (q =? 1)%Z); reflexivity.
Qed.

Lemma decimate_valid x q s xs :
  holds s x (Float64 xs) -> (2 <= q)%Z ->
  decimate x (PyInt q) s =
    (Ok (length (heap s)), push s (Float64 (decimated_values xs q))).
Proof.
  intros Hx Hq. rewrite (decimate_int _ Hx).
  destruct (Z.eqb_spec q 0); [lia|].
  destruct (Z.ltb_spec q 0); [lia|].
  destruct (Z.eqb_spec q 1); [lia|]. reflexivity.
Qed.

(** [decimate] never returns on a factor that is not an integer. *)
Lemma decimate_float x f s : exists e, fst (decimate x (PyFloat f) s) = Raise e.
Proof.
  unfold decimate, bind, read_real.
  destruct (nth_error (heap s) x) as [[xs|zs]|]; cbn; eauto.
Qed.

Lemma decimate_inv x q s l s' :
  decimate x q s = (Ok l, s') ->
  exists xs z, holds s x (Float64 xs) /\ q = PyInt z /\ (2 <= z)%Z /\
    l = length (heap s) /\ s' = push s (Float64 (decimated_values xs z)).
Proof.
  intros H.
  pose proof H as H0.
  unfold decimate in H0. apply bind_inv_ok in H0.
  destruct H0 as (xs & s1 & Hr & _).
  apply read_real_inv in Hr. destruct Hr as [-> Hx].
  destruct q as [z|f].
  - rewrite (decimate_int _ Hx) in H.
    destruct (Z.eqb_spec z 0); [discriminate H|].
    destruct (Z.ltb_spec z 0); [discriminate H|].
    destruct (Z.eqb_spec z 1); [discriminate H|].
    cbn [orb] in H. inversion H; subst.
    exists xs, z. repeat split; auto. lia.
  - destruct (decimate_float x f s) as [e He]. rewrite H in He. discriminate He.
Qed.

(** [sosfiltfilt] on a real array. *)
Lemma sosfiltfilt_real sos x s xs :
  holds s x (Float64 xs) ->
  sosfiltfilt sos x s =
    if negb (validate_sos sos) || (length xs <=? sos_padlen sos)%nat
    then (Raise ValueError, s)
    else (Ok (length (heap s)),
          push s (Float64 (sosfilt_forward_backward sos (sos_padlen sos) xs))).
Proof.
  intros Hx. unfold sosfiltfilt.
  destruct (validate_sos sos); cbn [negb orb]; [|reflexivity].
  rewrite (bind_ok _ _ _ (read_real_holds Hx)).
  destruct (length xs <=? sos_padlen sos)%nat; reflexivity.
Qed.

Lemma hilbert_real x s xs :
  holds s x (Float64 xs) -> xs <> [] ->
  hilbert x s = (Ok (length (heap s)), push s (Complex128 (analytic_signal xs))).
Proof.
  intros Hx Hne. unfold hilbert.
  rewrite (bind_ok _ _ _ (read_holds Hx)).
  destruct xs; [congruence|]. reflexivity.
Qed.

Lemma np_abs_complex x s zs :
  holds s x (Complex128 zs) ->
  np_abs x s =
    (Ok (length (heap s)),
     push s (Float64 (map (fun z => npy_hypot (fst z) (snd z)) zs))).
Proof.
  intros Hx. unfold np_abs. now rewrite (bind_ok _ _ _ (read_holds Hx)).
Qed.

Lemma np_square_real x s xs :
  holds s x (Float64 xs) ->
  np_square x s = (Ok (length (heap s)), push s (Float64 (map (fun v => v * v) xs))).
Proof.
  intros Hx. unfold np_square. now rewrite (bind_ok _ _ _ (read_holds Hx)).
Qed.

Lemma np_len_run x s a :
  holds s x a -> np_len x s = (Ok (Z.of_nat (size a)), s).
Proof.
  intros Hx. unfold np_len. now rewrite (bind_ok _ _ _ (read_holds Hx)).
Qed.

Lemma zscore_real x s xs :
  holds s x (Float64 xs) ->
  zscore x s = (Ok (length (heap s)), push s (Float64 (zscore_values xs))).
Proof.
  intros Hx. unfold zscore. now rewrite (bind_ok _ _ _ (read_real_holds Hx)).
Qed.

Lemma broadcast_divide_same_length xs ys :
  length xs = length ys -> broadcast_divide xs ys = Ok (map2 div xs ys).
Proof.
  intros H. unfold broadcast_divide. now rewrite H, Nat.eqb_refl.
Qed.

Lemma np_divide_real x y s xs ys :
  holds s x (Float64 xs) -> holds s y (Float64 ys) -> length xs = length ys ->
  np_divide x y s = (Ok (length (heap s)), push s (Float64 (map2 div xs ys))).
Proof.
  intros Hx Hy Hlen. unfold np_divide.
  rewrite (bind_ok _ _ _ (read_real_holds Hx)).
  rewrite (bind_ok _ _ _ (read_real_holds Hy)).
  rewrite lift_bind, (broadcast_divide_same_length _ _ Hlen). reflexivity.
Qed.

Lemma np_linspace_run a b n s :
  (0 <= n)%Z ->
  np_linspace a b n s =
    (Ok (length (heap s)), push s (Float64 (linspace_values a b (Z.to_nat n)))).
Proof.
  intros Hn. unfold np_linspace.
  destruct (Z.ltb_spec n 0); [lia|]. reflexivity.
Qed.

Lemma np_gradient_real f x s fv xv :
  holds s f (Float64 fv) -> holds s x (Float64 xv) ->
  np_gradient f x s =
    match gradient_values fv xv with
    | Ok d => (Ok (length (heap s)), push s (Float64 d))
    | Raise e => (Raise e, s)
    end.
Proof.
  intros Hf Hx. unfold np_gradient.
  rewrite (bind_ok _ _ _ (read_real_holds Hf)).
  rewrite (bind_ok _ _ _ (read_real_holds Hx)).
  rewrite lift_bind. destruct (gradient_values fv xv); reflexivity.
Qed.

End Runs.

(* ================================================================= *)
(** * What the functions of rem.py do to the store *)

Lemma holds_same_heap s s1 l a : heap s1 = heap s -> holds s l a -> holds s1 l a.
Proof. unfold holds. now intros ->. Qed.

Section RemRuns.
Context {K : NumKernels} {KL : KernelLaws K}.
Local Open Scope float_scope.

Lemma make_sos_filter_heap order low high bt fs s r s1 :
  make_sos_filter order low high bt fs s = (r, s1) -> heap s1 = heap s.
Proof.
  intros H. unfold make_sos_filter in H.
  pose proof (lru_cache_heap (mkKey order low high bt fs)
                (butter order [low; high] bt fs) s) as Hh.
  now rewrite H in Hh.
Qed.

(** After a call that returns, the filter is the most recent entry of the
    cache, under the arguments of the call. *)
Lemma make_sos_filter_cached order low high bt fs s sos s1 :
  make_sos_filter order low high bt fs s = (Ok sos, s1) ->
  exists rest, sos_cache s1 = (mkKey order low high bt fs, sos) :: rest.
Proof.
  unfold make_sos_filter, lru_cache.
  destruct (cache_find _ (sos_cache s)) as [c|].
  - intros H; inversion H; subst. cbn [sos_cache]. eauto.
  - destruct (butter order [low; high] bt fs) as [c|e]; intros H; inversion H; subst.
    cbn [sos_cache firstn]. eauto.
Qed.

Lemma downsample_valid raw q s xs :
  holds s raw (Float64 xs) -> (2 <= q)%Z ->
  downsample raw (PyInt q) s =
    (Ok (length (heap s)), push s (Float64 (decimated_values xs q))).
Proof.
  intros Hx Hq. unfold downsample.
  now rewrite (bind_ok _ _ _ (decimate_valid Hx Hq)).
Qed.

Lemma downsample_inv raw factor s l s' :
  downsample raw factor s = (Ok l, s') ->
  exists xs q, holds s raw (Float64 xs) /\ factor = PyInt q /\ (2 <= q)%Z /\
    l = length (heap s) /\ s' = push s (Float64 (decimated_values xs q)).
Proof.
  intros H. unfold downsample in H. apply bind_inv_ok in H.
  destruct H as (a & s1 & Hd & Hr). unfold ret in Hr. inversion Hr; subst.
  now apply decimate_inv.
Qed.

Lemma bandpass_real sig low high fs order s xs sos s1 :
  holds s sig (Float64 xs) ->
  make_sos_filter order low high Bandpass fs s = (Ok sos, s1) ->
  bandpass sig low high fs order s =
    if negb (validate_sos sos) || (length xs <=? sos_padlen sos)%nat
    then (Raise ValueError, s1)
    else (Ok (length (heap s)),
          push s1 (Float64 (sosfilt_forward_backward sos (sos_padlen sos) xs))).
Proof.
  intros Hx Hm. unfold bandpass.
  rewrite (bind_ok _ _ _ Hm).
  pose proof Hm as Hh. apply make_sos_filter_heap in Hh.
  pose proof (holds_same_heap _ Hh Hx) as Hx1.
  unfold bind. rewrite (sosfiltfilt_real _ Hx1), Hh.
  destruct (negb (validate_sos sos) || (length xs <=? sos_padlen sos)%nat); reflexivity.
Qed.

Lemma bandpass_design_fails sig low high fs order s e s1 :
  make_sos_filter order low high Bandpass fs s = (Raise e, s1) ->
  bandpass sig low high fs order s = (Raise e, s1).
Proof. intros Hm. unfold bandpass. now rewrite (bind_raise _ _ _ Hm). Qed.

Lemma band_power_values_length sos dwn :
  length (band_power_values sos dwn) = length dwn.
Proof.
  unfold band_power_values.
  now rewrite !length_map, analytic_signal_length, sosfilt_forward_backward_length.
Qed.

Lemma get_band_power_run raw low high fs factor order s xs :
  holds s raw (Float64 xs) -> (2 <= factor)%Z ->
  get_band_power raw low high fs factor order s =
    let dwn := decimated_values xs factor in
    match make_sos_filter order low high Bandpass (fs / factor)%Z
            (push s (Float64 dwn)) with
    | (Raise e, s1) => (Raise e, s1)
    | (Ok sos, s1) =>
        if negb (validate_sos sos) || (length dwn <=? sos_padlen sos)%nat
        then (Raise ValueError, s1)
        else (Ok (length (heap s) + 4)%nat, band_power_store s1 sos dwn)
    end.
Proof.
  intros Hx Hq. cbv zeta. unfold get_band_power.
  rewrite (bind_ok _ _ _ (downsample_valid Hx Hq)).
  rewrite lift_bind. unfold int_floordiv.
  destruct (Z.eqb_spec factor 0); [lia|].
  set (dwn := decimated_values xs factor).
  set (s0 := push s (Float64 dwn)).
  assert (Hd : holds s0 (length (heap s)) (Float64 dwn)) by apply holds_push_new.
  destruct (make_sos_filter order low high Bandpass (fs / factor)%Z s0)
    as [[sos|e] s1] eqn:Hm.
  - pose proof Hm as Hh. apply make_sos_filter_heap in Hh.
    assert (Hlen : length (heap s1) = S (length (heap s))).
    { rewrite Hh. apply length_heap_push. }
    unfold bind at 1. erewrite bandpass_real; [|exact Hd|exact Hm].
    destruct (negb (validate_sos sos)); cbn [orb]; [reflexivity|].
    destruct (Nat.leb_spec (length dwn) (sos_padlen sos)); [reflexivity|].
    set (f := sosfilt_forward_backward sos (sos_padlen sos) dwn).
    assert (Hf : f <> []).
    { intros E. apply (f_equal (@length _)) in E.
      unfold f in E. rewrite sosfilt_forward_backward_length in E. cbn in E. lia. }
    assert (Hl0 : length (heap s0) = S (length (heap s))) by apply length_heap_push.
    rewrite <- Hh.
    rewrite (bind_ok _ _ _ (hilbert_real (holds_push_new s1 (Float64 f)) Hf)).
    rewrite (bind_ok _ _ _ (np_abs_complex (holds_push_new _ _))).
    rewrite (bind_ok _ _ _ (np_square_real (holds_push_new _ _))).
    unfold ret, band_power_store. fold f.
    rewrite !length_heap_push, Hlen.
    f_equal. f_equal. f_equal. lia.
  - unfold bind at 1. erewrite bandpass_design_fails; [reflexivity|exact Hm].
Qed.

(** When [get_band_power] returns, its input was a real array, the factor
    at least 2, and the result is a new array of band-power samples, as
    many as decimated samples. *)
Lemma get_band_power_inv raw low high fs factor order s p s' :
  get_band_power raw low high fs factor order s = (Ok p, s') ->
  exists xs sos s1,
    holds s raw (Float64 xs) /\ (2 <= factor)%Z /\
    make_sos_filter order low high Bandpass (fs / factor)%Z
      (push s (Float64 (decimated_values xs factor))) = (Ok sos, s1) /\
    validate_sos sos = true /\
    (sos_padlen sos < length (decimated_values xs factor))%nat /\
    p = (length (heap s) + 4)%nat /\
    s' = band_power_store s1 sos (decimated_values xs factor).
Proof.
  intros H. pose proof H as H0.
  unfold get_band_power in H0. apply bind_inv_ok in H0.
  destruct H0 as (l & s1 & Hd & _).
  apply downsample_inv in Hd.
  destruct Hd as (xs & q & Hx & Hq & Hq2 & _ & _). inversion Hq; subst q.
  erewrite get_band_power_run in H; [|exact Hx|exact Hq2]. cbv zeta in H.
  destruct (make_sos_filter _ _ _ _ _ _) as [[sos|e] s2] eqn:Hm; [|discriminate H].
  destruct (validate_sos sos) eqn:Hv; cbn [negb orb] in H; [|discriminate H].
  destruct (Nat.leb_spec (length (decimated_values xs factor)) (sos_padlen sos));
    [discriminate H|].
  inversion H; subst. exists xs, sos, s2. repeat split; auto.
Qed.

Lemma holds_band_power_store s1 sos dwn :
  holds (band_power_store s1 sos dwn) (length (heap s1) + 3)%nat
        (Float64 (band_power_values sos dwn)).
Proof.
  unfold band_power_store, band_power_values.
  match goal with |- holds (push ?s ?a) _ _ =>
    replace (length (heap s1) + 3)%nat with (length (heap s)) end.
  - apply holds_push_new.
  - rewrite !length_heap_push. lia.
Qed.

Lemma extends_band_power_store s1 sos dwn :
  extends s1 (band_power_store s1 sos dwn).
Proof.
  unfold band_power_store.
  repeat (eapply extends_trans; [|apply extends_push]). apply extends_refl.
Qed.

End RemRuns.

(* ================================================================= *)
(** * Lengths *)

Lemma map2_length {A B C} (f : A -> B -> C) xs ys :
  length (map2 f xs ys) = Nat.min (length xs) (length ys).
Proof.
  revert ys. induction xs as [|x xs IH]; intros [|y ys]; cbn; auto.
Qed.

Lemma map2_nth_error {A B C} (f : A -> B -> C) xs ys i x y :
  nth_error xs i = Some x -> nth_error ys i = Some y ->
  nth_error (map2 f xs ys) i = Some (f x y).
Proof.
  revert ys i. induction xs as [|x0 xs IH]; intros [|y0 ys] [|i]; cbn;
    try discriminate; intros Hx Hy.
  - now inversion Hx; inversion Hy.
  - now apply IH.
Qed.

Section Lengths.
Context {K : NumKernels}.
Local Open Scope float_scope.

Lemma zscore_values_length a : length (zscore_values a) = length a.
Proof.
  unfold zscore_values. destruct a as [|v a]; [reflexivity|].
  destruct (isconst (v :: a)); now rewrite ?length_map.
Qed.

Lemma np_diff_length x : length (np_diff x) = (length x - 1)%nat.
Proof.
  unfold np_diff. rewrite map2_length. destruct x; cbn; lia.
Qed.

Lemma gradient_interior_length f d :
  (length d + 1 = length f)%nat ->
  length (gradient_interior f d) = (length f - 2)%nat.
Proof.
  revert d. induction f as [|f0 f IH]; intros d Hd; [reflexivity|].
  destruct f as [|f1 [|f2 f]]; destruct d as [|dx1 [|dx2 d]]; cbn in Hd;
    try reflexivity; try lia.
  change (length (gradient_interior (f0 :: f1 :: f2 :: f) (dx1 :: dx2 :: d)))
    with (S (length (gradient_interior (f1 :: f2 :: f) (dx2 :: d)))).
  rewrite IH by (cbn; lia). cbn. lia.
Qed.

Lemma gradient_interior_uniform_length f dx :
  length (gradient_interior_uniform f dx) = (length f - 2)%nat.
Proof.
  unfold gradient_interior_uniform. rewrite map2_length, length_skipn. lia.
Qed.

(** [np.gradient] needs two samples. *)
Lemma gradient_values_short f x :
  (length f < 2)%nat -> exists e, gradient_values f x = Raise e.
Proof.
  intros Hf. unfold gradient_values.
  destruct (Nat.eqb_spec (length x) (length f)) as [E|E]; cbn [negb]; [|eauto].
  destruct (np_diff x) as [|d0 ds] eqn:Hd; [eauto|].
  apply (f_equal (@length _)) in Hd. rewrite np_diff_length in Hd. cbn in Hd. lia.
Qed.

(** The gradient has as many samples as the signal. *)
Lemma gradient_values_length f x d :
  gradient_values f x = Ok d -> length d = length f /\ (2 <= length f)%nat.
Proof.
  unfold gradient_values.
  destruct (Nat.eqb_spec (length x) (length f)) as [E|E]; cbn [negb]; [|discriminate].
  destruct (np_diff x) as [|d0 ds] eqn:Hd; [discriminate|].
  destruct (Nat.ltb_spec (length f) 2) as [Hlt|Hge]; [discriminate|].
  intros [= <-]. split; [|assumption].
  cbn [length]. rewrite length_app. cbn [length].
  assert (Hds : (S (length ds) + 1 = length f)%nat).
  { change (S (length ds)) with (length (d0 :: ds)).
    rewrite <- Hd, np_diff_length. lia. }
  match goal with |- context [if ?b then _ else _] => destruct b end.
  - rewrite gradient_interior_uniform_length. lia.
  - rewrite gradient_interior_length by exact Hds. lia.
Qed.

Lemma resample_n_out_bounds n q :
  (2 <= q)%Z ->
  (Z.of_nat n / q <= Z.of_nat (resample_n_out n q) <= Z.of_nat n / q + 1)%Z.
Proof.
  intros Hq. unfold resample_n_out.
  assert (0 <= Z.of_nat n / q)%Z by (apply Z.div_pos; lia).
  destruct (Z.of_nat n mod q =? 0)%Z; rewrite Z2Nat.id; lia.
Qed.

End Lengths.

(* ================================================================= *)
(** * delta_theta and speed, step by step *)

Lemma holds_inj s l a b : holds s l a -> holds s l b -> a = b.
Proof. unfold holds. intros Ha Hb. rewrite Ha in Hb. now inversion Hb. Qed.

Section PipelineRuns.
Context {K : NumKernels} {KL : KernelLaws K}.
Local Open Scope float_scope.

(** Band powers of one signal at one factor have the same length. *)
Lemma band_powers_same_length lfp lt ht ld hd fs factor s tp s1 dp s2 :
  get_band_power lfp lt ht fs factor default_order s = (Ok tp, s1) ->
  get_band_power lfp ld hd fs factor default_order s1 = (Ok dp, s2) ->
  exists tpv dpv,
    holds s2 tp (Float64 tpv) /\ holds s2 dp (Float64 dpv) /\
    length tpv = length dpv.
Proof.
  intros Ht Hd.
  pose proof (frame_get_band_power lfp lt ht fs factor default_order s) as Fr1.
  pose proof (frame_get_band_power lfp ld hd fs factor default_order s1) as Fr2.
  rewrite Ht in Fr1. rewrite Hd in Fr2. cbn [snd] in Fr1, Fr2.
  apply get_band_power_inv in Ht. apply get_band_power_inv in Hd.
  destruct Ht as (xs & sos1 & sa & Hx & _ & Hma & _ & _ & -> & ->).
  destruct Hd as (xs' & sos2 & sb & Hx' & _ & Hmb & _ & _ & -> & ->).
  pose proof (extends_holds Fr1 Hx) as Hx1.
  pose proof (holds_inj Hx1 Hx') as E. inversion E; subst xs'. clear E Hx'.
  apply make_sos_filter_heap in Hma. apply make_sos_filter_heap in Hmb.
  exists (band_power_values sos1 (decimated_values xs factor)),
         (band_power_values sos2 (decimated_values xs factor)).
  split; [|split].
  - apply (extends_holds Fr2).
    replace (length (heap s) + 4)%nat with (length (heap sa) + 3)%nat.
    + apply holds_band_power_store.
    + rewrite Hma, length_heap_push. lia.
  - match goal with |- holds (band_power_store _ _ ?d) _ _ =>
      replace (length (heap (band_power_store sa sos1 d)) + 4)%nat
        with (length (heap sb) + 3)%nat end.
    + apply holds_band_power_store.
    + rewrite Hmb, length_heap_push. lia.
  - now rewrite !band_power_values_length.
Qed.

(** Once both band powers are there, lines 47 and 48 return: two z-scores
    and their quotient, sample by sample. *)
Lemma delta_theta_run lfp ld hd lt ht fs s tp s1 dp s2 tpv dpv :
  get_band_power lfp lt ht fs default_factor default_order s = (Ok tp, s1) ->
  get_band_power lfp ld hd fs default_factor default_order s1 = (Ok dp, s2) ->
  holds s2 tp (Float64 tpv) -> holds s2 dp (Float64 dpv) ->
  length tpv = length dpv /\
  delta_theta lfp ld hd lt ht fs s =
    (Ok (length (heap s2) + 2)%nat, ratio_store s2 tpv dpv).
Proof.
  intros Ht Hd Htp Hdp.
  destruct (band_powers_same_length _ _ _ _ _ _ _ _ Ht Hd)
    as (tpv' & dpv' & Htp' & Hdp' & Hlen).
  pose proof (holds_inj Htp Htp') as E1. pose proof (holds_inj Hdp Hdp') as E2.
  inversion E1; inversion E2; subst tpv' dpv'. split; [exact Hlen|].
  unfold delta_theta.
  rewrite (bind_ok _ _ _ Ht), (bind_ok _ _ _ Hd).
  rewrite (bind_ok _ _ _ (zscore_real Htp)).
  rewrite (bind_ok _ _ _ (zscore_real (holds_push_old _ Hdp))).
  assert (Hzt : holds (push (push s2 (Float64 (zscore_values tpv)))
                            (Float64 (zscore_values dpv)))
                      (length (heap s2)) (Float64 (zscore_values tpv))).
  { apply holds_push_old, holds_push_new. }
  assert (Hzd : holds (push (push s2 (Float64 (zscore_values tpv)))
                            (Float64 (zscore_values dpv)))
                      (length (heap (push s2 (Float64 (zscore_values tpv)))))
                      (Float64 (zscore_values dpv))).
  { apply holds_push_new. }
  assert (Hz : length (zscore_values tpv) = length (zscore_values dpv)).
  { now rewrite !zscore_values_length. }
  rewrite (bind_ok _ _ _ (np_divide_real Hzt Hzd Hz)).
  unfold ret, ratio_store. rewrite !length_heap_push. f_equal. f_equal. lia.
Qed.

Lemma holds_ratio_store s2 tpv dpv :
  holds (ratio_store s2 tpv dpv) (length (heap s2) + 2)%nat
        (Float64 (map2 div (zscore_values tpv) (zscore_values dpv))).
Proof.
  unfold ratio_store.
  match goal with |- holds (push ?s ?a) _ _ =>
    replace (length (heap s2) + 2)%nat with (length (heap s)) end.
  - apply holds_push_new.
  - rewrite !length_heap_push. lia.
Qed.

(** [speed] on a real array: the decimation is by [default_factor], the
    rate is [fs / factor]. *)
Lemma speed_run acc factor fs s xs :
  holds s acc (Float64 xs) ->
  speed acc factor fs s =
    let motion := decimated_values xs default_factor in
    let s1 := push s (Float64 motion) in
    match int_truediv fs factor with
    | Raise e => (Raise e, s1)
    | Ok dwn_fs =>
        if dwn_fs =? 0 then (Raise ZeroDivisionError, s1)
        else
          let t := time_axis (length motion) dwn_fs in
          let s2 := push s1 (Float64 t) in
          match gradient_values motion t with
          | Raise e => (Raise e, s2)
          | Ok d => (Ok (length (heap s) + 2)%nat, push s2 (Float64 d))
          end
    end.
Proof.
  intros Hx. cbv zeta. unfold speed.
  assert (H16 : (2 <= default_factor)%Z) by (unfold default_factor; lia).
  rewrite (bind_ok _ _ _ (downsample_valid Hx H16)).
  set (motion := decimated_values xs default_factor).
  rewrite lift_bind. destruct (int_truediv fs factor) as [dwn_fs|e]; [|reflexivity].
  rewrite (bind_ok _ _ _ (np_len_run (holds_push_new s (Float64 motion)))).
  cbn [size]. rewrite lift_bind. unfold int_float_truediv.
  destruct (dwn_fs =? 0); [reflexivity|].
  rewrite (bind_ok _ _ _ (np_linspace_run _ _ _ (Nat2Z.is_nonneg _))).
  rewrite Nat2Z.id. fold (time_axis (length motion) dwn_fs).
  set (t := time_axis (length motion) dwn_fs).
  unfold bind at 1.
  rewrite (np_gradient_real (fv:=motion) (xv:=t)).
  - destruct (gradient_values motion t); [|reflexivity].
    unfold ret. rewrite !length_heap_push. f_equal. f_equal. lia.
  - apply holds_push_old. apply holds_push_new.
  - apply holds_push_new.
Qed.

End PipelineRuns.

(* ================================================================= *)
(** * The reference kernels have the libraries' shapes *)

Lemma resample_n_out_step (n q : nat) :
  (1 <= q)%nat -> (1 <= n)%nat ->
  resample_n_out n (Z.of_nat q) = S (resample_n_out (n - q) (Z.of_nat q)).
Proof.
  intros Hq Hn. unfold resample_n_out.
  destruct (Nat.lt_ge_cases n q) as [Hlt|Hge].
  - replace (n - q)%nat with 0%nat by lia.
    rewrite Z.div_small, Z.mod_small by lia.
    change (Z.of_nat 0) with 0%Z. rewrite Z.div_0_l, Z.mod_0_l by lia.
    destruct (Z.eqb_spec (Z.of_nat n) 0); [lia|]. reflexivity.
  - rewrite Nat2Z.inj_sub by lia.
    set (a := (Z.of_nat n - Z.of_nat q)%Z).
    replace (Z.of_nat n) with (a + 1 * Z.of_nat q)%Z by (unfold a; lia).
    rewrite Z.div_add, Z.mod_add by lia.
    assert (0 <= a / Z.of_nat q)%Z by (apply Z.div_pos; unfold a; lia).
    destruct (a mod Z.of_nat q =? 0)%Z; rewrite <- Z2Nat.inj_succ by lia;
      f_equal; lia.
Qed.

Lemma every_length fuel q x :
  (1 <= q)%nat -> (length x <= fuel)%nat ->
  length (Reference.every fuel q x) = resample_n_out (length x) (Z.of_nat q).
Proof.
  intros Hq. revert x. induction fuel as [|fuel IH]; intros x Hx.
  - destruct x; [reflexivity|cbn in Hx; lia].
  - destruct x as [|v x]; [reflexivity|].
    change (Reference.every (S fuel) q (v :: x))
      with (v :: Reference.every fuel q (skipn q (v :: x))).
    cbn [length]. rewrite IH by (rewrite length_skipn; cbn [length] in *; lia).
    rewrite length_skipn. cbn [length].
    symmetry. apply resample_n_out_step; lia.
Qed.

#[export] Instance reference_laws : KernelLaws Reference.kernels.
Proof.
  split.
  - intros x q b Hq. cbn [resample_poly Reference.kernels].
    rewrite every_length by lia. now rewrite Z2Nat.id by lia.
  - reflexivity.
  - intros x. cbn [analytic_signal Reference.kernels]. apply length_map.
Qed.

(* ================================================================= *)
(** * The decimator *)

Section Decimator.
Context {K : NumKernels}.
Local Open Scope float_scope.

(** C3.  [downsample] returns exactly when the factor is an integer that
    is at least 2.  On any other factor the call raises (TypeError for a
    factor that is not an integer, ZeroDivisionError for 0, ValueError for
    1 and for negative factors) and creates no array. *)
Theorem downsample_factor_validation s raw xs factor :
  holds s raw (Float64 xs) ->
  is_ok (fst (downsample raw factor s)) = valid_factor factor /\
  (valid_factor factor = false ->
   raises (fst (downsample raw factor s)) /\ snd (downsample raw factor s) = s).
Proof.
  intros Hx. unfold downsample, raises.
  destruct factor as [q|f]; cbn [valid_factor].
  - unfold bind. rewrite (decimate_int q Hx).
    destruct (Z.eqb_spec q 0) as [->|H0]; [cbn; eauto|].
    destruct (Z.ltb_spec q 0) as [Hn|Hn]; cbn [orb].
    { destruct (Z.leb_spec 2 q); [lia|]. cbn; eauto. }
    destruct (Z.eqb_spec q 1) as [->|H1]; [cbn; eauto|].
    destruct (Z.leb_spec 2 q); [|lia]. cbn. split; [reflexivity|discriminate].
  - unfold bind, decimate, bind. rewrite (read_real_holds Hx).
    cbn. eauto.
Qed.

(** Which exception an invalid factor ends in. *)
Lemma downsample_invalid_factor_errors s raw xs :
  holds s raw (Float64 xs) ->
  (forall f, fst (downsample raw (PyFloat f) s) = Raise TypeError) /\
  fst (downsample raw (PyInt 0) s) = Raise ZeroDivisionError /\
  (forall q, (q < 0 \/ q = 1)%Z -> fst (downsample raw (PyInt q) s) = Raise ValueError).
Proof.
  intros Hx. unfold downsample. split; [|split].
  - intros f. unfold bind, decimate, bind. now rewrite (read_real_holds Hx).
  - unfold bind. now rewrite (decimate_int 0 Hx).
  - intros q Hq. unfold bind. rewrite (decimate_int q Hx).
    destruct (Z.eqb_spec q 0); [lia|].
    destruct (Z.ltb_spec q 0); [reflexivity|].
    destruct (Z.eqb_spec q 1); [reflexivity|lia].
Qed.

End Decimator.

Section DecimatorRate.
Context {K : NumKernels} {KL : KernelLaws K}.
Local Open Scope float_scope.

Lemma sos_cache_band_power_store s1 sos dwn :
  sos_cache (band_power_store s1 sos dwn) = sos_cache s1.
Proof. reflexivity. Qed.

(** C4, as amended.  For an integer factor of at least 2, [downsample]
    returns a new array of [n // factor + bool(n % factor)] samples, which
    is [floor(n / factor)] or one more, and the rate [get_band_power]
    associates with it, the rate its band-pass filter is designed for, is
    the floor quotient [fs // factor]: the input rate divided by the factor
    when the factor divides the rate. *)
Theorem decimation_length_and_rate s raw xs low high fs factor order :
  holds s raw (Float64 xs) -> (2 <= factor)%Z ->
  (exists dwn,
     downsample raw (PyInt factor) s = (Ok (length (heap s)), push s (Float64 dwn)) /\
     length dwn = resample_n_out (length xs) factor /\
     (Z.of_nat (length xs) / factor <= Z.of_nat (length dwn)
        <= Z.of_nat (length xs) / factor + 1)%Z) /\
  (forall p s',
     get_band_power raw low high fs factor order s = (Ok p, s') ->
     exists sos rest,
       sos_cache s' = (mkKey order low high Bandpass (fs / factor)%Z, sos) :: rest) /\
  ((fs mod factor = 0)%Z -> (fs / factor * factor = fs)%Z).
Proof.
  intros Hx Hq. split; [|split].
  - exists (decimated_values xs factor).
    split; [exact (downsample_valid Hx Hq)|].
    assert (Hlen : length (decimated_values xs factor)
                   = resample_n_out (length xs) factor).
    { unfold decimated_values. apply resample_poly_length. lia. }
    split; [exact Hlen|]. rewrite Hlen. now apply resample_n_out_bounds.
  - intros p s' H. apply get_band_power_inv in H.
    destruct H as (xs' & sos & s1 & _ & _ & Hm & _ & _ & _ & ->).
    rewrite sos_cache_band_power_store.
    apply make_sos_filter_cached in Hm. destruct Hm as [rest Hc].
    now exists sos, rest.
  - intros Hm. pose proof (Z.div_mod fs factor ltac:(lia)). lia.
Qed.

End DecimatorRate.

Section DecimatorExamples.
#[local] Existing Instance Reference.kernels.
Import Reference.

(** A float factor, even an integral one, is refused. *)
Lemma downsample_factor_validation_witness :
  is_ok (fst (downsample 0 (PyFloat 2) (initial zeros448)))
    = false /\
  (raises (fst (downsample 0 (PyFloat 2) (initial zeros448))) /\
   snd (downsample 0 (PyFloat 2) (initial zeros448))
     = initial zeros448).
Proof.
  destruct (@downsample_factor_validation kernels
              (initial zeros448) 0%nat zeros448
              (PyFloat 2) eq_refl) as [H1 H2].
  split; [exact H1 | exact (H2 eq_refl)].
Defined.

(** With 448 samples at 20000 Hz and a factor of 3: 150 samples, the
    filter designed for 6666 Hz. *)
Lemma decimation_length_and_rate_witness :
  (exists dwn,
     downsample 0 (PyInt 3) (initial zeros448)
       = (Ok 1%nat, push (initial zeros448) (Float64 dwn)) /\
     length dwn = resample_n_out 448 3 /\
     (448 / 3 <= Z.of_nat (length dwn) <= 448 / 3 + 1)%Z) /\
  (forall p s',
     get_band_power 0 low_delta high_delta 20000 3 4 (initial zeros448) = (Ok p, s') ->
     exists sos rest,
       sos_cache s' = (mkKey 4 low_delta high_delta Bandpass (20000 / 3)%Z, sos) :: rest) /\
  ((20000 mod 3 = 0)%Z -> (20000 / 3 * 3 = 20000)%Z).
Proof.
  exact (@decimation_length_and_rate kernels reference_laws
           (initial zeros448) 0%nat zeros448 low_delta high_delta 20000 3 4
           eq_refl ltac:(lia)).
Defined.

(** The rate is not the quotient when the factor does not divide it:
    20000 Hz decimated by 3 is filtered as a 6666 Hz signal. *)
Lemma decimated_rate_not_exact :
  int_floordiv 20000 3 = Ok 6666%Z /\
  fst (get_band_power 0 low_delta high_delta 20000 3 4 (initial zeros448)) = Ok 5%nat /\
  map (fun e => k_fs (fst e))
      (sos_cache (snd (get_band_power 0 low_delta high_delta 20000 3 4
                         (initial zeros448)))) = [6666%Z] /\
  (6666 * 3 <> 20000)%Z.
Proof.
  split; [reflexivity|]. split; [vm_compute; reflexivity|].
  split; [vm_compute; reflexivity|]. lia.
Qed.

End DecimatorExamples.

(* ================================================================= *)
(** * Zero-phase filtering and band power *)

Section BandPower.
Context {K : NumKernels} {KL : KernelLaws K}.
Local Open Scope float_scope.

(** C7.  Whatever filter the design returns, [bandpass] raises (the
    ValueError of [sosfiltfilt], "the length of the input vector x must be
    greater than padlen") on a signal of at most [sos_padlen sos] samples,
    three times the number of taps of the sections, and creates no array;
    on a longer signal, and a filter whose sections are normalised as the
    design leaves them, it returns a new array that holds the signal
    filtered forward and backward by that filter with a padding of
    [sos_padlen sos] samples, and has as many samples as the signal. *)
Theorem bandpass_minimum_length s sig xs low high fs order sos s1 :
  holds s sig (Float64 xs) ->
  make_sos_filter order low high Bandpass fs s = (Ok sos, s1) ->
  ((length xs <= sos_padlen sos)%nat ->
   bandpass sig low high fs order s = (Raise ValueError, s1) /\ heap s1 = heap s) /\
  ((sos_padlen sos < length xs)%nat -> validate_sos sos = true ->
   bandpass sig low high fs order s
     = (Ok (length (heap s)),
        push s1 (Float64 (sosfilt_forward_backward sos (sos_padlen sos) xs))) /\
   length (sosfilt_forward_backward sos (sos_padlen sos) xs) = length xs).
Proof.
  intros Hx Hm.
  erewrite bandpass_real; [|exact Hx|exact Hm].
  split.
  - intros Hlen.
    destruct (Nat.leb_spec (length xs) (sos_padlen sos)); [|lia].
    rewrite orb_true_r. split; [reflexivity|]. now apply make_sos_filter_heap in Hm.
  - intros Hlen Hv. rewrite Hv. cbn [negb orb].
    destruct (Nat.leb_spec (length xs) (sos_padlen sos)); [lia|].
    split; [reflexivity|]. apply sosfilt_forward_backward_length.
Qed.

(** A band-pass design of [n] sections none of whose [b2] and [a2] is zero
    asks for more than [3 * (2 * n + 1)] samples: 27 at order 4. *)
Lemma sos_padlen_full_sections (sos : SOS) :
  count_zero sec_b2 sos = 0%nat \/ count_zero sec_a2 sos = 0%nat ->
  sos_padlen sos = (3 * (2 * length sos + 1))%nat.
Proof. intros H. unfold sos_padlen, sos_ntaps. lia. Qed.

(** A square against the number squared: it is not below zero, it is
    non-negative exactly when the number is not NaN, and NaN exactly when
    the number is. *)
Lemma squares_of_modulus (ms : list float) :
  Forall2 (fun m p => p = m * m /\ (p <? 0) = false /\
                      (non_negative p <-> is_nan m = false) /\
                      is_nan p = is_nan m)
          ms (map (fun v => v * v) ms).
Proof.
  induction ms as [|m ms IH]; cbn [map]; constructor; [|exact IH].
  split; [reflexivity|]. split; [apply FloatFacts.square_not_negative|].
  split; [|apply FloatFacts.square_is_nan].
  unfold non_negative. split.
  - intros H. rewrite <- FloatFacts.square_is_nan.
    now apply FloatFacts.leb_zero_not_nan.
  - intros H. apply FloatFacts.square_nonneg_or_nan.
    now rewrite FloatFacts.square_is_nan.
Qed.

Lemma Forall2_Forall_r {A B} (P : A -> Prop) (Q : B -> Prop) (R : A -> B -> Prop)
      (xs : list A) (ys : list B) :
  (forall x y, R x y -> P x -> Q y) ->
  Forall2 R xs ys -> Forall P xs -> Forall Q ys.
Proof.
  intros H F2. induction F2 as [|x y xs ys Hxy _ IH]; intros F; constructor.
  - apply (H x y Hxy). now inversion F.
  - apply IH. now inversion F.
Qed.

(** C5.  Whenever [get_band_power] returns, what it returns is a new array
    with one sample per sample of the decimated signal, holding the
    squares of the modulus [np.abs(hilbert(filtered))] for the filter the
    design returned.  No sample is below zero; a sample is non-negative
    exactly when the modulus there is not NaN, and NaN exactly when the
    modulus is: the power is non-negative throughout when the libraries
    return no NaN, and not otherwise.  And the call does return for a
    real signal, a factor of at least 2, a band the filter design accepts
    and a decimated signal longer than the padding of the filter. *)
Theorem get_band_power_output s raw low high fs factor order :
  (forall p s',
     get_band_power raw low high fs factor order s = (Ok p, s') ->
     exists xs sos s1,
       holds s raw (Float64 xs) /\
       make_sos_filter order low high Bandpass (fs / factor)%Z
         (push s (Float64 (decimated_values xs factor))) = (Ok sos, s1) /\
       holds s' (length (heap s)) (Float64 (decimated_values xs factor)) /\
       holds s' p (Float64 (band_power_values sos (decimated_values xs factor))) /\
       length (band_power_values sos (decimated_values xs factor))
         = length (decimated_values xs factor) /\
       Forall2 (fun m p => p = m * m /\ (p <? 0) = false /\
                           (non_negative p <-> is_nan m = false) /\
                           is_nan p = is_nan m)
         (band_modulus_values sos (decimated_values xs factor))
         (band_power_values sos (decimated_values xs factor)) /\
       (Forall (fun m => is_nan m = false)
          (band_modulus_values sos (decimated_values xs factor)) ->
        Forall non_negative
          (band_power_values sos (decimated_values xs factor)))) /\
  (forall xs sos s1,
     holds s raw (Float64 xs) -> (2 <= factor)%Z ->
     make_sos_filter order low high Bandpass (fs / factor)%Z
       (push s (Float64 (decimated_values xs factor))) = (Ok sos, s1) ->
     validate_sos sos = true ->
     (sos_padlen sos < length (decimated_values xs factor))%nat ->
     exists p s', get_band_power raw low high fs factor order s = (Ok p, s')).
Proof.
  split.
  - intros p s' H. apply get_band_power_inv in H.
    destruct H as (xs & sos & s1 & Hx & Hq & Hm & Hv & Hlen & -> & ->).
    exists xs, sos, s1.
    split; [exact Hx|]. split; [exact Hm|].
    apply make_sos_filter_heap in Hm.
    split; [|split; [|split; [|split]]].
    + apply (extends_holds (extends_band_power_store s1 sos _)).
      apply (holds_same_heap _ Hm). apply holds_push_new.
    + replace (length (heap s) + 4)%nat with (length (heap s1) + 3)%nat.
      * apply holds_band_power_store.
      * rewrite Hm, length_heap_push. lia.
    + apply band_power_values_length.
    + apply squares_of_modulus.
    + intros Hn.
      eapply Forall2_Forall_r; [|apply squares_of_modulus|exact Hn].
      intros m q (_ & _ & Hiff & _) Hm0. now apply Hiff.
  - intros xs sos s1 Hx Hq Hm Hv Hlen.
    erewrite get_band_power_run; [|exact Hx|exact Hq]. cbv zeta.
    rewrite Hm, Hv. cbn [negb orb].
    destruct (Nat.leb_spec (length (decimated_values xs factor)) (sos_padlen sos));
      [lia|]. eauto.
Qed.

End BandPower.

Section BandPowerExamples.
#[local] Existing Instance Reference.kernels.
Import Reference.

(** At order 4 the reference design asks for more than 27 samples: 27
    samples are refused, 28 are filtered. *)
Lemma bandpass_minimum_length_witness :
  (bandpass 0 low_theta high_theta 1250 4 (initial (repeat 0%float 27))
   = (Raise ValueError,
      snd (make_sos_filter 4 low_theta high_theta Bandpass 1250
             (initial (repeat 0%float 27)))))
  /\
  (bandpass 0 low_theta high_theta 1250 4 (initial (repeat 0%float 28))
   = (Ok 1,
      push (snd (make_sos_filter 4 low_theta high_theta Bandpass 1250
                   (initial (repeat 0%float 28))))
           (Float64 (sosfilt_forward_backward (repeat identity_section 4)
                       (sos_padlen (repeat identity_section 4))
                       (repeat 0%float 28)))) /\
   length (sosfilt_forward_backward (repeat identity_section 4)
             (sos_padlen (repeat identity_section 4)) (repeat 0%float 28)) = 28).
Proof.
  split.
  - apply (@bandpass_minimum_length kernels reference_laws
             (initial (repeat 0%float 27)) 0 (repeat 0%float 27)
             low_theta high_theta 1250 4
             (repeat identity_section 4) _ eq_refl eq_refl).
    vm_compute. lia.
  - apply (@bandpass_minimum_length kernels reference_laws
             (initial (repeat 0%float 28)) 0 (repeat 0%float 28)
             low_theta high_theta 1250 4
             (repeat identity_section 4) _ eq_refl eq_refl).
    + vm_compute. lia.
    + reflexivity.
Defined.

(** The band power of 448 zeros at the default parameters: the call
    returns, and array 5 holds 28 samples. *)
Lemma get_band_power_output_witness :
  (exists xs sos s1,
     holds (initial zeros448) 0 (Float64 xs) /\
     make_sos_filter 4 low_theta high_theta Bandpass (20000 / 16)%Z
       (push (initial zeros448) (Float64 (decimated_values xs 16))) = (Ok sos, s1) /\
     holds (snd (get_band_power 0 low_theta high_theta 20000 16 4 (initial zeros448)))
           1 (Float64 (decimated_values xs 16)) /\
     holds (snd (get_band_power 0 low_theta high_theta 20000 16 4 (initial zeros448)))
           5 (Float64 (band_power_values sos (decimated_values xs 16))) /\
     length (band_power_values sos (decimated_values xs 16))
       = length (decimated_values xs 16) /\
     Forall2 (fun m p => p = (m * m)%float /\ (p <? 0)%float = false /\
                         (non_negative p <-> is_nan m = false) /\
                         is_nan p = is_nan m)
       (band_modulus_values sos (decimated_values xs 16))
       (band_power_values sos (decimated_values xs 16)) /\
     (Forall (fun m => is_nan m = false)
        (band_modulus_values sos (decimated_values xs 16)) ->
      Forall non_negative (band_power_values sos (decimated_values xs 16)))) /\
  (exists p s',
     get_band_power 0 low_theta high_theta 20000 16 4 (initial zeros448) = (Ok p, s')) /\
  length (decimated_values zeros448 16) = 28.
Proof.
  split; [|split; [|reflexivity]].
  - exact (proj1 (@get_band_power_output kernels reference_laws (initial zeros448)
                    0 low_theta high_theta 20000 16 4) 5 _ eq_refl).
  - eapply (proj2 (@get_band_power_output kernels reference_laws (initial zeros448)
                     0 low_theta high_theta 20000 16 4) zeros448);
      [reflexivity | lia | reflexivity | reflexivity | vm_compute; lia].
Defined.

(** A raw signal with one NaN sample, at the default parameters: the
    call returns 28 samples, and the second one is NaN, which is not
    non-negative. *)
Lemma get_band_power_nan_sample :
  fst (get_band_power 0 low_theta high_theta 20000 16 4 (initial Examples.nan448))
    = Ok 5%nat /\
  exists power,
    holds (snd (get_band_power 0 low_theta high_theta 20000 16 4
                  (initial Examples.nan448))) 5 (Float64 power) /\
    length power = 28%nat /\
    nth 1 power 0%float = nan /\
    (0 <=? nth 1 power 0)%float = false /\
    ~ Forall non_negative power.
Proof.
  split; [vm_compute; reflexivity|].
  eexists. split; [vm_compute; reflexivity|].
  split; [reflexivity|]. split; [reflexivity|]. split; [reflexivity|].
  intros H. inversion H as [|p0 l0 _ H1]; subst.
  inversion H1 as [|p1 l1 Hn _]; subst. discriminate Hn.
Qed.

End BandPowerExamples.

(* ================================================================= *)
(** * The motion derivative *)

Lemma set_last_last (y : list float) (stop d : float) :
  y <> [] -> last (set_last y stop) d = stop.
Proof.
  intros Hy. unfold set_last. destruct y; [congruence|]. apply last_last.
Qed.

Lemma set_last_length (y : list float) (stop : float) :
  length (set_last y stop) = length y.
Proof.
  unfold set_last. destruct y as [|v y]; [reflexivity|].
  rewrite length_app, removelast_firstn_len, length_firstn. cbn. lia.
Qed.

Section Linspace.
Context {K : NumKernels}.
Local Open Scope float_scope.

Lemma linspace_values_length start stop num :
  length (linspace_values start stop num) = num.
Proof.
  unfold linspace_values.
  assert (Ha : length (arange num) = num).
  { unfold arange. now rewrite length_map, length_seq. }
  destruct (1 <? num)%nat; rewrite ?set_last_length;
    repeat match goal with |- context [if ?b then _ else _] => destruct b end;
    now rewrite !length_map.
Qed.

(** With at least two samples, the last sample of [linspace] is [stop]. *)
Lemma linspace_values_last start stop num d :
  (2 <= num)%nat -> last (linspace_values start stop num) d = stop.
Proof.
  intros Hn. unfold linspace_values.
  destruct (Nat.ltb_spec 1 num); [|lia].
  apply set_last_last. intros E. apply (f_equal (@length _)) in E.
  rewrite length_map in E.
  repeat match type of E with context [if ?b then _ else _] => destruct b end;
    rewrite length_map in E; unfold arange in E;
    rewrite length_map, length_seq in E; cbn in E; lia.
Qed.

End Linspace.

Lemma holds_push3_first s a b c :
  holds (push (push (push s a) b) c) (length (heap s)) a.
Proof. do 2 apply holds_push_old. apply holds_push_new. Qed.

Lemma holds_push3_second s a b c :
  holds (push (push (push s a) b) c) (S (length (heap s))) b.
Proof.
  apply holds_push_old. rewrite <- (length_heap_push s a). apply holds_push_new.
Qed.

Lemma holds_push3_third s a b c :
  holds (push (push (push s a) b) c) (length (heap s) + 2) c.
Proof.
  replace (length (heap s) + 2) with (length (heap (push (push s a) b))).
  - apply holds_push_new.
  - rewrite !length_heap_push. lia.
Qed.

Section MotionDerivative.
Context {K : NumKernels} {KL : KernelLaws K}.
Local Open Scope float_scope.

(** C8.  When the decimated accelerometer signal has fewer than 2 samples,
    [speed] raises: the ZeroDivisionError of its own divisions when [factor]
    or the decimated rate is 0, the IndexError of [np.gradient] otherwise. *)
Theorem speed_insufficient_samples s acc xs factor fs :
  holds s acc (Float64 xs) ->
  (length (decimated_values xs default_factor) < 2)%nat ->
  raises (fst (speed acc factor fs s)).
Proof.
  intros Hx Hlen. rewrite (speed_run factor fs Hx). cbv zeta. unfold raises.
  destruct (int_truediv fs factor) as [dwn_fs|e]; [|cbn; eauto].
  destruct (dwn_fs =? 0); [cbn; eauto|].
  destruct (gradient_values_short _
              (time_axis (length (decimated_values xs default_factor)) dwn_fs) Hlen)
    as [e He].
  rewrite He. cbn; eauto.
Qed.

(** C2, what the code does.  The decimation inside [speed] is by
    [default_factor], 16, whatever [factor] is: when [speed] returns, the
    decimated signal and the derivative have [n // 16 + bool(n % 16)]
    samples for [n] accelerometer samples. *)
Theorem speed_decimates_by_default_factor s acc xs factor fs d s' :
  holds s acc (Float64 xs) ->
  speed acc factor fs s = (Ok d, s') ->
  exists dm,
    holds s' (length (heap s)) (Float64 (decimated_values xs default_factor)) /\
    holds s' d (Float64 dm) /\
    length dm = resample_n_out (length xs) 16.
Proof.
  intros Hx H. rewrite (speed_run factor fs Hx) in H. cbv zeta in H.
  destruct (int_truediv fs factor) as [dwn_fs|e]; [|discriminate H].
  destruct (dwn_fs =? 0); [discriminate H|].
  destruct (gradient_values _ _) as [dm|e] eqn:Hg; [|discriminate H].
  inversion H; subst. exists dm. split; [|split].
  - apply holds_push3_first.
  - apply holds_push3_third.
  - apply gradient_values_length in Hg. destruct Hg as [-> _].
    unfold decimated_values. apply resample_poly_length. unfold default_factor. lia.
Qed.

(** C6, what the code does.  The time axis of [speed] has one sample per
    decimated sample, starts at 0 and ends at [n_pts / dwn_fs]: its [n_pts]
    samples span [n_pts], not [n_pts - 1], periods of the decimated rate,
    and the derivative is taken with respect to that axis. *)
Theorem speed_time_axis_span s acc xs factor fs dwn_fs d s' :
  holds s acc (Float64 xs) ->
  int_truediv fs factor = Ok dwn_fs ->
  speed acc factor fs s = (Ok d, s') ->
  let motion := decimated_values xs default_factor in
  let n_pts := length motion in
  exists t dm,
    holds s' (S (length (heap s))) (Float64 t) /\
    t = linspace_values 0 (float_of_int (Z.of_nat n_pts) / dwn_fs) n_pts /\
    length t = n_pts /\
    last t 0 = float_of_int (Z.of_nat n_pts) / dwn_fs /\
    holds s' d (Float64 dm) /\
    gradient_values motion t = Ok dm.
Proof.
  intros Hx Hr H. cbv zeta.
  rewrite (speed_run factor fs Hx) in H. cbv zeta in H. rewrite Hr in H.
  destruct (dwn_fs =? 0); [discriminate H|].
  destruct (gradient_values _ _) as [dm|e] eqn:Hg; [|discriminate H].
  inversion H; subst. unfold time_axis in *.
  eexists. exists dm. split; [|split; [reflexivity|split; [|split; [|split]]]].
  - apply holds_push3_second.
  - apply linspace_values_length.
  - apply linspace_values_last. apply gradient_values_length in Hg. apply Hg.
  - apply holds_push3_third.
  - exact Hg.
Qed.

End MotionDerivative.

Section MotionExamples.
#[local] Existing Instance Reference.kernels.
Import Reference.

(** Sixteen accelerometer samples leave one decimated sample. *)
Lemma speed_insufficient_samples_witness :
  raises (fst (speed 0 16 20000 (initial (repeat 1%float 16)))).
Proof.
  apply (@speed_insufficient_samples kernels
           (initial (repeat 1%float 16)) 0 (repeat 1%float 16) 16 20000 eq_refl).
  vm_compute. lia.
Defined.

(** 64 samples and [factor = 8]: 4 samples come back, as for 16; a
    decimation by 8 would leave 8. *)
Lemma speed_decimates_by_default_factor_witness :
  (exists dm,
     holds (snd (speed 0 8 20000 (initial (spaced [1; 5; 7; 1]%float)))) 1
           (Float64 (decimated_values (spaced [1; 5; 7; 1]%float) default_factor)) /\
     holds (snd (speed 0 8 20000 (initial (spaced [1; 5; 7; 1]%float)))) 3
           (Float64 dm) /\
     length dm = resample_n_out (length (spaced [1; 5; 7; 1]%float)) 16) /\
  resample_n_out (length (spaced [1; 5; 7; 1]%float)) 16 = 4 /\
  resample_n_out (length (spaced [1; 5; 7; 1]%float)) 8 = 8.
Proof.
  split; [|split; reflexivity].
  exact (@speed_decimates_by_default_factor kernels reference_laws
           (initial (spaced [1; 5; 7; 1]%float)) 0 (spaced [1; 5; 7; 1]%float)
           8 20000 3 _ eq_refl eq_refl).
Defined.

(** 64 samples at 20000 Hz, factor 16: four samples on a time axis that
    ends at 4 / 1250 s. *)
Lemma speed_time_axis_span_witness :
  exists t dm,
    holds (snd (speed 0 16 20000 (initial (spaced [1; 5; 7; 1]%float)))) 2 (Float64 t) /\
    t = linspace_values 0 (float_of_int 4 / 1250) 4 /\
    length t = 4 /\
    last t 0%float = (float_of_int 4 / 1250)%float /\
    holds (snd (speed 0 16 20000 (initial (spaced [1; 5; 7; 1]%float)))) 3 (Float64 dm) /\
    gradient_values [1; 5; 7; 1]%float t = Ok dm.
Proof.
  exact (@speed_time_axis_span kernels
           (initial (spaced [1; 5; 7; 1]%float)) 0 (spaced [1; 5; 7; 1]%float)
           16 20000 1250%float 3 _ eq_refl eq_refl eq_refl).
Defined.

(** The same run, sample by sample: the time axis steps by 4/3 of the
    decimated period 1/1250 = 0.0008 s, and the derivative of the samples
    1, 5, 7, 1 comes out as 3750, 2812.5, -1875, -5625 instead of 5000,
    3750, -2500, -7500. *)
Lemma speed_time_axis_example :
  fst (speed 0 16 20000 (initial (spaced [1; 5; 7; 1]%float))) = Ok 3 /\
  skipn 1 (heap (snd (speed 0 16 20000 (initial (spaced [1; 5; 7; 1]%float)))))
  = [Float64 [1; 5; 7; 1]%float;
     Float64 [0; 0x1.179ec9cbd821ep-10; 0x1.179ec9cbd821ep-9; 0x1.a36e2eb1c432dp-9]%float;
     Float64 [3750; 2812.5; -1875; -5625]%float] /\
  (1 / 1250 = 0x1.a36e2eb1c432dp-11)%float /\
  (0x1.179ec9cbd821ep-10 <=? 0x1.a36e2eb1c432dp-11)%float = false.
Proof. vm_compute. repeat split. Qed.

End MotionExamples.

(* ================================================================= *)
(** * The ratio *)

Lemma Forall_nan_map2_l (xs ys : list float) :
  Forall (fun v => v = nan) xs ->
  Forall (fun v => v = nan) (map2 div xs ys).
Proof.
  intros H. revert ys. induction H as [|x xs Hx _ IH]; intros [|y ys]; cbn;
    constructor; auto.
  subst x. apply FloatFacts.div_nan_l.
Qed.

Lemma Forall_nan_map2_r (xs ys : list float) :
  Forall (fun v => v = nan) ys ->
  Forall (fun v => v = nan) (map2 div xs ys).
Proof.
  intros H. revert xs. induction H as [|y ys Hy _ IH]; intros [|x xs]; cbn;
    constructor; auto.
  subst y. apply FloatFacts.div_nan_r.
Qed.

Section Ratio.
Context {K : NumKernels} {KL : KernelLaws K}.
Local Open Scope float_scope.

(** The z-score of an array of zero variance is NaN at every sample. *)
Lemma zscore_values_const a :
  isconst a = true -> Forall (fun v => v = nan) (zscore_values a).
Proof.
  intros Hc. unfold zscore_values. destruct a as [|v a]; [constructor|].
  rewrite Hc. apply Forall_forall. intros z Hz.
  apply in_map_iff in Hz. now destruct Hz as (? & <- & _).
Qed.

(** C1, as amended.  [delta_theta] has no degenerate-signal error: once
    both band powers are computed it returns a new array, the quotient of
    the two z-scores sample by sample, of the length of the band powers;
    when either band power has zero variance, every sample of the ratio is
    NaN. *)
Theorem delta_theta_zero_variance lfp ld hd lt ht fs s tp s1 dp s2 tpv dpv :
  get_band_power lfp lt ht fs default_factor default_order s = (Ok tp, s1) ->
  get_band_power lfp ld hd fs default_factor default_order s1 = (Ok dp, s2) ->
  holds s2 tp (Float64 tpv) -> holds s2 dp (Float64 dpv) ->
  exists r s3 ratio,
    delta_theta lfp ld hd lt ht fs s = (Ok r, s3) /\
    holds s3 r (Float64 ratio) /\
    ratio = map2 div (zscore_values tpv) (zscore_values dpv) /\
    length ratio = length dpv /\
    (isconst tpv = true \/ isconst dpv = true ->
     Forall (fun v => v = nan) ratio).
Proof.
  intros Ht Hd Htp Hdp.
  edestruct delta_theta_run as [Hlen Hrun];
    [exact Ht | exact Hd | exact Htp | exact Hdp | ].
  eexists. eexists. eexists. split; [exact Hrun|].
  split; [apply holds_ratio_store|]. split; [reflexivity|]. split.
  - rewrite map2_length, !zscore_values_length. lia.
  - intros [Hc|Hc].
    + apply Forall_nan_map2_l. now apply zscore_values_const.
    + apply Forall_nan_map2_r. now apply zscore_values_const.
Qed.

(** C10.  With band powers of nonzero variance, [delta_theta] returns the
    quotient of the two z-scores, and wherever the z-scored delta power is
    zero the ratio is not finite: an infinity or NaN, not an error. *)
Theorem delta_theta_zero_sample lfp ld hd lt ht fs s tp s1 dp s2 tpv dpv :
  get_band_power lfp lt ht fs default_factor default_order s = (Ok tp, s1) ->
  get_band_power lfp ld hd fs default_factor default_order s1 = (Ok dp, s2) ->
  holds s2 tp (Float64 tpv) -> holds s2 dp (Float64 dpv) ->
  isconst tpv = false -> isconst dpv = false ->
  exists r s3 ratio,
    delta_theta lfp ld hd lt ht fs s = (Ok r, s3) /\
    holds s3 r (Float64 ratio) /\
    length ratio = length dpv /\
    forall i zt zd,
      nth_error (zscore_values tpv) i = Some zt ->
      nth_error (zscore_values dpv) i = Some zd ->
      (zd =? 0) = true ->
      nth_error ratio i = Some (zt / zd) /\ is_finite (zt / zd) = false.
Proof.
  intros Ht Hd Htp Hdp _ _.
  edestruct delta_theta_run as [Hlen Hrun];
    [exact Ht | exact Hd | exact Htp | exact Hdp | ].
  eexists. eexists. eexists. split; [exact Hrun|].
  split; [apply holds_ratio_store|]. split.
  - rewrite map2_length, !zscore_values_length. lia.
  - intros i zt zd Hzt Hzd Hz. split.
    + now apply map2_nth_error.
    + now apply FloatFacts.div_zero_not_finite.
Qed.

End Ratio.

Section RatioExamples.
#[local] Existing Instance Reference.kernels.
Import Reference.

(** An all-zero LFP of 448 samples: both band powers are 28 zeros, of zero
    variance, and [delta_theta] returns 28 NaN without raising anything. *)
Lemma delta_theta_degenerate_returns :
  fst (delta_theta 0 low_delta high_delta low_theta high_theta 20000 (initial zeros448))
    = Ok 13 /\
  nth_error (heap (snd (delta_theta 0 low_delta high_delta low_theta high_theta 20000
                          (initial zeros448)))) 5 = Some (Float64 (repeat 0%float 28)) /\
  nth_error (heap (snd (delta_theta 0 low_delta high_delta low_theta high_theta 20000
                          (initial zeros448)))) 10 = Some (Float64 (repeat 0%float 28)) /\
  isconst (repeat 0%float 28) = true /\
  nth_error (heap (snd (delta_theta 0 low_delta high_delta low_theta high_theta 20000
                          (initial zeros448)))) 13 = Some (Float64 (repeat nan 28)) /\
  ~ raises (fst (delta_theta 0 low_delta high_delta low_theta high_theta 20000
                   (initial zeros448))).
Proof.
  split; [vm_compute; reflexivity|].
  split; [vm_compute; reflexivity|].
  split; [vm_compute; reflexivity|].
  split; [vm_compute; reflexivity|].
  split; [vm_compute; reflexivity|].
  intros [e He]. vm_compute in He. discriminate He.
Qed.

(** Band powers of nonzero variance do not make the ratio finite: under
    the reference kernels the band powers of [ramp448] are 1, 25, 49, ...,
    and the ratio is NaN at every sample whose power is the mean, 25. *)
Lemma delta_theta_nonzero_variance_not_finite :
  nth_error (heap (snd (delta_theta 0 low_delta high_delta low_theta high_theta 20000
                          (initial ramp448)))) 10
    = Some (Float64 (concat (repeat [1; 25; 49]%float 9) ++ [25]%float)) /\
  isconst (concat (repeat [1; 25; 49]%float 9) ++ [25]%float) = false /\
  option_map (fun a => match a with
                       | Float64 r => map is_finite (firstn 3 r)
                       | Complex128 _ => []
                       end)
    (nth_error (heap (snd (delta_theta 0 low_delta high_delta low_theta high_theta 20000
                             (initial ramp448)))) 13)
    = Some [true; false; true].
Proof. repeat split; vm_compute; reflexivity. Qed.

(** The same run through the theorem: the ratio of the all-zero LFP is
    the quotient of two all-NaN z-scores. *)
Lemma delta_theta_zero_variance_witness :
  exists r s3 ratio,
    delta_theta 0 low_delta high_delta low_theta high_theta 20000 (initial zeros448)
      = (Ok r, s3) /\
    holds s3 r (Float64 ratio) /\
    ratio = map2 PrimFloat.div (zscore_values (repeat 0%float 28))
                               (zscore_values (repeat 0%float 28)) /\
    length ratio = 28 /\
    (isconst (repeat 0%float 28) = true \/ isconst (repeat 0%float 28) = true ->
     Forall (fun v => v = nan) ratio).
Proof.
  exact (@delta_theta_zero_variance kernels reference_laws
           0 low_delta high_delta low_theta high_theta 20000 (initial zeros448)
           5 _ 10 _ (repeat 0%float 28) (repeat 0%float 28)
           eq_refl eq_refl eq_refl eq_refl).
Defined.

(** Band powers 1, 25, 49, ... of mean 25: the z-score of the samples
    equal to 25 is zero. *)
Lemma delta_theta_zero_sample_witness :
  exists r s3 ratio,
    delta_theta 0 low_delta high_delta low_theta high_theta 20000 (initial ramp448)
      = (Ok r, s3) /\
    holds s3 r (Float64 ratio) /\
    length ratio = 28 /\
    forall i zt zd,
      nth_error (zscore_values (concat (repeat [1; 25; 49]%float 9) ++ [25]%float)) i
        = Some zt ->
      nth_error (zscore_values (concat (repeat [1; 25; 49]%float 9) ++ [25]%float)) i
        = Some zd ->
      (zd =? 0)%float = true ->
      nth_error ratio i = Some (zt / zd)%float /\ is_finite (zt / zd) = false.
Proof.
  exact (@delta_theta_zero_sample kernels reference_laws
           0 low_delta high_delta low_theta high_theta 20000 (initial ramp448)
           5 _ 10 _ (concat (repeat [1; 25; 49]%float 9) ++ [25]%float)
           (concat (repeat [1; 25; 49]%float 9) ++ [25]%float)
           eq_refl eq_refl eq_refl eq_refl eq_refl eq_refl).
Defined.

End RatioExamples.

(* ================================================================= *)
(** * Inputs are left unchanged *)

Section Immutability.
Context {K : NumKernels}.

Lemma stage_intro (m : M loc) : frame m -> fresh_result m -> stage m.
Proof. now split. Qed.

(** C9.  Every stage of the pipeline leaves each array of the store it
    runs in as it was, its inputs among them, and returns a new array; and
    after [is_sleeping], whether it returned or raised, the LFP and the
    accelerometer arrays are what they were before the call, while the
    ratio and the motion it returns are two new arrays. *)
Theorem pipeline_leaves_inputs_unchanged :
  (forall raw factor, stage (downsample raw factor)) /\
  (forall sig low high fs order, stage (bandpass sig low high fs order)) /\
  (forall raw low high fs factor order,
     stage (get_band_power raw low high fs factor order)) /\
  (forall lfp ld hd lt ht fs, stage (delta_theta lfp ld hd lt ht fs)) /\
  (forall acc factor fs, stage (speed acc factor fs)) /\
  (forall lfp acc ld hd lt ht fs s a_lfp a_acc,
     holds s lfp a_lfp -> holds s acc a_acc ->
     holds (snd (is_sleeping lfp acc ld hd lt ht fs s)) lfp a_lfp /\
     holds (snd (is_sleeping lfp acc ld hd lt ht fs s)) acc a_acc /\
     forall ratio motion,
       fst (is_sleeping lfp acc ld hd lt ht fs s) = Ok (ratio, motion) ->
       length (heap s) <= ratio /\ ratio < motion /\
       motion < length (heap (snd (is_sleeping lfp acc ld hd lt ht fs s)))).
Proof.
  split; [intros; split; [apply frame_downsample | apply fresh_downsample]|].
  split; [intros; split; [apply frame_bandpass | apply fresh_bandpass]|].
  split; [intros; split; [apply frame_get_band_power | apply fresh_get_band_power]|].
  split; [intros; split; [apply frame_delta_theta | apply fresh_delta_theta]|].
  split; [intros; split; [apply frame_speed | apply fresh_speed]|].
  intros lfp acc ld hd lt ht fs s a_lfp a_acc Hl Ha.
  pose proof (frame_is_sleeping lfp acc ld hd lt ht fs s) as Fr.
  split; [exact (extends_holds Fr Hl)|].
  split; [exact (extends_holds Fr Ha)|].
  intros ratio motion E.
  destruct (is_sleeping lfp acc ld hd lt ht fs s) as [r s'] eqn:Hrun.
  cbn [fst snd] in *. subst r. unfold is_sleeping in Hrun.
  apply bind_inv_ok in Hrun. destruct Hrun as (r & s1 & Hr & Hrun).
  apply bind_inv_ok in Hrun. destruct Hrun as (m & s2 & Hm & Hrun).
  unfold ret in Hrun. inversion Hrun; subst.
  apply fresh_delta_theta in Hr. apply fresh_speed in Hm. lia.
Qed.

End Immutability.

Section ImmutabilityExamples.
#[local] Existing Instance Reference.kernels.
Import Reference.

(** A run of [is_sleeping] on 448 samples each: it returns the arrays 14
    and 17, and the arrays 0 and 1 are the inputs still. *)
Lemma pipeline_leaves_inputs_unchanged_witness :
  (holds (snd (is_sleeping 0 1 low_delta high_delta low_theta high_theta 20000
                 (initial2 ramp448 zeros448))) 0 (Float64 ramp448) /\
   holds (snd (is_sleeping 0 1 low_delta high_delta low_theta high_theta 20000
                 (initial2 ramp448 zeros448))) 1 (Float64 zeros448) /\
   forall ratio motion,
     fst (is_sleeping 0 1 low_delta high_delta low_theta high_theta 20000
            (initial2 ramp448 zeros448)) = Ok (ratio, motion) ->
     2 <= ratio /\ ratio < motion /\
     motion < length (heap (snd (is_sleeping 0 1 low_delta high_delta low_theta
                                   high_theta 20000 (initial2 ramp448 zeros448))))) /\
  fst (is_sleeping 0 1 low_delta high_delta low_theta high_theta 20000
         (initial2 ramp448 zeros448)) = Ok (14, 17).
Proof.
  split; [|vm_compute; reflexivity].
  exact (proj2 (proj2 (proj2 (proj2 (proj2
           (@pipeline_leaves_inputs_unchanged kernels)))))
           0 1 low_delta high_delta low_theta high_theta 20000%Z
           (initial2 ramp448 zeros448) (Float64 ramp448) (Float64 zeros448)
           eq_refl eq_refl).
Defined.

End ImmutabilityExamples.

(* ================================================================= *)
(** * The filter cache *)

Lemma cache_find_none_forall k c :
  cache_find k c = None -> Forall (fun e => key_eqb k (fst e) = false) c.
Proof.
  induction c as [|[k' v] c IH]; cbn; [constructor|].
  destruct (key_eqb k k') eqn:E; [discriminate|].
  intros H. constructor; auto.
Qed.

Lemma cache_remove_forall k c :
  Forall (fun e => key_eqb k (fst e) = false) (cache_remove k c).
Proof.
  apply Forall_forall. intros e He. unfold cache_remove in He.
  apply filter_In in He. destruct He as [_ He].
  now apply negb_true_iff in He.
Qed.

Lemma cache_remove_length k c : length (cache_remove k c) <= length c.
Proof. apply filter_length_le. Qed.

(** A hit removes at least the entry it found. *)
Lemma cache_remove_found k c v :
  cache_find k c = Some v -> S (length (cache_remove k c)) <= length c.
Proof.
  induction c as [|[k' v'] c IH]; cbn; [discriminate|].
  destruct (key_eqb k k') eqn:E; cbn.
  - intros _. pose proof (cache_remove_length k c). unfold cache_remove in *. lia.
  - intros H. apply IH in H. unfold cache_remove in *. lia.
Qed.

Lemma distinct_keys_cons e c :
  Forall (fun e' => key_eqb (fst e) (fst e') = false) c ->
  distinct_keys c -> distinct_keys (e :: c).
Proof. intros H1 H2. now constructor. Qed.

Lemma distinct_keys_filter f c :
  distinct_keys c -> distinct_keys (filter f c).
Proof.
  induction 1 as [|e c He _ IH]; cbn; [constructor|].
  destruct (f e); [|exact IH].
  constructor; [|exact IH].
  apply Forall_forall. intros e' He'. apply filter_In in He'.
  rewrite Forall_forall in He. now apply He.
Qed.

Lemma In_firstn {A} (x : A) n l : In x (firstn n l) -> In x l.
Proof.
  revert l. induction n as [|n IH]; intros l H; destruct l as [|y l];
    cbn in *; try contradiction.
  destruct H as [H|H]; auto.
Qed.

Lemma distinct_keys_firstn n c :
  distinct_keys c -> distinct_keys (firstn n c).
Proof.
  intros H. revert n. induction H as [|e c He _ IH]; intros [|n]; cbn;
    try (constructor; fail).
  constructor; [|apply IH].
  apply Forall_forall. intros e' He'. apply In_firstn in He'.
  rewrite Forall_forall in He. now apply He.
Qed.

Lemma key_eqb_refl k :
  is_nan (k_low k) = false -> is_nan (k_high k) = false -> key_eqb k k = true.
Proof.
  unfold is_nan, key_eqb. intros Hl Hh.
  apply negb_false_iff in Hl. apply negb_false_iff in Hh.
  rewrite Hl, Hh, !Z.eqb_refl. now destruct (k_btype k).
Qed.

Section Cache.
Context {K : NumKernels}.

(** X1.  Memoisation: after a call of [make_sos_filter] has returned a
    filter, a call with the same arguments returns that filter again,
    whatever the filter design would compute now (the second call may
    even run with other kernels [K']); it touches no array and does not
    grow the cache. *)
Theorem make_sos_filter_hit (K' : NumKernels) order low high bt fs s sos s1 :
  is_nan low = false -> is_nan high = false ->
  @make_sos_filter K order low high bt fs s = (Ok sos, s1) ->
  fst (@make_sos_filter K' order low high bt fs s1) = Ok sos /\
  heap (snd (@make_sos_filter K' order low high bt fs s1)) = heap s1 /\
  length (sos_cache (snd (@make_sos_filter K' order low high bt fs s1)))
    <= length (sos_cache s1).
Proof.
  intros Hl Hh H.
  apply make_sos_filter_cached in H. destruct H as [rest Hc].
  assert (Hk : key_eqb (mkKey order low high bt fs) (mkKey order low high bt fs) = true)
    by now apply key_eqb_refl.
  assert (Hf : cache_find (mkKey order low high bt fs) (sos_cache s1) = Some sos).
  { rewrite Hc. cbn [cache_find]. now rewrite Hk. }
  unfold make_sos_filter, lru_cache. rewrite Hf. cbn [fst snd heap sos_cache].
  split; [reflexivity|]. split; [reflexivity|].
  cbn [length]. now apply cache_remove_found with (v := sos).
Qed.

Lemma keeps_cache_inv_make_sos_filter order low high bt fs :
  keeps_cache_inv (make_sos_filter order low high bt fs).
Proof.
  intros s [Hlen Hd]. unfold make_sos_filter, lru_cache.
  destruct (cache_find _ (sos_cache s)) as [sos|] eqn:Hf.
  - split; cbn [snd sos_cache].
    + cbn [length]. apply cache_remove_found in Hf. lia.
    + apply distinct_keys_cons; [apply cache_remove_forall|].
      now apply distinct_keys_filter.
  - destruct (butter order [low; high] bt fs) as [sos|e]; [|now split].
    split; cbn [snd sos_cache].
    + rewrite length_firstn. lia.
    + apply distinct_keys_firstn. apply distinct_keys_cons; [|exact Hd].
      now apply cache_find_none_forall.
Qed.

End Cache.

Section CacheRules.
Context {A B : Type}.

Lemma cache_stable_ret (a : A) : cache_stable (ret a).
Proof. now intros s. Qed.

Lemma cache_stable_raise (e : exn) : cache_stable (@raise A e).
Proof. now intros s. Qed.

Lemma cache_stable_lift (r : result A) : cache_stable (lift r).
Proof. now intros s. Qed.

Lemma cache_stable_bind (m : M A) (k : A -> M B) :
  cache_stable m -> (forall a, cache_stable (k a)) -> cache_stable (bind m k).
Proof.
  intros Hm Hk s. unfold bind. specialize (Hm s).
  destruct (m s) as [[a|e] s1]; cbn [snd] in *; [|exact Hm].
  now rewrite Hk.
Qed.

Lemma keeps_cache_inv_stable (m : M A) : cache_stable m -> keeps_cache_inv m.
Proof. intros Hm s [H1 H2]. unfold cache_inv. now rewrite Hm. Qed.

Lemma keeps_cache_inv_bind (m : M A) (k : A -> M B) :
  keeps_cache_inv m -> (forall a, keeps_cache_inv (k a)) ->
  keeps_cache_inv (bind m k).
Proof.
  intros Hm Hk s Hs. unfold bind. specialize (Hm s Hs).
  destruct (m s) as [[a|e] s1]; cbn [snd] in *; [|exact Hm].
  now apply Hk.
Qed.

End CacheRules.

Lemma cache_stable_alloc a : cache_stable (alloc a).
Proof. now intros s. Qed.

Lemma cache_stable_read_real l : cache_stable (read_real l).
Proof.
  intros s. unfold read_real.
  now destruct (nth_error (heap s) l) as [[xs|zs]|].
Qed.

Lemma cache_stable_read l : cache_stable (read l).
Proof. intros s. unfold read. now destruct (nth_error (heap s) l). Qed.

Create HintDb cache.
#[export] Hint Resolve cache_stable_ret cache_stable_raise cache_stable_lift
  cache_stable_alloc cache_stable_read_real cache_stable_read : cache.

Ltac cache_step :=
  match goal with
  | |- cache_stable (bind _ _) => apply cache_stable_bind; [ | intros ? ]
  | |- cache_stable (if ?b then _ else _) => destruct b
  | |- cache_stable (match ?a with Float64 _ => _ | Complex128 _ => _ end) =>
      destruct a
  | |- cache_stable (let _ := _ in _) => cbv zeta
  | |- keeps_cache_inv (bind _ _) => apply keeps_cache_inv_bind; [ | intros ? ]
  end.
Ltac cache_auto :=
  repeat cache_step; auto using keeps_cache_inv_stable with cache.

Section LibraryCache.
Context {K : NumKernels}.

Lemma cache_stable_decimate x q : cache_stable (decimate x q).
Proof. unfold decimate. cache_auto. Qed.

Lemma cache_stable_sosfiltfilt sos x : cache_stable (sosfiltfilt sos x).
Proof. unfold sosfiltfilt. cache_auto. Qed.

Lemma cache_stable_hilbert x : cache_stable (hilbert x).
Proof. unfold hilbert. cache_auto. Qed.

Lemma cache_stable_np_abs x : cache_stable (np_abs x).
Proof. unfold np_abs. cache_auto. Qed.

Lemma cache_stable_np_square x : cache_stable (np_square x).
Proof. unfold np_square. cache_auto. Qed.

Lemma cache_stable_np_len x : cache_stable (np_len x).
Proof. unfold np_len. cache_auto. Qed.

Lemma cache_stable_np_divide x y : cache_stable (np_divide x y).
Proof. unfold np_divide. cache_auto. Qed.

Lemma cache_stable_np_linspace a b n : cache_stable (np_linspace a b n).
Proof. unfold np_linspace. cache_auto. Qed.

Lemma cache_stable_np_gradient f x : cache_stable (np_gradient f x).
Proof. unfold np_gradient. cache_auto. Qed.

Lemma cache_stable_zscore x : cache_stable (zscore x).
Proof. unfold zscore. cache_auto. Qed.

End LibraryCache.

#[export] Hint Resolve cache_stable_decimate cache_stable_sosfiltfilt
  cache_stable_hilbert cache_stable_np_abs cache_stable_np_square
  cache_stable_np_len cache_stable_np_divide cache_stable_np_linspace
  cache_stable_np_gradient cache_stable_zscore : cache.

Section RemCache.
Context {K : NumKernels}.

Lemma cache_stable_downsample raw factor : cache_stable (downsample raw factor).
Proof. unfold downsample. cache_auto. Qed.

Lemma cache_stable_speed acc factor fs : cache_stable (speed acc factor fs).
Proof. unfold speed. pose proof cache_stable_downsample. cache_auto. Qed.

Lemma cache_stable_lowpass sig cut fs order : cache_stable (lowpass sig cut fs order).
Proof. unfold lowpass. cache_auto. Qed.

Lemma keeps_cache_inv_bandpass sig low high fs order :
  keeps_cache_inv (bandpass sig low high fs order).
Proof.
  unfold bandpass. pose proof keeps_cache_inv_make_sos_filter. cache_auto.
Qed.

Lemma keeps_cache_inv_get_band_power raw low high fs factor order :
  keeps_cache_inv (get_band_power raw low high fs factor order).
Proof.
  unfold get_band_power.
  pose proof cache_stable_downsample. pose proof keeps_cache_inv_bandpass.
  cache_auto.
Qed.

Lemma keeps_cache_inv_delta_theta lfp ld hd lt ht fs :
  keeps_cache_inv (delta_theta lfp ld hd lt ht fs).
Proof.
  unfold delta_theta. pose proof keeps_cache_inv_get_band_power. cache_auto.
Qed.

(** X2.  The cache of filter designs stays bounded and consistent: if it
    holds at most 128 entries, no two of them under equal arguments (as
    the empty cache does), then so it does after [make_sos_filter],
    [bandpass], [get_band_power], [delta_theta] and [is_sleeping], whether
    they return or raise; [downsample], [lowpass] and [speed] leave the
    cache as it is. *)
Theorem filter_cache_invariant :
  (forall order low high bt fs, keeps_cache_inv (make_sos_filter order low high bt fs)) /\
  (forall sig low high fs order, keeps_cache_inv (bandpass sig low high fs order)) /\
  (forall raw low high fs factor order,
     keeps_cache_inv (get_band_power raw low high fs factor order)) /\
  (forall lfp ld hd lt ht fs, keeps_cache_inv (delta_theta lfp ld hd lt ht fs)) /\
  (forall lfp acc ld hd lt ht fs, keeps_cache_inv (is_sleeping lfp acc ld hd lt ht fs)) /\
  (forall raw factor, cache_stable (downsample raw factor)) /\
  (forall sig cut fs order, cache_stable (lowpass sig cut fs order)) /\
  (forall acc factor fs, cache_stable (speed acc factor fs)).
Proof.
  split; [exact keeps_cache_inv_make_sos_filter|].
  split; [exact keeps_cache_inv_bandpass|].
  split; [exact keeps_cache_inv_get_band_power|].
  split; [exact keeps_cache_inv_delta_theta|].
  split.
  { intros. unfold is_sleeping.
    pose proof keeps_cache_inv_delta_theta. pose proof cache_stable_speed.
    cache_auto. }
  split; [exact cache_stable_downsample|].
  split; [exact cache_stable_lowpass|exact cache_stable_speed].
Qed.

End RemCache.

(* ================================================================= *)
(** * How long a signal has to be *)

(** More than [p] samples are left after keeping one in [q] exactly
    when there were more than [q * p]. *)
Lemma resample_n_out_gt (n p : nat) (q : Z) :
  (1 <= q)%Z ->
  (p < resample_n_out n q)%nat <-> (q * Z.of_nat p < Z.of_nat n)%Z.
Proof.
  intros Hq. unfold resample_n_out.
  pose proof (Z.div_mod (Z.of_nat n) q ltac:(lia)) as Hdm.
  pose proof (Z.mod_pos_bound (Z.of_nat n) q ltac:(lia)) as Hr.
  assert (Hd : (0 <= Z.of_nat n / q)%Z) by (apply Z.div_pos; lia).
  destruct (Z.eqb_spec (Z.of_nat n mod q) 0) as [E|E].
  - rewrite Z.add_0_r. split; intros H.
    + apply Nat2Z.inj_lt in H. rewrite Z2Nat.id in H by lia. nia.
    + apply Nat2Z.inj_lt. rewrite Z2Nat.id by lia. nia.
  - split; intros H.
    + apply Nat2Z.inj_lt in H. rewrite Z2Nat.id in H by lia. nia.
    + apply Nat2Z.inj_lt. rewrite Z2Nat.id by lia. nia.
Qed.

Section Lowpass.
Context {K : NumKernels} {KL : KernelLaws K}.

(** X3.  [lowpass] designs its filter on every call and never reads or
    fills the cache.  A design that raises makes [lowpass] raise the same
    error and change nothing; with the filter [sos] it raises ValueError
    on a signal of at most [sos_padlen sos] samples, again changing
    nothing, and otherwise returns a new array of as many samples as the
    signal. *)
Theorem lowpass_uncached s sig xs cut fs order :
  holds s sig (Float64 xs) ->
  sos_cache (snd (lowpass sig cut fs order s)) = sos_cache s /\
  (forall e, butter order [cut] Lowpass fs = Raise e ->
     lowpass sig cut fs order s = (Raise e, s)) /\
  (forall sos, butter order [cut] Lowpass fs = Ok sos ->
     ((length xs <= sos_padlen sos)%nat ->
      lowpass sig cut fs order s = (Raise ValueError, s)) /\
     ((sos_padlen sos < length xs)%nat -> validate_sos sos = true ->
      exists ys,
        lowpass sig cut fs order s = (Ok (length (heap s)), push s (Float64 ys)) /\
        length ys = length xs)).
Proof.
  intros Hx. split; [apply cache_stable_lowpass|]. split.
  - intros e He. unfold lowpass. now rewrite lift_bind, He.
  - intros sos Hs. unfold lowpass. rewrite lift_bind, Hs.
    unfold bind. rewrite (sosfiltfilt_real sos Hx). split.
    + intros Hlen. destruct (Nat.leb_spec (length xs) (sos_padlen sos)); [|lia].
      now rewrite orb_true_r.
    + intros Hlen Hv. rewrite Hv. cbn [negb orb].
      destruct (Nat.leb_spec (length xs) (sos_padlen sos)); [lia|].
      eexists. split; [reflexivity|]. apply sosfilt_forward_backward_length.
Qed.

End Lowpass.

Section BandPowerDomain.
Context {K : NumKernels} {KL : KernelLaws K}.

Lemma downsample_below_two s raw xs factor :
  holds s raw (Float64 xs) -> (factor < 2)%Z ->
  exists e, downsample raw (PyInt factor) s = (Raise e, s).
Proof.
  intros Hx Hq. unfold downsample, bind. rewrite (decimate_int factor Hx).
  destruct (Z.eqb_spec factor 0); [eauto|].
  destruct (Z.ltb_spec factor 0); cbn [orb]; [eauto|].
  destruct (Z.eqb_spec factor 1); [eauto|lia].
Qed.

(** X4.  How [get_band_power] fails on a real array.  A factor below 2
    raises before anything is done: the state is unchanged.  A band the
    design refuses raises the error of the design after the decimation:
    the decimated array exists, nothing is cached.  A decimated signal of
    at most [sos_padlen sos] samples raises ValueError after the filter
    has been designed and stored: the failed call leaves the filter at
    the head of the cache. *)
Theorem get_band_power_failures s raw xs low high fs factor order :
  holds s raw (Float64 xs) ->
  ((factor < 2)%Z ->
   raises (fst (get_band_power raw low high fs factor order s)) /\
   snd (get_band_power raw low high fs factor order s) = s) /\
  ((2 <= factor)%Z ->
   forall e,
     cache_find (mkKey order low high Bandpass (fs / factor)%Z) (sos_cache s) = None ->
     butter order [low; high] Bandpass (fs / factor)%Z = Raise e ->
     get_band_power raw low high fs factor order s
       = (Raise e, push s (Float64 (decimated_values xs factor)))) /\
  ((2 <= factor)%Z ->
   forall sos s1,
     make_sos_filter order low high Bandpass (fs / factor)%Z
       (push s (Float64 (decimated_values xs factor))) = (Ok sos, s1) ->
     (length (decimated_values xs factor) <= sos_padlen sos)%nat ->
     get_band_power raw low high fs factor order s = (Raise ValueError, s1) /\
     exists rest,
       sos_cache s1 = (mkKey order low high Bandpass (fs / factor)%Z, sos) :: rest).
Proof.
  intros Hx. split; [|split].
  - intros Hq. destruct (downsample_below_two Hx Hq) as [e He].
    unfold get_band_power. rewrite (bind_raise _ _ _ He).
    split; [now exists e|reflexivity].
  - intros Hq e Hf Hb.
    erewrite get_band_power_run; [|exact Hx|exact Hq]. cbv zeta.
    unfold make_sos_filter, lru_cache. cbn [sos_cache push].
    now rewrite Hf, Hb.
  - intros Hq sos s1 Hm Hlen.
    erewrite get_band_power_run; [|exact Hx|exact Hq]. cbv zeta. rewrite Hm.
    destruct (Nat.leb_spec (length (decimated_values xs factor)) (sos_padlen sos));
      [|lia].
    rewrite orb_true_r. split; [reflexivity|].
    now apply make_sos_filter_cached in Hm.
Qed.

(** X5.  With the filter designed, [get_band_power] returns exactly when
    the raw signal has more than [factor * sos_padlen sos] samples: more
    than 432 at the defaults (factor 16, padding 27). *)
Theorem get_band_power_minimum_length s raw xs low high fs factor order sos s1 :
  holds s raw (Float64 xs) -> (2 <= factor)%Z ->
  make_sos_filter order low high Bandpass (fs / factor)%Z
    (push s (Float64 (decimated_values xs factor))) = (Ok sos, s1) ->
  validate_sos sos = true ->
  is_ok (fst (get_band_power raw low high fs factor order s)) = true <->
  (factor * Z.of_nat (sos_padlen sos) < Z.of_nat (length xs))%Z.
Proof.
  intros Hx Hq Hm Hv.
  erewrite get_band_power_run; [|exact Hx|exact Hq]. cbv zeta.
  rewrite Hm, Hv. cbn [negb orb].
  assert (Hlen : length (decimated_values xs factor)
                 = resample_n_out (length xs) factor).
  { unfold decimated_values. apply resample_poly_length. lia. }
  rewrite Hlen.
  rewrite <- (resample_n_out_gt (length xs) (sos_padlen sos) (q := factor)) by lia.
  destruct (Nat.leb_spec (resample_n_out (length xs) factor) (sos_padlen sos));
    cbn [fst is_ok]; split; intros H0; try lia; try discriminate; reflexivity.
Qed.

End BandPowerDomain.

(* ================================================================= *)
(** * When the motion derivative returns *)

Section SpeedDomain.
Context {K : NumKernels} {KL : KernelLaws K}.
Local Open Scope float_scope.

(** With matching lengths and two samples the gradient exists. *)
Lemma gradient_values_ok f x :
  length x = length f -> (2 <= length f)%nat ->
  exists d, gradient_values f x = Ok d.
Proof.
  intros E Hf. unfold gradient_values.
  rewrite E, Nat.eqb_refl. cbn [negb].
  destruct (np_diff x) as [|d0 ds] eqn:Hd.
  - apply (f_equal (@length _)) in Hd. rewrite np_diff_length in Hd.
    cbn in Hd. lia.
  - destruct (Nat.ltb_spec (length f) 2); [lia|]. eauto.
Qed.

(** X6.  When [speed] returns, on a real array.  A [factor] of 0 and a
    decimated rate [fs / factor] of zero raise ZeroDivisionError, after
    the decimation, which does not use [factor]; with a nonzero rate,
    [speed] returns exactly when the accelerometer signal has at least 17
    samples, two after the decimation by 16. *)
Theorem speed_returns_iff s acc xs factor fs :
  holds s acc (Float64 xs) ->
  (factor = 0%Z ->
   speed acc factor fs s
     = (Raise ZeroDivisionError,
        push s (Float64 (decimated_values xs default_factor)))) /\
  (forall dwn_fs,
     int_truediv fs factor = Ok dwn_fs -> (dwn_fs =? 0) = true ->
     speed acc factor fs s
       = (Raise ZeroDivisionError,
          push s (Float64 (decimated_values xs default_factor)))) /\
  (forall dwn_fs,
     int_truediv fs factor = Ok dwn_fs -> (dwn_fs =? 0) = false ->
     (is_ok (fst (speed acc factor fs s)) = true <-> (17 <= length xs)%nat)).
Proof.
  intros Hx. rewrite (speed_run factor fs Hx). cbv zeta. split; [|split].
  - intros ->. reflexivity.
  - intros dwn_fs -> Hz. now rewrite Hz.
  - intros dwn_fs -> Hz. rewrite Hz.
    assert (Hlen : length (decimated_values xs default_factor)
                   = resample_n_out (length xs) 16).
    { unfold decimated_values. apply resample_poly_length.
      unfold default_factor. lia. }
    pose proof (resample_n_out_gt (length xs) 1 (q := 16) ltac:(lia)) as Hgt.
    destruct (gradient_values _ _) as [d|e] eqn:Hg; cbn [fst is_ok].
    + apply gradient_values_length in Hg. destruct Hg as [_ Hg].
      rewrite Hlen in Hg. split; [intros _|reflexivity].
      apply Hgt in Hg. lia.
    + split; [discriminate|]. intros Hn. exfalso.
      destruct (gradient_values_ok
                  (decimated_values xs default_factor)
                  (time_axis (length (decimated_values xs default_factor)) dwn_fs))
        as [d Hd].
      * apply linspace_values_length.
      * rewrite Hlen. apply Hgt. lia.
      * rewrite Hd in Hg. discriminate Hg.
Qed.

End SpeedDomain.

(* ================================================================= *)
(** * The two outputs have the lengths of the decimated inputs *)

Section Alignment.
Context {K : NumKernels} {KL : KernelLaws K}.
Local Open Scope float_scope.

(** When [delta_theta] returns, both band powers have been computed from
    a real array, and the result is the last of the three arrays lines 47
    and 48 create. *)
Lemma delta_theta_inv lfp ld hd lt ht fs s r s' :
  delta_theta lfp ld hd lt ht fs s = (Ok r, s') ->
  exists xs tp s1 dp s2 tpv dpv,
    holds s lfp (Float64 xs) /\
    get_band_power lfp lt ht fs default_factor default_order s = (Ok tp, s1) /\
    get_band_power lfp ld hd fs default_factor default_order s1 = (Ok dp, s2) /\
    holds s2 tp (Float64 tpv) /\ holds s2 dp (Float64 dpv) /\
    length tpv = resample_n_out (length xs) default_factor /\
    length dpv = length tpv /\
    r = (length (heap s2) + 2)%nat /\ s' = ratio_store s2 tpv dpv.
Proof.
  intros H. pose proof H as H0. unfold delta_theta in H0.
  apply bind_inv_ok in H0. destruct H0 as (tp & s1 & Ht & H0).
  apply bind_inv_ok in H0. destruct H0 as (dp & s2 & Hd & _).
  destruct (band_powers_same_length _ _ _ _ _ _ _ _ Ht Hd)
    as (tpv & dpv & Htp & Hdp & Hlen).
  edestruct delta_theta_run as [_ Hrun];
    [exact Ht | exact Hd | exact Htp | exact Hdp | ].
  rewrite Hrun in H. inversion H; subst.
  pose proof (frame_get_band_power lfp ld hd fs default_factor default_order s1) as Fr.
  rewrite Hd in Fr. cbn [snd] in Fr.
  pose proof Ht as Hi. apply get_band_power_inv in Hi.
  destruct Hi as (xs & sos & sa & Hx & _ & Hm & _ & _ & -> & ->).
  apply make_sos_filter_heap in Hm.
  assert (Htp' : holds (band_power_store sa sos (decimated_values xs default_factor))
                   (length (heap s) + 4)%nat
                   (Float64 (band_power_values sos (decimated_values xs default_factor)))).
  { replace (length (heap s) + 4)%nat with (length (heap sa) + 3)%nat.
    - apply holds_band_power_store.
    - rewrite Hm, length_heap_push. lia. }
  pose proof (holds_inj Htp (extends_holds Fr Htp')) as E. inversion E; subst tpv.
  exists xs, (length (heap s) + 4)%nat,
    (band_power_store sa sos (decimated_values xs default_factor)), dp, s2,
    (band_power_values sos (decimated_values xs default_factor)), dpv.
  repeat split; auto.
  rewrite band_power_values_length. unfold decimated_values.
  apply resample_poly_length. unfold default_factor. lia.
Qed.

(** X7.  Alignment of the two outputs: when [is_sleeping] returns, the
    ratio has one sample for every 16 samples of the LFP, the motion one
    for every 16 samples of the accelerometer (the last group may be
    shorter), so that inputs of one length give outputs of one length. *)
Theorem is_sleeping_output_lengths lfp acc ld hd lt ht fs s xl xa ratio motion s' :
  holds s lfp (Float64 xl) -> holds s acc (Float64 xa) ->
  is_sleeping lfp acc ld hd lt ht fs s = (Ok (ratio, motion), s') ->
  exists rv mv,
    holds s' ratio (Float64 rv) /\ holds s' motion (Float64 mv) /\
    length rv = resample_n_out (length xl) 16 /\
    length mv = resample_n_out (length xa) 16 /\
    (length xl = length xa -> length rv = length mv).
Proof.
  intros Hl Ha H. unfold is_sleeping in H.
  apply bind_inv_ok in H. destruct H as (r & s1 & Hr & H).
  apply bind_inv_ok in H. destruct H as (m & s2 & Hm & H).
  unfold ret in H. inversion H; subst. clear H.
  pose proof (frame_delta_theta lfp ld hd lt ht fs s) as Fr1.
  rewrite Hr in Fr1. cbn [snd] in Fr1.
  pose proof (frame_speed acc default_factor fs s1) as Fr2.
  rewrite Hm in Fr2. cbn [snd] in Fr2.
  apply delta_theta_inv in Hr.
  destruct Hr as (xs & tp & sa & dp & sb & tpv & dpv & Hx & _ & _ & _ & _
                  & Htl & Hdl & -> & ->).
  pose proof (holds_inj Hl Hx) as E. inversion E; subst xs. clear E.
  pose proof (extends_holds Fr1 Ha) as Ha1.
  rewrite (speed_run default_factor fs Ha1) in Hm. cbv zeta in Hm.
  destruct (int_truediv fs default_factor) as [dwn_fs|e]; [|discriminate Hm].
  destruct (dwn_fs =? 0); [discriminate Hm|].
  destruct (gradient_values _ _) as [mv|e] eqn:Hg; [|discriminate Hm].
  inversion Hm; subst. clear Hm.
  apply gradient_values_length in Hg. destruct Hg as [Hg _].
  assert (Hrl : length (map2 div (zscore_values tpv) (zscore_values dpv))
                = resample_n_out (length xl) 16).
  { rewrite map2_length, !zscore_values_length, Hdl, Htl.
    unfold default_factor. lia. }
  assert (Hml : length mv = resample_n_out (length xa) 16).
  { rewrite Hg. unfold decimated_values. apply resample_poly_length.
    unfold default_factor. lia. }
  exists (map2 div (zscore_values tpv) (zscore_values dpv)), mv.
  split; [|split; [|split; [exact Hrl|split; [exact Hml|]]]].
  - apply (extends_holds Fr2). apply holds_ratio_store.
  - apply holds_push3_third.
  - intros E. now rewrite Hrl, Hml, E.
Qed.

End Alignment.

(* ================================================================= *)
(** * Calling again *)

Lemma SFeqb_sym x y : SFeqb x y = SFeqb y x.
Proof.
  unfold SFeqb, SFcompare.
  destruct x as [sx|sx| |sx mx ex], y as [sy|sy| |sy my ey];
    try reflexivity; try (destruct sx; reflexivity); try (destruct sy; reflexivity);
    try (destruct sx, sy; reflexivity).
  change (Pos.compare_cont Eq my mx) with (my ?= mx)%positive.
  change (Pos.compare_cont Eq mx my) with (mx ?= my)%positive.
  rewrite (Z.compare_antisym ex ey), (Pos.compare_antisym mx my).
  destruct sx, sy; try reflexivity;
    destruct (ex ?= ey)%Z; cbn; try reflexivity;
    destruct (mx ?= my)%positive; reflexivity.
Qed.

Lemma float_eqb_sym (x y : float) : (x =? y)%float = (y =? x)%float.
Proof. rewrite !eqb_spec. apply SFeqb_sym. Qed.

Lemma key_eqb_sym k1 k2 : key_eqb k1 k2 = key_eqb k2 k1.
Proof.
  unfold key_eqb.
  rewrite (Z.eqb_sym (k_order k1)), (Z.eqb_sym (k_fs k1)).
  rewrite (float_eqb_sym (k_low k1)), (float_eqb_sym (k_high k1)).
  now destruct (k_btype k1), (k_btype k2).
Qed.

(** The two filters of one [delta_theta] are both found again, first the
    theta filter, then the delta filter, in the cache two designs in
    that order have left. *)
Lemma cache_find_two_rounds kt kd st sd rest cb :
  key_eqb kt kt = true -> key_eqb kd kd = true ->
  (cache_find kd ((kt, st) :: rest) = Some sd /\
   cb = (kd, sd) :: cache_remove kd ((kt, st) :: rest)
   \/
   cache_find kd ((kt, st) :: rest) = None /\
   cb = firstn 128 ((kd, sd) :: (kt, st) :: rest)) ->
  cache_find kt cb = Some st /\
  cache_find kd ((kt, st) :: cache_remove kt cb) = Some sd.
Proof.
  intros Ht Hd H.
  pose proof (key_eqb_sym kd kt) as Hsym.
  destruct (key_eqb kd kt) eqn:E.
  - destruct H as [[Hf ->]|[Hf _]]; cbn [cache_find] in Hf; rewrite E in Hf;
      [|discriminate Hf].
    inversion Hf; subst sd. cbn [cache_find]. rewrite <- Hsym, E. now split.
  - assert (Hcb : exists rb, cb = (kd, sd) :: (kt, st) :: rb).
    { destruct H as [[_ ->]|[_ ->]].
      - unfold cache_remove. cbn [filter fst]. rewrite E. cbn [negb]. eauto.
      - cbn [firstn]. eauto. }
    destruct Hcb as [rb ->]. cbn [cache_find]. rewrite <- Hsym, Ht. split; [reflexivity|].
    rewrite E. unfold cache_remove. cbn [filter fst]. rewrite <- Hsym. cbn [negb].
    cbn [cache_find]. now rewrite Hd.
Qed.

Section Again.
Context {K : NumKernels} {KL : KernelLaws K}.
Local Open Scope float_scope.

Lemma make_sos_filter_cases order low high bt fs s sos s1 :
  make_sos_filter order low high bt fs s = (Ok sos, s1) ->
  heap s1 = heap s /\
  (cache_find (mkKey order low high bt fs) (sos_cache s) = Some sos /\
   sos_cache s1
     = (mkKey order low high bt fs, sos)
       :: cache_remove (mkKey order low high bt fs) (sos_cache s)
   \/
   cache_find (mkKey order low high bt fs) (sos_cache s) = None /\
   sos_cache s1 = firstn 128 ((mkKey order low high bt fs, sos) :: sos_cache s)).
Proof.
  intros H. split; [now apply make_sos_filter_heap in H|].
  unfold make_sos_filter, lru_cache in H.
  destruct (cache_find _ (sos_cache s)) as [c|].
  - inversion H; subst. left. now split.
  - destruct (butter order [low; high] bt fs) as [c|e]; inversion H; subst.
    right. now split.
Qed.

Lemma make_sos_filter_found order low high bt fs s sos :
  cache_find (mkKey order low high bt fs) (sos_cache s) = Some sos ->
  make_sos_filter order low high bt fs s
    = (Ok sos, {| heap := heap s;
                  sos_cache := (mkKey order low high bt fs, sos)
                               :: cache_remove (mkKey order low high bt fs)
                                    (sos_cache s) |}).
Proof. intros H. unfold make_sos_filter, lru_cache. now rewrite H. Qed.

(** [get_band_power] with its filter in the cache. *)
Lemma get_band_power_found raw low high fs factor order s xs sos :
  holds s raw (Float64 xs) -> (2 <= factor)%Z ->
  cache_find (mkKey order low high Bandpass (fs / factor)%Z) (sos_cache s) = Some sos ->
  validate_sos sos = true ->
  (sos_padlen sos < length (decimated_values xs factor))%nat ->
  exists s1,
    get_band_power raw low high fs factor order s
      = (Ok (length (heap s) + 4)%nat,
         band_power_store s1 sos (decimated_values xs factor)) /\
    heap s1 = heap s ++ [Float64 (decimated_values xs factor)] /\
    sos_cache s1
      = (mkKey order low high Bandpass (fs / factor)%Z, sos)
        :: cache_remove (mkKey order low high Bandpass (fs / factor)%Z) (sos_cache s).
Proof.
  intros Hx Hq Hf Hv Hlen.
  erewrite get_band_power_run; [|exact Hx|exact Hq]. cbv zeta.
  erewrite make_sos_filter_found; [|exact Hf]. rewrite Hv. cbn [negb orb].
  destruct (Nat.leb_spec (length (decimated_values xs factor)) (sos_padlen sos));
    [lia|].
  eexists. split; [reflexivity|]. now split.
Qed.

(** The band powers a returning [delta_theta] has computed, and the
    cache it leaves. *)
Lemma delta_theta_filters lfp ld hd lt ht fs s r s' :
  delta_theta lfp ld hd lt ht fs s = (Ok r, s') ->
  exists xs st sd rest,
    holds s lfp (Float64 xs) /\
    validate_sos st = true /\ validate_sos sd = true /\
    (sos_padlen st < length (decimated_values xs default_factor))%nat /\
    (sos_padlen sd < length (decimated_values xs default_factor))%nat /\
    (cache_find (mkKey default_order ld hd Bandpass (fs / default_factor)%Z)
       ((mkKey default_order lt ht Bandpass (fs / default_factor)%Z, st) :: rest)
       = Some sd /\
     sos_cache s'
       = (mkKey default_order ld hd Bandpass (fs / default_factor)%Z, sd)
         :: cache_remove (mkKey default_order ld hd Bandpass (fs / default_factor)%Z)
              ((mkKey default_order lt ht Bandpass (fs / default_factor)%Z, st) :: rest)
     \/
     cache_find (mkKey default_order ld hd Bandpass (fs / default_factor)%Z)
       ((mkKey default_order lt ht Bandpass (fs / default_factor)%Z, st) :: rest)
       = None /\
     sos_cache s'
       = firstn 128
           ((mkKey default_order ld hd Bandpass (fs / default_factor)%Z, sd)
            :: (mkKey default_order lt ht Bandpass (fs / default_factor)%Z, st)
            :: rest)) /\
    holds s' r
      (Float64 (map2 div
         (zscore_values (band_power_values st (decimated_values xs default_factor)))
         (zscore_values (band_power_values sd (decimated_values xs default_factor))))).
Proof.
  intros H. apply delta_theta_inv in H.
  destruct H as (xs & tp & s1 & dp & s2 & tpv & dpv & Hx & Ht & Hd & Htp & Hdp
                 & _ & _ & -> & ->).
  pose proof (frame_get_band_power lfp lt ht fs default_factor default_order s) as Fr1.
  rewrite Ht in Fr1. cbn [snd] in Fr1.
  pose proof (frame_get_band_power lfp ld hd fs default_factor default_order s1) as Fr2.
  rewrite Hd in Fr2. cbn [snd] in Fr2.
  apply get_band_power_inv in Ht.
  destruct Ht as (xs1 & st & sa & Hx1 & _ & Hma & Hva & Hla & -> & ->).
  pose proof (holds_inj Hx Hx1) as E. inversion E; subst xs1. clear E Hx1.
  apply get_band_power_inv in Hd.
  destruct Hd as (xs2 & sd & sb & Hx2 & _ & Hmb & Hvb & Hlb & -> & ->).
  pose proof (holds_inj (extends_holds Fr1 Hx) Hx2) as E. inversion E; subst xs2.
  clear E Hx2.
  pose proof Hma as Hca. apply make_sos_filter_cached in Hca. destruct Hca as [rest Hca].
  apply make_sos_filter_cases in Hmb. destruct Hmb as [Hhb Hcb].
  cbn [sos_cache push band_power_store] in Hcb. rewrite Hca in Hcb.
  apply make_sos_filter_heap in Hma.
  exists xs, st, sd, rest.
  split; [exact Hx|]. split; [exact Hva|]. split; [exact Hvb|].
  split; [exact Hla|]. split; [exact Hlb|]. split; [exact Hcb|].
  assert (E1 : tpv = band_power_values st (decimated_values xs default_factor)).
  { assert (Ht' : holds (band_power_store sa st (decimated_values xs default_factor))
                    (length (heap s) + 4)%nat
                    (Float64 (band_power_values st (decimated_values xs default_factor)))).
    { replace (length (heap s) + 4)%nat with (length (heap sa) + 3)%nat.
      - apply holds_band_power_store.
      - rewrite Hma, length_heap_push. lia. }
    pose proof (holds_inj Htp (extends_holds Fr2 Ht')) as E. now inversion E. }
  assert (E2 : dpv = band_power_values sd (decimated_values xs default_factor)).
  { assert (Hd' : holds (band_power_store sb sd (decimated_values xs default_factor))
                    (length (heap (band_power_store sa st
                                     (decimated_values xs default_factor))) + 4)%nat
                    (Float64 (band_power_values sd (decimated_values xs default_factor)))).
    { match goal with |- holds _ ?l _ =>
        replace l with (length (heap sb) + 3)%nat end.
      - apply holds_band_power_store.
      - rewrite Hhb, length_heap_push. lia. }
    pose proof (holds_inj Hdp Hd') as E. now inversion E. }
  subst tpv dpv. apply holds_ratio_store.
Qed.

(** A returning [delta_theta] returns again, from any later state with
    the same cache, and with the same samples. *)
Lemma delta_theta_again lfp ld hd lt ht fs s r s1 s1' :
  is_nan ld = false -> is_nan hd = false ->
  is_nan lt = false -> is_nan ht = false ->
  delta_theta lfp ld hd lt ht fs s = (Ok r, s1) ->
  extends s s1' -> sos_cache s1' = sos_cache s1 ->
  exists r' s2 rv,
    delta_theta lfp ld hd lt ht fs s1' = (Ok r', s2) /\
    holds s1 r (Float64 rv) /\ holds s2 r' (Float64 rv).
Proof.
  intros Hld Hhd Hlt Hht H Hext Hc.
  apply delta_theta_filters in H.
  destruct H as (xs & st & sd & rest & Hx & Hvt & Hvd & Hpt & Hpd & Hcases & Hr).
  set (kt := mkKey default_order lt ht Bandpass (fs / default_factor)%Z) in *.
  set (kd := mkKey default_order ld hd Bandpass (fs / default_factor)%Z) in *.
  assert (Hkt : key_eqb kt kt = true) by now apply key_eqb_refl.
  assert (Hkd : key_eqb kd kd = true) by now apply key_eqb_refl.
  destruct (cache_find_two_rounds (cb := sos_cache s1) Hkt Hkd Hcases) as [F1 F2].
  assert (H16 : (2 <= default_factor)%Z) by (unfold default_factor; lia).
  pose proof (extends_holds Hext Hx) as Hx'.
  rewrite <- Hc in F1, F2.
  destruct (get_band_power_found lt ht fs default_order Hx' H16 F1 Hvt Hpt)
    as (sa & Hta & Hha & Hca).
  assert (Hxa : holds (band_power_store sa st (decimated_values xs default_factor))
                  lfp (Float64 xs)).
  { pose proof (frame_get_band_power lfp lt ht fs default_factor default_order s1') as Fr.
    rewrite Hta in Fr. cbn [snd] in Fr. exact (extends_holds Fr Hx'). }
  assert (F2' : cache_find kd
                  (sos_cache (band_power_store sa st
                                (decimated_values xs default_factor))) = Some sd).
  { cbn [band_power_store sos_cache push]. rewrite Hca. exact F2. }
  destruct (get_band_power_found ld hd fs default_order Hxa H16 F2' Hvd Hpd)
    as (sb & Htb & Hhb & Hcb).
  assert (Htp : holds (band_power_store sb sd (decimated_values xs default_factor))
                  (length (heap s1') + 4)%nat
                  (Float64 (band_power_values st (decimated_values xs default_factor)))).
  { pose proof (frame_get_band_power lfp ld hd fs default_factor default_order
                  (band_power_store sa st (decimated_values xs default_factor))) as Fr.
    rewrite Htb in Fr. cbn [snd] in Fr. apply (extends_holds Fr).
    replace (length (heap s1') + 4)%nat with (length (heap sa) + 3)%nat.
    - apply holds_band_power_store.
    - rewrite Hha, length_app. cbn. lia. }
  assert (Hdp : holds (band_power_store sb sd (decimated_values xs default_factor))
                  (length (heap (band_power_store sa st
                                   (decimated_values xs default_factor))) + 4)%nat
                  (Float64 (band_power_values sd (decimated_values xs default_factor)))).
  { match goal with |- holds _ ?l _ =>
      replace l with (length (heap sb) + 3)%nat end.
    - apply holds_band_power_store.
    - rewrite Hhb, length_app. cbn. lia. }
  edestruct delta_theta_run as [_ Hrun];
    [exact Hta | exact Htb | exact Htp | exact Hdp | ].
  eexists. eexists. eexists. split; [exact Hrun|]. split; [exact Hr|].
  apply holds_ratio_store.
Qed.

(** X8.  Calling [is_sleeping] again: after a call that returned, a
    second call on the same inputs returns as well, and its ratio and
    motion arrays hold the samples of the first call's. *)
Theorem is_sleeping_again lfp acc ld hd lt ht fs s ratio motion s1 :
  is_nan ld = false -> is_nan hd = false ->
  is_nan lt = false -> is_nan ht = false ->
  is_sleeping lfp acc ld hd lt ht fs s = (Ok (ratio, motion), s1) ->
  exists ratio' motion' s2 rv mv,
    is_sleeping lfp acc ld hd lt ht fs s1 = (Ok (ratio', motion'), s2) /\
    holds s1 ratio (Float64 rv) /\ holds s2 ratio' (Float64 rv) /\
    holds s1 motion (Float64 mv) /\ holds s2 motion' (Float64 mv).
Proof.
  intros Hld Hhd Hlt Hht H. unfold is_sleeping in H.
  apply bind_inv_ok in H. destruct H as (r & sA & Hr & H).
  apply bind_inv_ok in H. destruct H as (m & sB & Hm & H).
  unfold ret in H. inversion H; subst. clear H.
  pose proof (frame_delta_theta lfp ld hd lt ht fs s) as Fr1.
  rewrite Hr in Fr1. cbn [snd] in Fr1.
  pose proof (frame_speed acc default_factor fs sA) as Fr2.
  rewrite Hm in Fr2. cbn [snd] in Fr2.
  pose proof (cache_stable_speed acc default_factor fs sA) as Hc.
  rewrite Hm in Hc. cbn [snd] in Hc.
  edestruct delta_theta_again as (r' & sC & rv & Hr' & Hrv & Hrv');
    [exact Hld | exact Hhd | exact Hlt | exact Hht | exact Hr
    | exact (extends_trans Fr1 Fr2) | exact Hc | ].
  pose proof Hm as Hm0. unfold speed in Hm0. apply bind_inv_ok in Hm0.
  destruct Hm0 as (l & sD & Hd & _). apply downsample_inv in Hd.
  destruct Hd as (xa & q & Ha & _).
  rewrite (speed_run default_factor fs Ha) in Hm. cbv zeta in Hm.
  pose proof (frame_delta_theta lfp ld hd lt ht fs s1) as Fr3.
  rewrite Hr' in Fr3. cbn [snd] in Fr3.
  pose proof (extends_holds Fr3 (extends_holds Fr2 Ha)) as Ha'.
  pose proof (speed_run default_factor fs Ha') as Hm'. cbv zeta in Hm'.
  destruct (int_truediv fs default_factor) as [dwn_fs|e]; [|discriminate Hm].
  destruct (dwn_fs =? 0); [discriminate Hm|].
  destruct (gradient_values _ _) as [mv|e]; [|discriminate Hm].
  inversion Hm; subst. clear Hm.
  exists r', (length (heap sC) + 2)%nat. eexists. exists rv, mv.
  split; [|split; [|split; [|split]]].
  - unfold is_sleeping. rewrite (bind_ok _ _ _ Hr'), (bind_ok _ _ _ Hm'). reflexivity.
  - exact (extends_holds Fr2 Hrv).
  - apply (extends_holds (s := sC)); [|exact Hrv'].
    repeat (eapply extends_trans; [|apply extends_push]). apply extends_refl.
  - apply holds_push3_third.
  - apply holds_push3_third.
Qed.

(** X9.  One band given for both theta and delta: the second filter is
    the first one, found in the cache, both band powers hold the same
    samples, and the ratio is the quotient of one z-score by itself. *)
Theorem delta_theta_same_band lfp low high fs s r s' :
  is_nan low = false -> is_nan high = false ->
  delta_theta lfp low high low high fs s = (Ok r, s') ->
  exists xs sos,
    holds s lfp (Float64 xs) /\
    cache_find (mkKey default_order low high Bandpass (fs / default_factor)%Z)
      (sos_cache s') = Some sos /\
    holds s' r
      (Float64 (map2 div
         (zscore_values (band_power_values sos (decimated_values xs default_factor)))
         (zscore_values (band_power_values sos (decimated_values xs default_factor))))).
Proof.
  intros Hl Hh H. apply delta_theta_filters in H.
  destruct H as (xs & st & sd & rest & Hx & _ & _ & _ & _ & Hcases & Hr).
  assert (Hk : key_eqb (mkKey default_order low high Bandpass (fs / default_factor)%Z)
                 (mkKey default_order low high Bandpass (fs / default_factor)%Z) = true)
    by now apply key_eqb_refl.
  cbn [cache_find] in Hcases. rewrite Hk in Hcases.
  destruct Hcases as [[E Hc]|[E _]]; [|discriminate E].
  inversion E; subst sd. exists xs, st.
  split; [exact Hx|]. split; [|exact Hr].
  rewrite Hc. cbn [cache_find]. now rewrite Hk.
Qed.

End Again.

(* ================================================================= *)
(** * Closed examples for the cache, the domains and the repeated call *)

Section PipelineExamples.
#[local] Existing Instance Reference.kernels.
Import Reference Examples.

(** The theta filter designed once is returned again under kernels whose
    design refuses every band. *)
Lemma make_sos_filter_hit_witness :
  fst (@make_sos_filter no_design 4 low_theta high_theta Bandpass 1250
         (snd (make_sos_filter 4 low_theta high_theta Bandpass 1250 (initial zeros448))))
    = Ok (repeat identity_section 4) /\
  heap (snd (@make_sos_filter no_design 4 low_theta high_theta Bandpass 1250
               (snd (make_sos_filter 4 low_theta high_theta Bandpass 1250
                       (initial zeros448)))))
    = heap (snd (make_sos_filter 4 low_theta high_theta Bandpass 1250 (initial zeros448))) /\
  length (sos_cache
            (snd (@make_sos_filter no_design 4 low_theta high_theta Bandpass 1250
                    (snd (make_sos_filter 4 low_theta high_theta Bandpass 1250
                            (initial zeros448))))))
    <= length (sos_cache (snd (make_sos_filter 4 low_theta high_theta Bandpass 1250
                                 (initial zeros448)))).
Proof.
  exact (@make_sos_filter_hit kernels no_design 4 low_theta high_theta Bandpass 1250
           (initial zeros448) (repeat identity_section 4) _ eq_refl eq_refl eq_refl).
Defined.

(** From the empty cache, a run of [is_sleeping] leaves a cache within
    the invariant. *)
Lemma filter_cache_invariant_witness :
  cache_inv (snd (is_sleeping 0 1 low_delta high_delta low_theta high_theta 20000
                    (initial2 ramp448 zeros448))).
Proof.
  apply (proj1 (proj2 (proj2 (proj2 (proj2 (@filter_cache_invariant kernels)))))).
  split; [cbn; lia | constructor].
Defined.

(** An order-4 low-pass design of the reference kernels has two sections
    and asks for more than 15 samples. *)
Lemma lowpass_uncached_witness :
  sos_cache (snd (lowpass 0 high_theta 1250 4 (initial (repeat 0%float 16)))) = [] /\
  (exists ys,
     lowpass 0 high_theta 1250 4 (initial (repeat 0%float 16))
       = (Ok 1, push (initial (repeat 0%float 16)) (Float64 ys)) /\
     length ys = 16) /\
  lowpass 0 high_theta 1250 4 (initial (repeat 0%float 15))
    = (Raise ValueError, initial (repeat 0%float 15)).
Proof.
  split; [|split].
  - exact (proj1 (@lowpass_uncached kernels reference_laws
                    (initial (repeat 0%float 16)) 0 (repeat 0%float 16)
                    high_theta 1250 4 eq_refl)).
  - apply (proj2 (proj2 (@lowpass_uncached kernels reference_laws
                    (initial (repeat 0%float 16)) 0 (repeat 0%float 16)
                    high_theta 1250 4 eq_refl)) (repeat identity_section 2) eq_refl).
    + vm_compute. lia.
    + reflexivity.
  - apply (proj2 (proj2 (@lowpass_uncached kernels reference_laws
                    (initial (repeat 0%float 15)) 0 (repeat 0%float 15)
                    high_theta 1250 4 eq_refl)) (repeat identity_section 2) eq_refl).
    vm_compute. lia.
Defined.

(** A factor of 1, a negative lower band edge, and 432 samples. *)
Lemma get_band_power_failures_witness :
  (raises (fst (get_band_power 0 low_theta high_theta 20000 1 4 (initial zeros448))) /\
   snd (get_band_power 0 low_theta high_theta 20000 1 4 (initial zeros448))
     = initial zeros448) /\
  get_band_power 0 (-1)%float high_theta 20000 16 4 (initial zeros448)
    = (Raise ValueError,
       push (initial zeros448) (Float64 (decimated_values zeros448 16))) /\
  (get_band_power 0 low_theta high_theta 20000 16 4 (initial zeros432)
     = (Raise ValueError,
        snd (make_sos_filter 4 low_theta high_theta Bandpass 1250
               (push (initial zeros432) (Float64 (decimated_values zeros432 16))))) /\
   exists rest,
     sos_cache (snd (make_sos_filter 4 low_theta high_theta Bandpass 1250
                       (push (initial zeros432) (Float64 (decimated_values zeros432 16)))))
     = (mkKey 4 low_theta high_theta Bandpass (20000 / 16), repeat identity_section 4)
       :: rest).
Proof.
  split; [|split].
  - apply (proj1 (@get_band_power_failures kernels reference_laws
                    (initial zeros448) 0 zeros448 low_theta high_theta 20000 1 4
                    eq_refl)).
    lia.
  - apply (proj1 (proj2 (@get_band_power_failures kernels reference_laws
                    (initial zeros448) 0 zeros448 (-1)%float high_theta 20000 16 4
                    eq_refl))); [lia | reflexivity | reflexivity].
  - apply (proj2 (proj2 (@get_band_power_failures kernels reference_laws
                    (initial zeros432) 0 zeros432 low_theta high_theta 20000 16 4
                    eq_refl))); [lia | reflexivity | vm_compute; lia].
Defined.

(** 433 samples are the fewest the band power of the defaults takes. *)
Lemma get_band_power_minimum_length_witness :
  is_ok (fst (get_band_power 0 low_theta high_theta 20000 16 4 (initial zeros433))) = true
  <-> (16 * Z.of_nat (sos_padlen (repeat identity_section 4))
       < Z.of_nat (length zeros433))%Z.
Proof.
  exact (@get_band_power_minimum_length kernels reference_laws
           (initial zeros433) 0 zeros433 low_theta high_theta 20000 16 4
           (repeat identity_section 4) _ eq_refl ltac:(lia) eq_refl eq_refl).
Defined.

(** 17 samples are the fewest [speed] takes; a factor of 0 raises after
    the decimation. *)
Lemma speed_returns_iff_witness :
  speed 0 0 20000 (initial ones17)
    = (Raise ZeroDivisionError,
       push (initial ones17) (Float64 (decimated_values ones17 default_factor))) /\
  (is_ok (fst (speed 0 16 20000 (initial ones17))) = true <-> 17 <= length ones17).
Proof.
  split.
  - exact (proj1 (@speed_returns_iff kernels reference_laws
                    (initial ones17) 0 ones17 0 20000 eq_refl) eq_refl).
  - exact (proj2 (proj2 (@speed_returns_iff kernels reference_laws
                    (initial ones17) 0 ones17 16 20000 eq_refl))
             1250%float eq_refl eq_refl).
Defined.

(** Two inputs of 448 samples: 28 samples of ratio, 28 of motion. *)
Lemma is_sleeping_output_lengths_witness :
  exists rv mv,
    holds (snd (is_sleeping 0 1 low_delta high_delta low_theta high_theta 20000
                  (initial2 ramp448 zeros448))) 14 (Float64 rv) /\
    holds (snd (is_sleeping 0 1 low_delta high_delta low_theta high_theta 20000
                  (initial2 ramp448 zeros448))) 17 (Float64 mv) /\
    length rv = resample_n_out (length ramp448) 16 /\
    length mv = resample_n_out (length zeros448) 16 /\
    (length ramp448 = length zeros448 -> length rv = length mv).
Proof.
  exact (@is_sleeping_output_lengths kernels reference_laws
           0 1 low_delta high_delta low_theta high_theta 20000
           (initial2 ramp448 zeros448) ramp448 zeros448 14 17 _
           eq_refl eq_refl eq_refl).
Defined.

(** The second of two calls on the same two arrays. *)
Lemma is_sleeping_again_witness :
  exists ratio' motion' s2 rv mv,
    is_sleeping 0 1 low_delta high_delta low_theta high_theta 20000
      (snd (is_sleeping 0 1 low_delta high_delta low_theta high_theta 20000
              (initial2 ramp448 zeros448)))
      = (Ok (ratio', motion'), s2) /\
    holds (snd (is_sleeping 0 1 low_delta high_delta low_theta high_theta 20000
                  (initial2 ramp448 zeros448))) 14 (Float64 rv) /\
    holds s2 ratio' (Float64 rv) /\
    holds (snd (is_sleeping 0 1 low_delta high_delta low_theta high_theta 20000
                  (initial2 ramp448 zeros448))) 17 (Float64 mv) /\
    holds s2 motion' (Float64 mv).
Proof.
  exact (@is_sleeping_again kernels reference_laws
           0 1 low_delta high_delta low_theta high_theta 20000
           (initial2 ramp448 zeros448) 14 17 _
           eq_refl eq_refl eq_refl eq_refl eq_refl).
Defined.

(** The theta band given twice. *)
Lemma delta_theta_same_band_witness :
  exists xs sos,
    holds (initial ramp448) 0 (Float64 xs) /\
    cache_find (mkKey default_order low_theta high_theta Bandpass (20000 / default_factor))
      (sos_cache (snd (delta_theta 0 low_theta high_theta low_theta high_theta 20000
                         (initial ramp448)))) = Some sos /\
    holds (snd (delta_theta 0 low_theta high_theta low_theta high_theta 20000
                  (initial ramp448))) 13
      (Float64 (map2 PrimFloat.div
         (zscore_values (band_power_values sos (decimated_values xs default_factor)))
         (zscore_values (band_power_values sos (decimated_values xs default_factor))))).
Proof.
  exact (@delta_theta_same_band kernels reference_laws
           0 low_theta high_theta 20000 (initial ramp448) 13 _
           eq_refl eq_refl eq_refl).
Defined.

End PipelineExamples.

(* ================================================================= *)
(** * The fixture: generate_data *)

(** ** Slices and in-place updates on lists *)

Lemma py_slice_length {A} i j (xs : list A) :
  length (py_slice i j xs) = Nat.min (j - i) (length xs - i).
Proof. unfold py_slice. now rewrite length_firstn, length_skipn. Qed.

Lemma set_slice_length i (xs ws : list float) :
  length ws <= length xs - i -> length (set_slice i xs ws) = length xs.
Proof.
  intros H. unfold set_slice.
  rewrite !length_app, length_firstn, length_skipn. lia.
Qed.

Lemma set_slice_nth_before i (xs ws : list float) k d :
  k < i -> i <= length xs -> nth k (set_slice i xs ws) d = nth k xs d.
Proof.
  intros Hk Hi. unfold set_slice.
  rewrite app_nth1 by (rewrite length_firstn; lia).
  rewrite <- (firstn_skipn i xs) at 2.
  now rewrite app_nth1 by (rewrite length_firstn; lia).
Qed.

Lemma set_slice_nth_inside i (xs ws : list float) k d :
  i <= k < i + length ws -> i <= length xs ->
  nth k (set_slice i xs ws) d = nth (k - i) ws d.
Proof.
  intros Hk Hi. unfold set_slice.
  rewrite app_nth2 by (rewrite length_firstn; lia).
  rewrite length_firstn, Nat.min_l by lia.
  now rewrite app_nth1 by lia.
Qed.

Lemma set_slice_nth_after i (xs ws : list float) k d :
  i + length ws <= k -> i <= length xs ->
  nth k (set_slice i xs ws) d = nth k xs d.
Proof.
  intros Hk Hi. unfold set_slice.
  rewrite app_nth2 by (rewrite length_firstn; lia).
  rewrite length_firstn, Nat.min_l by lia.
  rewrite app_nth2 by lia.
  rewrite nth_skipn. f_equal. lia.
Qed.

Lemma update_length {A} j (P : list A) a : j < length P -> length (update j P a) = length P.
Proof.
  intros H. unfold update. rewrite length_app, length_firstn. cbn [length].
  rewrite length_skipn. lia.
Qed.

Lemma update_nth_error_same {A} j (P : list A) a :
  j < length P -> nth_error (update j P a) j = Some a.
Proof.
  intros H. unfold update.
  rewrite nth_error_app2 by (rewrite length_firstn; lia).
  rewrite length_firstn, Nat.min_l, Nat.sub_diag by lia. reflexivity.
Qed.

Lemma update_nth_error_other {A} j (P : list A) a k :
  k <> j -> j < length P -> nth_error (update j P a) k = nth_error P k.
Proof.
  intros Hk Hj. unfold update.
  destruct (Nat.lt_ge_cases k j) as [Hlt|Hge].
  - rewrite nth_error_app1 by (rewrite length_firstn; lia).
    now rewrite nth_error_firstn, (proj2 (Nat.ltb_lt _ _) Hlt).
  - rewrite nth_error_app2 by (rewrite length_firstn; lia).
    rewrite length_firstn, Nat.min_l by lia.
    destruct (k - j) as [|m] eqn:E; [lia|]. cbn [nth_error].
    rewrite nth_error_skipn. f_equal. lia.
Qed.

Lemma update_update {A} j (P : list A) a b :
  j < length P -> update j (update j P a) b = update j P b.
Proof.
  intros H. unfold update.
  rewrite firstn_app, firstn_firstn, Nat.min_id, length_firstn, Nat.min_l by lia.
  rewrite Nat.sub_diag. cbn [firstn]. rewrite app_nil_r. f_equal. f_equal.
  rewrite skipn_app, length_firstn, Nat.min_l by lia.
  rewrite skipn_all2 by (rewrite length_firstn; lia).
  replace (S j - j) with 1 by lia. reflexivity.
Qed.

(** ** The store under in-place updates *)

Lemma shape_init s : shape s s [] [].
Proof. split; [now rewrite !app_nil_r | reflexivity]. Qed.

Lemma shape_push_front s0 s P a :
  shape s0 s P [] -> shape s0 (push s a) (P ++ [a]) [].
Proof.
  intros [Hh Hc]. split; [|exact Hc].
  unfold push; cbn [heap]. rewrite Hh, !app_nil_r. now rewrite app_assoc.
Qed.

Lemma shape_push s0 s P Q a :
  shape s0 s P Q -> shape s0 (push s a) P (Q ++ [a]).
Proof.
  intros [Hh Hc]. split; [|exact Hc].
  unfold push; cbn [heap]. rewrite Hh. now rewrite <- !app_assoc.
Qed.

Lemma shape_length s0 s P Q :
  shape s0 s P Q -> length (heap s) = length (heap s0) + length P + length Q.
Proof. intros [Hh _]. rewrite Hh, !length_app. lia. Qed.

Lemma shape_holds s0 s P Q j a :
  shape s0 s P Q -> nth_error P j = Some a -> holds s (length (heap s0) + j) a.
Proof.
  intros [Hh _] Hj. unfold holds. rewrite Hh.
  rewrite nth_error_app2 by lia.
  replace (length (heap s0) + j - length (heap s0)) with j by lia.
  rewrite nth_error_app1; [exact Hj|].
  apply nth_error_Some. now rewrite Hj.
Qed.

Lemma shape_store s0 s P Q j a :
  shape s0 s P Q -> j < length P ->
  shape s0 (store s (length (heap s0) + j) a) (update j P a) Q.
Proof.
  intros [Hh Hc] Hj. split; [|exact Hc].
  unfold store, update; cbn [heap]. rewrite Hh.
  rewrite firstn_app_2.
  rewrite firstn_app, (proj2 (Nat.sub_0_le j (length P))) by lia.
  cbn [firstn]. rewrite app_nil_r.
  replace (S (length (heap s0) + j)) with (length (heap s0) + S j) by lia.
  rewrite skipn_app, skipn_all2 by lia.
  replace (length (heap s0) + S j - length (heap s0)) with (S j) by lia.
  rewrite skipn_app, (proj2 (Nat.sub_0_le (S j) (length P))) by lia.
  cbn [skipn app]. now rewrite <- !app_assoc.
Qed.

Lemma shape_extends s0 s P Q : shape s0 s P Q -> extends s0 s.
Proof. intros [Hh _]. now exists (P ++ Q). Qed.

Lemma shape_cache s0 s P Q : shape s0 s P Q -> sos_cache s = sos_cache s0.
Proof. now intros [_ Hc]. Qed.

Lemma write_run l a s :
  l < length (heap s) -> write l a s = (Ok tt, store s l a).
Proof.
  intros H. unfold write. now rewrite (proj2 (Nat.ltb_lt _ _) H).
Qed.

Lemma holds_length s l a : holds s l a -> l < length (heap s).
Proof. unfold holds. intros H. apply nth_error_Some. now rewrite H. Qed.

(** ** What the array operations of the fixture return *)

Lemma np_zeros_run n s :
  (0 <= n)%Z ->
  np_zeros n s = (Ok (length (heap s)), push s (Float64 (repeat 0%float (Z.to_nat n)))).
Proof.
  intros H. unfold np_zeros.
  now rewrite (proj2 (Z.ltb_ge _ _) H).
Qed.

Lemma broadcast_add_same xs ys :
  length xs = length ys -> broadcast_add xs ys = Ok (map2 PrimFloat.add xs ys).
Proof. intros H. unfold broadcast_add. now rewrite H, Nat.eqb_refl. Qed.

Lemma np_add_run s x y xs ys :
  holds s x (Float64 xs) -> holds s y (Float64 ys) -> length xs = length ys ->
  np_add x y s = (Ok (length (heap s)), push s (Float64 (map2 PrimFloat.add xs ys))).
Proof.
  intros Hx Hy Hl. unfold np_add.
  rewrite (bind_ok _ _ _ (read_real_holds Hx)).
  rewrite (bind_ok _ _ _ (read_real_holds Hy)).
  rewrite lift_bind, (broadcast_add_same _ _ Hl). reflexivity.
Qed.

Lemma np_scale_slice_run s c x i j xs :
  holds s x (Float64 xs) ->
  np_scale_slice c x i j s =
    (Ok (length (heap s)),
     push s (Float64 (map (fun v => c * v)%float (py_slice i j xs)))).
Proof.
  intros Hx. unfold np_scale_slice.
  now rewrite (bind_ok _ _ _ (read_real_holds Hx)).
Qed.

Lemma broadcast_to_same n ws : length ws = n -> broadcast_to n ws = Ok ws.
Proof. intros H. unfold broadcast_to. now rewrite H, Nat.eqb_refl. Qed.

Lemma iadd_slice_run s x i j w xs ws :
  holds s x (Float64 xs) -> holds s w (Float64 ws) ->
  length ws = length (py_slice i j xs) ->
  iadd_slice x i j w s =
    (Ok tt, store s x (Float64 (set_slice i xs
                                  (map2 PrimFloat.add (py_slice i j xs) ws)))).
Proof.
  intros Hx Hw Hl. unfold iadd_slice.
  rewrite (bind_ok _ _ _ (read_real_holds Hx)).
  rewrite (bind_ok _ _ _ (read_real_holds Hw)).
  rewrite lift_bind, (broadcast_to_same _ Hl).
  apply write_run. exact (holds_length Hx).
Qed.

Lemma setitem_slice_ok s x i j w xs ws ws' :
  holds s x (Float64 xs) -> holds s w (Float64 ws) ->
  broadcast_to
    (length (py_slice i (match j with Some j => j | None => length xs end) xs)) ws
    = Ok ws' ->
  setitem_slice x i j w s = (Ok tt, store s x (Float64 (set_slice i xs ws'))).
Proof.
  intros Hx Hw Hb. unfold setitem_slice.
  rewrite (bind_ok _ _ _ (read_real_holds Hx)).
  rewrite (bind_ok _ _ _ (read_real_holds Hw)).
  rewrite lift_bind, Hb.
  apply write_run. exact (holds_length Hx).
Qed.

Lemma setitem_slice_raise s x i j w xs ws e :
  holds s x (Float64 xs) -> holds s w (Float64 ws) ->
  broadcast_to
    (length (py_slice i (match j with Some j => j | None => length xs end) xs)) ws
    = Raise e ->
  setitem_slice x i j w s = (Raise e, s).
Proof.
  intros Hx Hw Hb. unfold setitem_slice.
  rewrite (bind_ok _ _ _ (read_real_holds Hx)).
  rewrite (bind_ok _ _ _ (read_real_holds Hw)).
  now rewrite lift_bind, Hb.
Qed.

Section FixtureRuns.
Context {F : FixtureKernels}.

Lemma np_sin_run s x xs :
  holds s x (Float64 xs) ->
  np_sin x s = (Ok (length (heap s)), push s (Float64 (map npy_sin xs))).
Proof.
  intros Hx. unfold np_sin.
  now rewrite (bind_ok _ _ _ (read_real_holds Hx)).
Qed.

Lemma sinusoid_length ts third xs f :
  length xs = length ts -> length (sinusoid ts third xs f) = length xs.
Proof.
  intros H. unfold sinusoid. apply set_slice_length.
  rewrite map2_length, !length_map, !py_slice_length. lia.
Qed.

(** One pass of a loop: two temporaries are created and the target is
    updated in place. *)
Lemma add_sinusoid_run s0 s P Q jx jt ts xs third f :
  shape s0 s P Q ->
  nth_error P jt = Some (Float64 ts) ->
  nth_error P jx = Some (Float64 xs) ->
  length xs = length ts ->
  exists Q',
    add_sinusoid (length (heap s0) + jx) (length (heap s0) + jt) third f s =
      (Ok tt,
       store (push (push s (Float64 (map (fun v => 2 * np_pi * f * v)%float
                                         (py_slice third (2 * third) ts))))
                   (Float64 (map npy_sin
                                 (map (fun v => 2 * np_pi * f * v)%float
                                      (py_slice third (2 * third) ts)))))
             (length (heap s0) + jx) (Float64 (sinusoid ts third xs f))) /\
    shape s0
      (store (push (push s (Float64 (map (fun v => 2 * np_pi * f * v)%float
                                         (py_slice third (2 * third) ts))))
                   (Float64 (map npy_sin
                                 (map (fun v => 2 * np_pi * f * v)%float
                                      (py_slice third (2 * third) ts)))))
             (length (heap s0) + jx) (Float64 (sinusoid ts third xs f)))
      (update jx P (Float64 (sinusoid ts third xs f))) Q' /\
    length Q' = length Q + 2.
Proof.
  intros Hs Ht Hx Hl.
  set (w := map (fun v => (2 * np_pi * f * v)%float) (py_slice third (2 * third) ts)).
  assert (Hht : holds s (length (heap s0) + jt) (Float64 ts))
    by (eapply shape_holds; eassumption).
  assert (Hhx : holds s (length (heap s0) + jx) (Float64 xs))
    by (eapply shape_holds; eassumption).
  exists ((Q ++ [Float64 w]) ++ [Float64 (map npy_sin w)]).
  split; [|split].
  - unfold add_sinusoid.
    rewrite (bind_ok _ _ _ (np_scale_slice_run _ _ _ Hht)). fold w.
    rewrite (bind_ok _ _ _ (np_sin_run (holds_push_new _ _))).
    apply iadd_slice_run.
    + apply holds_push_old, holds_push_old, Hhx.
    + apply holds_push_new.
    + unfold w. rewrite !length_map, !py_slice_length. lia.
  - apply shape_store.
    + apply shape_push, shape_push, Hs.
    + apply nth_error_Some. now rewrite Hx.
  - rewrite !length_app. cbn. lia.
Qed.

Lemma for_each_add_sinusoid s0 jx jt ts third fs :
  forall s P Q xs,
  shape s0 s P Q ->
  nth_error P jt = Some (Float64 ts) ->
  nth_error P jx = Some (Float64 xs) ->
  jt <> jx ->
  length xs = length ts ->
  exists s' Q',
    for_each fs (add_sinusoid (length (heap s0) + jx) (length (heap s0) + jt) third) s
      = (Ok tt, s') /\
    shape s0 s' (update jx P (Float64 (fold_left (sinusoid ts third) fs xs))) Q' /\
    length Q' = length Q + 2 * length fs.
Proof.
  induction fs as [|f fs IH]; intros s P Q xs Hs Ht Hx Hne Hl.
  - exists s, Q. cbn. split; [reflexivity|]. split; [|lia].
    replace (update jx P (Float64 xs)) with P; [exact Hs|].
    unfold update. rewrite <- (firstn_skipn jx P) at 1. f_equal.
    clear -Hx. revert P Hx. induction jx as [|j IHj]; intros [|p P] Hx; try discriminate.
    + now inversion Hx.
    + cbn in *. now apply IHj.
  - destruct (@add_sinusoid_run s0 s P Q jx jt ts xs third f Hs Ht Hx Hl)
      as (Q1 & Hrun & Hs1 & HQ1).
    assert (Hj : jx < length P) by (apply nth_error_Some; now rewrite Hx).
    edestruct (IH _ _ _ (sinusoid ts third xs f) Hs1) as (s' & Q' & Hrun' & Hs' & HQ').
    + now rewrite update_nth_error_other by auto.
    + now apply update_nth_error_same.
    + exact Hne.
    + rewrite sinusoid_length; auto.
    + exists s', Q'. split; [|split].
      * cbn [for_each]. rewrite (bind_ok _ _ _ Hrun). exact Hrun'.
      * cbn [fold_left]. now rewrite update_update in Hs'.
      * cbn [length]. lia.
Qed.

Lemma for_each_add_sinusoid_at s0 s P Q lx lt jx jt ts xs third fs :
  shape s0 s P Q ->
  lx = length (heap s0) + jx -> lt = length (heap s0) + jt ->
  nth_error P jt = Some (Float64 ts) ->
  nth_error P jx = Some (Float64 xs) ->
  jt <> jx ->
  length xs = length ts ->
  exists s' Q',
    for_each fs (add_sinusoid lx lt third) s = (Ok tt, s') /\
    shape s0 s' (update jx P (Float64 (fold_left (sinusoid ts third) fs xs))) Q' /\
    length Q' = length Q + 2 * length fs.
Proof.
  intros Hs -> ->. now apply for_each_add_sinusoid.
Qed.

End FixtureRuns.

(** ** Running generate_data *)

Section FixtureProgram.
Context {F : FixtureKernels} {FL : FixtureLaws F}.

Lemma gbind_ok {A B} (m : G A) (k : A -> G B) w a w1 :
  m w = (Ok a, w1) -> gbind m k w = k a w1.
Proof. intros H. unfold gbind. now rewrite H. Qed.

Lemma gbind_raise {A B} (m : G A) (k : A -> G B) w e w1 :
  m w = (Raise e, w1) -> gbind m k w = (Raise e, w1).
Proof. intros H. unfold gbind. now rewrite H. Qed.

Lemma np_run {A} (m : M A) g s r s' :
  m s = (r, s') -> np m (mkWorld g s) = (r, mkWorld g s').
Proof. intros H. unfold np; cbn [mem gen]. now rewrite H. Qed.

Lemma gen_normal_run mean scale size g s :
  negative_scale scale = false -> (0 <= size)%Z ->
  gen_normal mean scale size (mkWorld g s) =
    (Ok (length (heap s)),
     mkWorld (snd (random_normal g mean scale (Z.to_nat size)))
             (push s (Float64 (fst (random_normal g mean scale (Z.to_nat size)))))).
Proof.
  intros Hs Hn. unfold gen_normal; cbn [mem gen].
  rewrite Hs, (proj2 (Z.ltb_ge _ _) Hn).
  now destruct (random_normal g mean scale (Z.to_nat size)).
Qed.

Lemma gen_uniform_run low high size g s :
  (0 <= size)%Z ->
  gen_uniform low high size (mkWorld g s) =
    (Ok (length (heap s)),
     mkWorld (snd (random_uniform g low high (Z.to_nat size)))
             (push s (Float64 (fst (random_uniform g low high (Z.to_nat size)))))).
Proof.
  intros Hn. unfold gen_uniform; cbn [mem gen].
  rewrite (proj2 (Z.ltb_ge _ _) Hn).
  now destruct (random_uniform g low high (Z.to_nat size)).
Qed.

Lemma oscillation_fold_length ts third fs :
  forall xs, length xs = length ts ->
  length (fold_left (sinusoid ts third) fs xs) = length xs.
Proof.
  induction fs as [|f fs IH]; intros xs H; cbn [fold_left]; [reflexivity|].
  rewrite IH; rewrite sinusoid_length; auto.
Qed.

Lemma oscillation_length ts third fs n :
  length ts = n -> length (oscillation ts third fs n) = n.
Proof.
  intros H. unfold oscillation.
  rewrite oscillation_fold_length; rewrite repeat_length; auto.
Qed.

Lemma fixture_time_length n fs : length (fixture_time n fs) = Z.to_nat n.
Proof. apply linspace_values_length. Qed.

Ltac quarters n :=
  pose proof (Z.div_mod n 4 ltac:(lia));
  pose proof (Z.mod_pos_bound n 4 ltac:(lia));
  pose proof (Z.div_mod n 3 ltac:(lia));
  pose proof (Z.mod_pos_bound n 3 ltac:(lia));
  assert (0 <= n / 4)%Z by (apply Z.div_pos; lia);
  assert (0 <= n / 3)%Z by (apply Z.div_pos; lia).

(** Line 107: the draws fit the last quarter, or a single draw is
    broadcast, or the assignment fails. *)
Lemma broadcast_last_quarter n (ws : list float) :
  (0 <= n)%Z -> length ws = Z.to_nat (n / 4) ->
  (last_quarter_fits n ->
   exists ws', broadcast_to (Z.to_nat n - 3 * Z.to_nat (n / 4)) ws = Ok ws' /\
               length ws' = Z.to_nat n - 3 * Z.to_nat (n / 4) /\
               ((n mod 4 = 0)%Z -> ws' = ws)) /\
  (~ last_quarter_fits n ->
   broadcast_to (Z.to_nat n - 3 * Z.to_nat (n / 4)) ws = Raise ValueError).
Proof.
  intros Hn Hl. unfold broadcast_to, last_quarter_fits. rewrite Hl.
  destruct (Nat.eqb_spec (Z.to_nat (n / 4)) (Z.to_nat n - 3 * Z.to_nat (n / 4)))
    as [E|E].
  - split.
    + intros _. exists ws. split; [reflexivity|]. split; [lia|auto].
    + intros Hc. exfalso. apply Hc. left.
      quarters n. lia.
  - split.
    + intros [Hc|Hc].
      * exfalso. apply E. quarters n. lia.
      * quarters n. destruct ws as [|w [|w' ws]]; cbn in Hl; try lia.
        exists (repeat w (Z.to_nat n - 3 * Z.to_nat (n / 4))).
        split; [reflexivity|]. split; [apply repeat_length|].
        intros Hm. exfalso. apply E. lia.
    + intros Hc. destruct ws as [|w [|w' ws]]; try reflexivity.
      cbn in Hl. exfalso. apply Hc. right. quarters n. lia.
Qed.


Ltac gstep H Hr :=
  erewrite gbind_ok in Hr; [| apply np_run; exact H].

Lemma generate_data_run dur fs noise g s0 :
  fs <> 0%Z -> (0 <= dur * fs)%Z -> negative_scale noise = false ->
  let n := (dur * fs)%Z in
  let d := fixture_draws g noise n in
  let base := length (heap s0) in
  let fourth := Z.to_nat (n / 4) in
  let third := Z.to_nat (n / 3) in
  let ts := fixture_time n fs in
  let acc1 :=
    set_slice fourth
      (map2 PrimFloat.add (repeat 0%float (Z.to_nat n)) (noise_acc d))
      (active1 d) in
  exists w',
    extends s0 (mem w') /\ sos_cache (mem w') = sos_cache s0 /\
    match broadcast_to (Z.to_nat n - 3 * fourth) (active2 d) with
    | Raise e => generate_data dur fs noise (mkWorld g s0) = (Raise e, w')
    | Ok ws =>
        generate_data dur fs noise (mkWorld g s0) = (Ok (base + 32, base + 5), w') /\
        gen w' = gen_after d /\
        length (heap (mem w')) = base + 33 /\
        holds (mem w') (base + 5) (Float64 (set_slice (3 * fourth) acc1 ws)) /\
        holds (mem w') (base + 32)
          (Float64 (map2 PrimFloat.add
                      (map2 PrimFloat.add
                         (oscillation ts third (delta_freqs d) (Z.to_nat n))
                         (oscillation ts third (theta_freqs d) (Z.to_nat n)))
                      (noise_lfp d)))
    end.
Proof.
  intros Hfs Hn Hnoise n d base fourth third ts acc1.
  quarters n.
  remember (generate_data dur fs noise (mkWorld g s0)) as r eqn:Hr.
  unfold generate_data in Hr. fold n in Hr.
  change (dur * fs)%Z with n in Hr.
  change (Z.to_nat (n / 3)) with third in Hr.
  (* lines 92-94: the time axis *)
  assert (E1 : lift (int_truediv n fs) s0
               = (Ok (float_of_int n / float_of_int fs)%float, s0)).
  { unfold lift, int_truediv. now rewrite (proj2 (Z.eqb_neq _ _) Hfs). }
  gstep E1 Hr.
  assert (E2 : np_linspace 0 (float_of_int n / float_of_int fs) n s0
               = (Ok base, push s0 (Float64 ts)))
    by exact (np_linspace_run _ _ _ Hn).
  gstep E2 Hr.
  set (s1 := push s0 (Float64 ts)) in *.
  assert (S1 : shape s0 s1 [Float64 ts] [])
    by apply (shape_push_front (P:=[])), shape_init.
  assert (L1 : length (heap s1) = base + 1)
    by (rewrite (shape_length S1); cbn [length]; fold base; lia).
  (* lines 95-97: three arrays of zeros and the noise of acc *)
  set (zs := repeat 0%float (Z.to_nat n)).
  assert (E3 : np_zeros n s1 = (Ok (base + 1), push s1 (Float64 zs)))
    by (rewrite <- L1; exact (np_zeros_run _ Hn)).
  gstep E3 Hr.
  set (s2 := push s1 (Float64 zs)) in *.
  assert (S2 : shape s0 s2 [Float64 ts; Float64 zs] [])
    by apply (shape_push_front (P:=[_])), S1.
  assert (L2 : length (heap s2) = base + 2)
    by (rewrite (shape_length S2); cbn [length]; fold base; lia).
  assert (E4 : np_zeros n s2 = (Ok (base + 2), push s2 (Float64 zs)))
    by (rewrite <- L2; exact (np_zeros_run _ Hn)).
  gstep E4 Hr.
  set (s3 := push s2 (Float64 zs)) in *.
  assert (S3 : shape s0 s3 [Float64 ts; Float64 zs; Float64 zs] [])
    by apply (shape_push_front (P:=[_; _])), S2.
  assert (L3 : length (heap s3) = base + 3)
    by (rewrite (shape_length S3); cbn [length]; fold base; lia).
  assert (E5 : np_zeros n s3 = (Ok (base + 3), push s3 (Float64 zs)))
    by (rewrite <- L3; exact (np_zeros_run _ Hn)).
  gstep E5 Hr.
  set (s4 := push s3 (Float64 zs)) in *.
  assert (S4 : shape s0 s4 [Float64 ts; Float64 zs; Float64 zs; Float64 zs] [])
    by apply (shape_push_front (P:=[_; _; _])), S3.
  assert (L4 : length (heap s4) = base + 4)
    by (rewrite (shape_length S4); cbn [length]; fold base; lia).
  set (g1 := snd (random_normal g 0 noise (Z.to_nat n))).
  assert (E6 : gen_normal 0 noise n (mkWorld g s4)
               = (Ok (base + 4), mkWorld g1 (push s4 (Float64 (noise_acc d)))))
    by (rewrite <- L4; exact (gen_normal_run _ _ _ _ Hnoise Hn)).
  erewrite gbind_ok in Hr; [|exact E6].
  set (s5 := push s4 (Float64 (noise_acc d))) in *.
  assert (S5 : shape s0 s5 [Float64 ts; Float64 zs; Float64 zs; Float64 zs;
                            Float64 (noise_acc d)] [])
    by apply (shape_push_front (P:=[_; _; _; _])), S4.
  assert (L5 : length (heap s5) = base + 5)
    by (rewrite (shape_length S5); cbn [length]; fold base; lia).
  assert (Lz : length zs = Z.to_nat n) by apply repeat_length.
  assert (Lnz : length (noise_acc d) = Z.to_nat n) by apply random_normal_length.
  set (acc0 := map2 PrimFloat.add zs (noise_acc d)) in *.
  assert (Lacc0 : length acc0 = Z.to_nat n)
    by (unfold acc0; rewrite map2_length; lia).
  assert (E7 : np_add (base + 3) (base + 4) s5
               = (Ok (base + 5), push s5 (Float64 acc0))).
  { rewrite <- L5. apply np_add_run.
    - now apply (shape_holds 3 S5).
    - now apply (shape_holds 4 S5).
    - lia. }
  gstep E7 Hr.
  set (s6 := push s5 (Float64 acc0)) in *.
  assert (S6 : shape s0 s6 [Float64 ts; Float64 zs; Float64 zs; Float64 zs;
                            Float64 (noise_acc d); Float64 acc0] [])
    by apply (shape_push_front (P:=[_; _; _; _; _])), S5.
  assert (L6 : length (heap s6) = base + 6)
    by (rewrite (shape_length S6); cbn [length]; fold base; lia).
  assert (Hfive : (0 <= 5)%Z) by lia.
  (* lines 100-102: the delta oscillation *)
  set (g2 := snd (random_uniform g1 1 3 5)).
  assert (E8 : gen_uniform 1 3 5 (mkWorld g1 s6)
               = (Ok (base + 6), mkWorld g2 (push s6 (Float64 (delta_freqs d)))))
    by (rewrite <- L6; exact (gen_uniform_run _ _ _ _ Hfive)).
  erewrite gbind_ok in Hr; [|exact E8].
  set (s7 := push s6 (Float64 (delta_freqs d))) in *.
  assert (S7 : shape s0 s7 [Float64 ts; Float64 zs; Float64 zs; Float64 zs;
                            Float64 (noise_acc d); Float64 acc0;
                            Float64 (delta_freqs d)] [])
    by apply (shape_push_front (P:=[_; _; _; _; _; _])), S6.
  assert (E9 : read_real (base + 6) s7 = (Ok (delta_freqs d), s7))
    by (apply read_real_holds; now apply (shape_holds 6 S7)).
  gstep E9 Hr.
  assert (Lts : length ts = Z.to_nat n) by apply fixture_time_length.
  destruct (@for_each_add_sinusoid_at _ s0 s7 _ _ (base + 1) base 1 0 ts zs third
              (delta_freqs d) S7)
    as (s8 & Q8 & E10 & S8 & LQ8);
    [reflexivity | unfold base; lia | reflexivity | reflexivity | lia | lia |].
  gstep E10 Hr.
  set (dv := fold_left (sinusoid ts third) (delta_freqs d) zs) in *.
  assert (Lfd : length (delta_freqs d) = 5) by apply random_uniform_length.
  cbn [update firstn skipn app length] in S8, LQ8. rewrite Lfd in LQ8.
  assert (L8 : length (heap s8) = base + 17)
    by (rewrite (shape_length S8); cbn [length]; fold base; lia).
  (* lines 103-105: the theta oscillation *)
  set (g3 := snd (random_uniform g2 4 7 5)).
  assert (E11 : gen_uniform 4 7 5 (mkWorld g2 s8)
                = (Ok (base + 17), mkWorld g3 (push s8 (Float64 (theta_freqs d)))))
    by (rewrite <- L8; exact (gen_uniform_run _ _ _ _ Hfive)).
  erewrite gbind_ok in Hr; [|exact E11].
  set (s9 := push s8 (Float64 (theta_freqs d))) in *.
  pose proof (shape_push (Float64 (theta_freqs d)) S8) as S9. fold s9 in S9.
  assert (E12 : read_real (base + 17) s9 = (Ok (theta_freqs d), s9))
    by (apply read_real_holds; rewrite <- L8; apply holds_push_new).
  gstep E12 Hr.
  destruct (@for_each_add_sinusoid_at _ s0 s9 _ _ (base + 2) base 2 0 ts zs third
              (theta_freqs d) S9)
    as (s10 & Q10 & E13 & S10 & LQ10);
    [reflexivity | unfold base; lia | reflexivity | reflexivity | lia | lia |].
  gstep E13 Hr.
  set (tv := fold_left (sinusoid ts third) (theta_freqs d) zs) in *.
  assert (Lft : length (theta_freqs d) = 5) by apply random_uniform_length.
  cbn [update firstn skipn app length] in S10, LQ10.
  rewrite Lft, length_app, LQ8 in LQ10. cbn [length] in LQ10.
  assert (L10 : length (heap s10) = base + 28)
    by (rewrite (shape_length S10); cbn [length]; fold base; lia).
  (* line 106: the second quarter of acc *)
  assert (Hone : negative_scale 1 = false) by reflexivity.
  set (g4 := snd (random_normal g3 3 1 fourth)).
  assert (E14 : gen_normal 3 1 (n / 4) (mkWorld g3 s10)
                = (Ok (base + 28), mkWorld g4 (push s10 (Float64 (active1 d)))))
    by (rewrite <- L10; exact (gen_normal_run _ _ _ _ Hone H3)).
  erewrite gbind_ok in Hr; [|exact E14].
  set (s11 := push s10 (Float64 (active1 d))) in *.
  pose proof (shape_push (Float64 (active1 d)) S10) as S11. fold s11 in S11.
  assert (La1 : length (active1 d) = fourth) by apply random_normal_length.
  assert (E15 : setitem_slice (base + 5) (Z.to_nat (n / 4))
                  (Some (Z.to_nat (2 * (n / 4)))) (base + 28) s11
                = (Ok tt, store s11 (base + 5) (Float64 acc1))).
  { apply setitem_slice_ok with (ws := active1 d).
    - now apply (shape_holds 5 S11).
    - rewrite <- L10. apply holds_push_new.
    - apply broadcast_to_same. rewrite py_slice_length.
      fold zs; fold acc0. rewrite Lacc0, La1. unfold fourth. lia. }
  gstep E15 Hr.
  set (s12 := store s11 (base + 5) (Float64 acc1)) in *.
  assert (S12 : shape s0 s12
                  [Float64 ts; Float64 dv; Float64 tv; Float64 zs;
                   Float64 (noise_acc d); Float64 acc1; Float64 (delta_freqs d)]
                  (Q10 ++ [Float64 (active1 d)])).
  { apply (shape_store (j:=5) (Float64 acc1)) in S11; [exact S11|cbn; lia]. }
  assert (L12 : length (heap s12) = base + 29).
  { rewrite (shape_length S12), length_app. cbn [length]. fold base. lia. }
  assert (Lacc1 : length acc1 = Z.to_nat n).
  { unfold acc1. fold zs. fold acc0. rewrite set_slice_length; lia. }
  (* line 107: the last quarter of acc *)
  set (g5 := snd (random_normal g4 3 1 fourth)).
  assert (E16 : gen_normal 3 1 (n / 4) (mkWorld g4 s12)
                = (Ok (base + 29), mkWorld g5 (push s12 (Float64 (active2 d)))))
    by (rewrite <- L12; exact (gen_normal_run _ _ _ _ Hone H3)).
  erewrite gbind_ok in Hr; [|exact E16].
  set (s13 := push s12 (Float64 (active2 d))) in *.
  pose proof (shape_push (Float64 (active2 d)) S12) as S13. fold s13 in S13.
  assert (Hacc13 : holds s13 (base + 5) (Float64 acc1))
    by now apply (shape_holds 5 S13).
  assert (Ha2 : holds s13 (base + 29) (Float64 (active2 d)))
    by (rewrite <- L12; apply holds_push_new).
  assert (Lslice : length (py_slice (Z.to_nat (3 * (n / 4))) (length acc1) acc1)
                   = Z.to_nat n - 3 * fourth).
  { rewrite py_slice_length, Lacc1. unfold fourth. lia. }
  destruct (broadcast_to (Z.to_nat n - 3 * fourth) (active2 d)) as [ws|e] eqn:Hb.
  2:{ (* the assignment fails *)
    exists (mkWorld g5 s13). cbn [mem]. split; [|split].
    - exact (shape_extends S13).
    - exact (shape_cache S13).
    - rewrite Hr. apply gbind_raise, np_run.
      apply setitem_slice_raise with (xs := acc1) (ws := active2 d); auto.
      now rewrite Lslice. }
  assert (E17 : setitem_slice (base + 5) (Z.to_nat (3 * (n / 4))) None (base + 29) s13
                = (Ok tt, store s13 (base + 5)
                            (Float64 (set_slice (Z.to_nat (3 * (n / 4))) acc1 ws)))).
  { apply setitem_slice_ok with (ws := active2 d); auto. now rewrite Lslice. }
  replace (Z.to_nat (3 * (n / 4))) with (3 * fourth) in E17 by (unfold fourth; lia).
  replace (Z.to_nat (3 * (n / 4))) with (3 * fourth) in Hr by (unfold fourth; lia).
  gstep E17 Hr.
  set (acc2 := set_slice (3 * fourth) acc1 ws) in *.
  set (s14 := store s13 (base + 5) (Float64 acc2)) in *.
  assert (S14 : shape s0 s14
                  [Float64 ts; Float64 dv; Float64 tv; Float64 zs;
                   Float64 (noise_acc d); Float64 acc2; Float64 (delta_freqs d)]
                  ((Q10 ++ [Float64 (active1 d)]) ++ [Float64 (active2 d)])).
  { apply (shape_store (j:=5) (Float64 acc2)) in S13; [exact S13|cbn; lia]. }
  assert (L14 : length (heap s14) = base + 30).
  { rewrite (shape_length S14), !length_app. cbn [length]. fold base. lia. }
  (* line 109: the LFP *)
  assert (Ldv : length dv = Z.to_nat n)
    by (unfold dv; rewrite oscillation_fold_length; lia).
  assert (Ltv : length tv = Z.to_nat n)
    by (unfold tv; rewrite oscillation_fold_length; lia).
  set (osc := map2 PrimFloat.add dv tv) in *.
  assert (E18 : np_add (base + 1) (base + 2) s14
                = (Ok (base + 30), push s14 (Float64 osc))).
  { rewrite <- L14. apply np_add_run.
    - now apply (shape_holds 1 S14).
    - now apply (shape_holds 2 S14).
    - lia. }
  gstep E18 Hr.
  set (s15 := push s14 (Float64 osc)) in *.
  pose proof (shape_push (Float64 osc) S14) as S15. fold s15 in S15.
  assert (L15 : length (heap s15) = base + 31)
    by (unfold s15; rewrite length_heap_push; lia).
  set (g6 := snd (random_normal g5 0 noise (Z.to_nat n))).
  assert (E19 : gen_normal 0 noise n (mkWorld g5 s15)
                = (Ok (base + 31), mkWorld g6 (push s15 (Float64 (noise_lfp d)))))
    by (rewrite <- L15; exact (gen_normal_run _ _ _ _ Hnoise Hn)).
  erewrite gbind_ok in Hr; [|exact E19].
  set (s16 := push s15 (Float64 (noise_lfp d))) in *.
  pose proof (shape_push (Float64 (noise_lfp d)) S15) as S16. fold s16 in S16.
  assert (L16 : length (heap s16) = base + 32)
    by (unfold s16; rewrite length_heap_push; lia).
  assert (Ln2 : length (noise_lfp d) = Z.to_nat n) by apply random_normal_length.
  assert (E20 : np_add (base + 30) (base + 31) s16
                = (Ok (base + 32), push s16 (Float64 (map2 PrimFloat.add osc (noise_lfp d))))).
  { rewrite <- L16. apply np_add_run.
    - apply holds_push_old. rewrite <- L14. apply holds_push_new.
    - rewrite <- L15. apply holds_push_new.
    - unfold osc. rewrite map2_length. lia. }
  gstep E20 Hr.
  set (s17 := push s16 (Float64 (map2 PrimFloat.add osc (noise_lfp d)))) in *.
  pose proof (shape_push (Float64 (map2 PrimFloat.add osc (noise_lfp d))) S16) as S17.
  fold s17 in S17.
  exists (mkWorld g6 s17). cbn [mem gen]. split; [|split].
  - exact (shape_extends S17).
  - exact (shape_cache S17).
  - split; [exact Hr|]. split; [reflexivity|]. split; [|split].
    + unfold s17. rewrite length_heap_push. lia.
    + now apply (shape_holds 5 S17).
    + rewrite <- L16. apply holds_push_new.
Qed.

Lemma generate_data_no_rate dur noise w :
  generate_data dur 0 noise w = (Raise ZeroDivisionError, w).
Proof.
  destruct w as [g s0]. unfold generate_data.
  apply gbind_raise, np_run. reflexivity.
Qed.

Lemma generate_data_negative_length dur fs noise w :
  fs <> 0%Z -> (dur * fs < 0)%Z ->
  generate_data dur fs noise w = (Raise ValueError, w).
Proof.
  intros Hfs Hn. destruct w as [g s0]. unfold generate_data.
  assert (E1 : lift (int_truediv (dur * fs) fs) s0
               = (Ok (float_of_int (dur * fs) / float_of_int fs)%float, s0)).
  { unfold lift, int_truediv. now rewrite (proj2 (Z.eqb_neq _ _) Hfs). }
  erewrite gbind_ok; [|apply np_run; exact E1].
  apply gbind_raise, np_run. unfold np_linspace.
  now rewrite (proj2 (Z.ltb_lt _ _) Hn).
Qed.

Lemma generate_data_negative_scale dur fs noise g s0 :
  fs <> 0%Z -> (0 <= dur * fs)%Z -> negative_scale noise = true ->
  exists w',
    generate_data dur fs noise (mkWorld g s0) = (Raise ValueError, w') /\
    extends s0 (mem w') /\ sos_cache (mem w') = sos_cache s0.
Proof.
  intros Hfs Hn Hnoise. unfold generate_data.
  assert (E1 : lift (int_truediv (dur * fs) fs) s0
               = (Ok (float_of_int (dur * fs) / float_of_int fs)%float, s0)).
  { unfold lift, int_truediv. now rewrite (proj2 (Z.eqb_neq _ _) Hfs). }
  erewrite gbind_ok; [|apply np_run; exact E1].
  erewrite gbind_ok; [|apply np_run; exact (np_linspace_run _ _ _ Hn)].
  erewrite gbind_ok; [|apply np_run; exact (np_zeros_run _ Hn)].
  erewrite gbind_ok; [|apply np_run; exact (np_zeros_run _ Hn)].
  erewrite gbind_ok; [|apply np_run; exact (np_zeros_run _ Hn)].
  eexists. split.
  - apply gbind_raise. unfold gen_normal. rewrite Hnoise. reflexivity.
  - cbn [mem]. split; [|reflexivity].
    repeat (eapply extends_trans; [|apply extends_push]). apply extends_refl.
Qed.

Lemma last_quarter_fits_dec n : {last_quarter_fits n} + {~ last_quarter_fits n}.
Proof.
  unfold last_quarter_fits.
  destruct (Z.eq_dec (n mod 4) 0); [left; auto|].
  destruct (Z.eq_dec (n / 4) 1); [left; auto|].
  right. intros [H|H]; contradiction.
Qed.

Lemma active2_length g noise n :
  length (active2 (fixture_draws g noise n)) = Z.to_nat (n / 4).
Proof. apply random_normal_length. Qed.

(** X10.  [generate_data] returns exactly when the rate is not zero, the
    number of samples [dur * fs] is not negative, the noise scale is not
    negative, and [dur * fs] is a multiple of four or leaves quarters of
    one sample; it raises [ZeroDivisionError] for a rate of zero and
    [ValueError] otherwise. *)
Theorem generate_data_outcome dur fs noise w :
  (is_ok (fst (generate_data dur fs noise w)) = true <->
   fs <> 0%Z /\ (0 <= dur * fs)%Z /\ negative_scale noise = false /\
   last_quarter_fits (dur * fs)) /\
  (fs = 0%Z -> fst (generate_data dur fs noise w) = Raise ZeroDivisionError) /\
  (fs <> 0%Z -> is_ok (fst (generate_data dur fs noise w)) = false ->
   fst (generate_data dur fs noise w) = Raise ValueError).
Proof.
  destruct (Z.eq_dec fs 0) as [->|Hfs].
  { rewrite generate_data_no_rate. cbn [fst is_ok].
    split; [split; [discriminate | intros [H _]; now elim H]|].
    split; [reflexivity | intros H; now elim H]. }
  split; [|split; [intros H; contradiction|intros _]].
  - destruct (Z.lt_ge_cases (dur * fs) 0) as [Hn|Hn].
    { rewrite generate_data_negative_length by assumption. cbn [fst is_ok].
      split; [discriminate | intros (_ & H & _); lia]. }
    destruct w as [g s0].
    destruct (negative_scale noise) eqn:Hnoise.
    { destruct (@generate_data_negative_scale dur fs noise g s0 Hfs Hn Hnoise)
        as (w' & -> & _). cbn [fst is_ok].
      split; [discriminate | intros (_ & _ & H & _); discriminate]. }
    destruct (@generate_data_run dur fs noise g s0 Hfs Hn Hnoise) as (w' & _ & _ & Hrun).
    destruct (@broadcast_last_quarter (dur * fs)%Z
                (active2 (fixture_draws g noise (dur * fs))) Hn
                (active2_length _ _ _)) as [Hfit Hnot].
    destruct (last_quarter_fits_dec (dur * fs)) as [Hq|Hq].
    + destruct (Hfit Hq) as (ws & Hb & _). rewrite Hb in Hrun.
      destruct Hrun as (-> & _). cbn [fst is_ok]. tauto.
    + rewrite (Hnot Hq) in Hrun. rewrite Hrun. cbn [fst is_ok].
      split; [discriminate | intros (_ & _ & _ & H); contradiction].
  - destruct (Z.lt_ge_cases (dur * fs) 0) as [Hn|Hn].
    { now rewrite generate_data_negative_length by assumption. }
    destruct w as [g s0].
    destruct (negative_scale noise) eqn:Hnoise.
    { now destruct (@generate_data_negative_scale dur fs noise g s0 Hfs Hn Hnoise)
        as (w' & -> & _). }
    destruct (@generate_data_run dur fs noise g s0 Hfs Hn Hnoise) as (w' & _ & _ & Hrun).
    destruct (@broadcast_last_quarter (dur * fs)%Z
                (active2 (fixture_draws g noise (dur * fs))) Hn
                (active2_length _ _ _)) as [Hfit Hnot].
    destruct (last_quarter_fits_dec (dur * fs)) as [Hq|Hq].
    + destruct (Hfit Hq) as (ws & Hb & _). rewrite Hb in Hrun.
      destruct Hrun as (-> & _). cbn [fst is_ok]. discriminate.
    + rewrite (Hnot Hq) in Hrun. now rewrite Hrun.
Qed.

Lemma generate_data_store dur fs noise w :
  extends (mem w) (mem (snd (generate_data dur fs noise w))) /\
  sos_cache (mem (snd (generate_data dur fs noise w))) = sos_cache (mem w) /\
  forall lfp acc,
    fst (generate_data dur fs noise w) = Ok (lfp, acc) ->
    acc = length (heap (mem w)) + 5 /\ lfp = length (heap (mem w)) + 32 /\
    length (heap (mem (snd (generate_data dur fs noise w))))
      = length (heap (mem w)) + 33.
Proof.
  destruct (Z.eq_dec fs 0) as [->|Hfs].
  { rewrite generate_data_no_rate. cbn [fst snd].
    split; [apply extends_refl|]. split; [reflexivity|discriminate]. }
  destruct (Z.lt_ge_cases (dur * fs) 0) as [Hn|Hn].
  { rewrite generate_data_negative_length by assumption. cbn [fst snd].
    split; [apply extends_refl|]. split; [reflexivity|discriminate]. }
  destruct w as [g s0]. cbn [mem].
  destruct (negative_scale noise) eqn:Hnoise.
  { destruct (@generate_data_negative_scale dur fs noise g s0 Hfs Hn Hnoise)
      as (w' & -> & He & Hc). cbn [fst snd].
    split; [exact He|]. split; [exact Hc|discriminate]. }
  destruct (@generate_data_run dur fs noise g s0 Hfs Hn Hnoise)
    as (w' & He & Hc & Hrun).
  destruct (broadcast_to _ _) as [ws|e].
  - destruct Hrun as (-> & _ & Hl & _). cbn [fst snd].
    split; [exact He|]. split; [exact Hc|].
    intros lfp acc [= <- <-]. auto.
  - rewrite Hrun. cbn [fst snd].
    split; [exact He|]. split; [exact Hc|discriminate].
Qed.

(** X11.  [generate_data] updates arrays in place, but only arrays it
    has created itself: whether it returns or raises, every array of the
    store it is called in is what it was, and so is the filter cache; the
    two signals it returns are two different arrays among the 33 new
    arrays of the call (slice views are not counted). *)
Theorem generate_data_frame dur fs noise w :
  (forall l a, holds (mem w) l a ->
               holds (mem (snd (generate_data dur fs noise w))) l a) /\
  sos_cache (mem (snd (generate_data dur fs noise w))) = sos_cache (mem w) /\
  forall lfp acc,
    fst (generate_data dur fs noise w) = Ok (lfp, acc) ->
    length (heap (mem w)) <= acc /\ acc < lfp /\
    lfp < length (heap (mem (snd (generate_data dur fs noise w)))) /\
    length (heap (mem (snd (generate_data dur fs noise w))))
      = length (heap (mem w)) + 33.
Proof.
  destruct (generate_data_store dur fs noise w) as (He & Hc & Hr).
  split; [intros l a; exact (extends_holds He)|]. split; [exact Hc|].
  intros lfp acc E. destruct (Hr lfp acc E) as (-> & -> & Hl).
  rewrite Hl. lia.
Qed.

Lemma map2_nth (xs ys : list float) i :
  i < length xs -> i < length ys ->
  nth i (map2 PrimFloat.add xs ys) 0%float
  = (nth i xs 0%float + nth i ys 0%float)%float.
Proof.
  revert xs ys. induction i as [|i IH]; intros [|x xs] [|y ys] Hx Hy;
    cbn in *; try lia; auto.
  apply IH; lia.
Qed.

Lemma sinusoid_outside ts third xs f i d :
  third <= length xs -> i < third \/ 2 * third <= i ->
  nth i (sinusoid ts third xs f) d = nth i xs d.
Proof.
  intros Ht [Hi|Hi]; unfold sinusoid.
  - now apply set_slice_nth_before.
  - apply set_slice_nth_after; [|exact Ht].
    rewrite map2_length, !length_map, !py_slice_length. lia.
Qed.

Lemma oscillation_fold_outside ts third fs i d :
  forall xs, length xs = length ts -> third <= length xs ->
  i < third \/ 2 * third <= i ->
  nth i (fold_left (sinusoid ts third) fs xs) d = nth i xs d.
Proof.
  induction fs as [|f fs IH]; intros xs Hl Ht Hi; cbn [fold_left]; [reflexivity|].
  rewrite IH; try rewrite sinusoid_length; auto.
  now apply sinusoid_outside.
Qed.

(** Outside the middle third an oscillation is zero. *)
Lemma oscillation_outside ts third fs n i :
  length ts = n -> third <= n -> i < third \/ 2 * third <= i ->
  nth i (oscillation ts third fs n) 0%float = 0%float.
Proof.
  intros Hl Ht Hi. unfold oscillation.
  rewrite oscillation_fold_outside; try rewrite repeat_length; auto.
  apply nth_repeat.
Qed.

Lemma generate_data_returns_inv dur fs noise w r w' :
  generate_data dur fs noise w = (Ok r, w') ->
  fs <> 0%Z /\ (0 <= dur * fs)%Z /\ negative_scale noise = false.
Proof.
  intros Hrun.
  destruct (Z.eq_dec fs 0) as [->|Hfs].
  { rewrite generate_data_no_rate in Hrun. discriminate. }
  destruct (Z.lt_ge_cases (dur * fs) 0) as [Hn|Hn].
  { rewrite generate_data_negative_length in Hrun by assumption. discriminate. }
  destruct (negative_scale noise) eqn:Hnoise; [|auto].
  destruct w as [g s0].
  destruct (@generate_data_negative_scale dur fs noise g s0 Hfs Hn Hnoise)
    as (w1 & E & _).
  rewrite E in Hrun. discriminate.
Qed.

(** X12.  The signals of a returning [generate_data] for a number of
    samples that is a multiple of four, in terms of the six draws of the
    run: both have [dur * fs] samples; the LFP is the sum of the two
    oscillations and of the last draw, and outside the middle third it is
    that draw alone; the accelerometer is the first draw in its first and
    third quarters, and the two draws of mean 3 in its second and fourth
    quarters.  The generator is left as the six draws leave it. *)
Theorem generate_data_signals dur fs noise w lfp acc w' :
  ((dur * fs) mod 4 = 0)%Z ->
  generate_data dur fs noise w = (Ok (lfp, acc), w') ->
  let n := Z.to_nat (dur * fs) in
  let third := Z.to_nat (dur * fs / 3) in
  let fourth := Z.to_nat (dur * fs / 4) in
  let d := fixture_draws (gen w) noise (dur * fs) in
  let ts := fixture_time (dur * fs) fs in
  gen w' = gen_after d /\
  exists xl xa,
    holds (mem w') lfp (Float64 xl) /\ holds (mem w') acc (Float64 xa) /\
    length xl = n /\ length xa = n /\
    xl = map2 PrimFloat.add
           (map2 PrimFloat.add (oscillation ts third (delta_freqs d) n)
                               (oscillation ts third (theta_freqs d) n))
           (noise_lfp d) /\
    (forall i, i < n -> i < third \/ 2 * third <= i ->
       nth i xl 0%float = (0 + 0 + nth i (noise_lfp d) 0)%float) /\
    (forall i, i < fourth \/ 2 * fourth <= i < 3 * fourth ->
       nth i xa 0%float = (0 + nth i (noise_acc d) 0)%float) /\
    (forall i, fourth <= i < 2 * fourth ->
       nth i xa 0%float = nth (i - fourth) (active1 d) 0%float) /\
    (forall i, 3 * fourth <= i < n ->
       nth i xa 0%float = nth (i - 3 * fourth) (active2 d) 0%float).
Proof.
  intros Hm Hrun n third fourth d ts.
  destruct (generate_data_returns_inv _ _ _ _ Hrun) as (Hfs & Hn & Hnoise).
  destruct w as [g s0]. cbn [gen] in d.
  destruct (@generate_data_run dur fs noise g s0 Hfs Hn Hnoise)
    as (w1 & _ & _ & Hrun1).
  destruct (@broadcast_last_quarter (dur * fs)%Z (active2 d) Hn
              (active2_length _ _ _)) as [Hfit _].
  destruct (Hfit (or_introl Hm)) as (ws & Hb & _ & Hws).
  fold d in Hrun1. rewrite Hb, (Hws Hm) in Hrun1.
  destruct Hrun1 as (E & Hg & _ & Hacc & Hlfp).
  rewrite E in Hrun. injection Hrun as <- <- <-.
  fold n third fourth ts in Hacc, Hlfp.
  quarters (dur * fs)%Z.
  assert (Lnz : length (noise_acc d) = n) by apply random_normal_length.
  assert (La1 : length (active1 d) = fourth) by apply random_normal_length.
  assert (La2 : length (active2 d) = fourth) by apply random_normal_length.
  assert (Ln2 : length (noise_lfp d) = n) by apply random_normal_length.
  assert (Lts : length ts = n) by apply fixture_time_length.
  assert (Hq : n = 4 * fourth) by (unfold n, fourth; lia).
  assert (Ht : third <= n) by (unfold n, third; lia).
  set (acc0 := map2 PrimFloat.add (repeat 0%float n) (noise_acc d)) in *.
  assert (Lacc0 : length acc0 = n)
    by (unfold acc0; rewrite map2_length, repeat_length; lia).
  set (acc1 := set_slice fourth acc0 (active1 d)) in *.
  assert (Lacc1 : length acc1 = n)
    by (unfold acc1; rewrite set_slice_length; lia).
  split; [exact Hg|].
  eexists; eexists. split; [exact Hlfp|]. split; [exact Hacc|].
  split; [|split; [|split; [reflexivity|]]].
  - rewrite !map2_length, !oscillation_length by assumption. lia.
  - rewrite set_slice_length; lia.
  - split; [|split; [|split]].
    + intros i Hi Ho.
      rewrite map2_nth, map2_nth;
        rewrite ?map2_length, ?oscillation_length by assumption; try lia.
      now rewrite !oscillation_outside by assumption.
    + intros i Hi.
      rewrite set_slice_nth_before by lia.
      unfold acc1.
      replace (nth i (set_slice fourth acc0 (active1 d)) 0%float)
        with (nth i acc0 0%float).
      * unfold acc0. rewrite map2_nth by (rewrite ?repeat_length; lia).
        now rewrite nth_repeat.
      * destruct Hi as [Hi|Hi].
        -- now rewrite set_slice_nth_before by lia.
        -- now rewrite set_slice_nth_after by lia.
    + intros i Hi.
      rewrite set_slice_nth_before by lia.
      unfold acc1. now rewrite set_slice_nth_inside by lia.
    + intros i Hi.
      now rewrite set_slice_nth_inside by lia.
Qed.

(** The fixture when it returns: where its two signals are, and how many
    samples they have. *)
Lemma generate_data_returns dur fs noise g s0 :
  fs <> 0%Z -> (0 <= dur * fs)%Z -> negative_scale noise = false ->
  last_quarter_fits (dur * fs) ->
  exists xl xa w',
    generate_data dur fs noise (mkWorld g s0)
      = (Ok (length (heap s0) + 32, length (heap s0) + 5), w') /\
    extends s0 (mem w') /\ sos_cache (mem w') = sos_cache s0 /\
    gen w' = gen_after (fixture_draws g noise (dur * fs)) /\
    length (heap (mem w')) = length (heap s0) + 33 /\
    holds (mem w') (length (heap s0) + 32) (Float64 xl) /\
    holds (mem w') (length (heap s0) + 5) (Float64 xa) /\
    length xl = Z.to_nat (dur * fs) /\ length xa = Z.to_nat (dur * fs).
Proof.
  intros Hfs Hn Hnoise Hq.
  destruct (@generate_data_run dur fs noise g s0 Hfs Hn Hnoise)
    as (w' & X & C & Hrun).
  set (d := fixture_draws g noise (dur * fs)) in *.
  destruct (@broadcast_last_quarter (dur * fs)%Z (active2 d) Hn
              (active2_length _ _ _)) as [Hfit _].
  destruct (Hfit Hq) as (ws & Hb & Lws & _).
  rewrite Hb in Hrun. destruct Hrun as (E & Hg & Lh & Hacc & Hlfp).
  quarters (dur * fs)%Z.
  assert (Lnz : length (noise_acc d) = Z.to_nat (dur * fs))
    by apply random_normal_length.
  assert (La1 : length (active1 d) = Z.to_nat (dur * fs / 4))
    by apply random_normal_length.
  assert (Ln2 : length (noise_lfp d) = Z.to_nat (dur * fs))
    by apply random_normal_length.
  assert (Lts : length (fixture_time (dur * fs) fs) = Z.to_nat (dur * fs))
    by apply fixture_time_length.
  eexists; eexists; exists w'.
  split; [exact E|]. split; [exact X|]. split; [exact C|]. split; [exact Hg|].
  split; [exact Lh|]. split; [exact Hlfp|]. split; [exact Hacc|]. split.
  - rewrite !map2_length, !oscillation_length by assumption. lia.
  - rewrite set_slice_length; rewrite set_slice_length;
      rewrite ?map2_length, ?repeat_length; lia.
Qed.

End FixtureProgram.

Lemma counter_fixture_laws : FixtureLaws Examples.counter_fixture.
Proof. split; intros; cbn; now rewrite length_map, length_seq. Qed.

Section FixtureExamples.
#[local] Existing Instance Examples.counter_fixture.
Import Reference Examples.

(** Two seconds at 4 Hz return; a rate of zero does not. *)
Lemma generate_data_outcome_witness :
  is_ok (fst (generate_data 2 4 1 (seeded (initial [])))) = true /\
  fst (generate_data 2 0 1 (seeded (initial []))) = Raise ZeroDivisionError.
Proof.
  split.
  - apply (proj1 (@generate_data_outcome _ counter_fixture_laws 2 4 1
                    (seeded (initial [])))).
    repeat split; [lia | lia | left; reflexivity].
  - apply (proj1 (proj2 (@generate_data_outcome _ counter_fixture_laws 2 0 1
                           (seeded (initial []))))).
    reflexivity.
Defined.

(** An array of the store before the call, after it. *)
Lemma generate_data_frame_witness :
  holds (mem (snd (generate_data 2 4 1 (seeded (initial [1%float; 2%float])))))
        0 (Float64 [1%float; 2%float]).
Proof.
  apply (proj1 (@generate_data_frame _ counter_fixture_laws 2 4 1
                  (seeded (initial [1%float; 2%float])))).
  reflexivity.
Defined.

(** Eight samples: thirds of two samples, quarters of two. *)
Lemma generate_data_signals_witness :
  gen (snd (generate_data 2 4 1 (seeded (initial []))))
  = gen_after (fixture_draws 0%nat 1 8).
Proof.
  exact (proj1 (@generate_data_signals _ counter_fixture_laws 2 4 1
                  (seeded (initial [])) 33 6
                  (snd (generate_data 2 4 1 (seeded (initial []))))
                  eq_refl ltac:(vm_compute; reflexivity))).
Defined.

End FixtureExamples.

(* ================================================================= *)
(** * The main block: ten calls on the fixture *)

Section TwoFilters.
Context {K : NumKernels} {L : KernelLaws K}.
Variables (ld hd lt ht : float) (fs : Z) (st sd : SOS).

Hypothesis Hdiff : key_eqb (delta_key ld hd fs) (theta_key lt ht fs) = false.
Hypothesis Hst : butter default_order [lt; ht] Bandpass (fs / default_factor)%Z = Ok st.
Hypothesis Hsd : butter default_order [ld; hd] Bandpass (fs / default_factor)%Z = Ok sd.
Hypothesis Vst : validate_sos st = true.
Hypothesis Vsd : validate_sos sd = true.

Lemma theta_filter s :
  cold_or_warm ld hd lt ht fs st sd (sos_cache s) ->
  exists c1,
    make_sos_filter default_order lt ht Bandpass (fs / default_factor)%Z s
      = (Ok st, {| heap := heap s; sos_cache := c1 |}) /\
    (c1 = [(theta_key lt ht fs, st)] \/
     c1 = [(theta_key lt ht fs, st); (delta_key ld hd fs, sd)] /\ key_eqb (delta_key ld hd fs) (delta_key ld hd fs) = true).
Proof.
  assert (Hdiff' : key_eqb (theta_key lt ht fs) (delta_key ld hd fs) = false) by now rewrite key_eqb_sym.
  intros [Hc|(Hc & Ht & Hd)]; unfold make_sos_filter, lru_cache; rewrite Hc;
    fold (theta_key lt ht fs); unfold two_filters; cbn [cache_find].
  - rewrite Hst. exists [(theta_key lt ht fs, st)]. split; [reflexivity|now left].
  - rewrite Hdiff', Ht. exists [(theta_key lt ht fs, st); (delta_key ld hd fs, sd)]. split; [|right; auto].
    unfold cache_remove. cbn [filter fst]. now rewrite Hdiff', Ht.
Qed.

Lemma delta_filter s :
  sos_cache s = [(theta_key lt ht fs, st)] \/
  sos_cache s = [(theta_key lt ht fs, st); (delta_key ld hd fs, sd)] /\ key_eqb (delta_key ld hd fs) (delta_key ld hd fs) = true ->
  make_sos_filter default_order ld hd Bandpass (fs / default_factor)%Z s
    = (Ok sd, {| heap := heap s; sos_cache := two_filters ld hd lt ht fs st sd |}).
Proof.
  intros [Hc|(Hc & Hd)]; unfold make_sos_filter, lru_cache; rewrite Hc;
    fold (delta_key ld hd fs); cbn [cache_find]; rewrite Hdiff.
  - now rewrite Hsd.
  - rewrite Hd. unfold cache_remove. cbn [filter fst]. now rewrite Hdiff, Hd.
Qed.

(** [delta_theta] with both designs at hand: it returns when both
    paddings are below the decimated length, creating 13 arrays and
    leaving the two filters in the cache, and raises otherwise. *)
Lemma delta_theta_two_filters s lfp xl :
  holds s lfp (Float64 xl) ->
  cold_or_warm ld hd lt ht fs st sd (sos_cache s) ->
  ((sos_padlen st < length (decimated_values xl default_factor))%nat ->
   (sos_padlen sd < length (decimated_values xl default_factor))%nat ->
   exists s',
     delta_theta lfp ld hd lt ht fs s = (Ok (length (heap s) + 12)%nat, s') /\
     extends s s' /\ length (heap s') = (length (heap s) + 13)%nat /\
     sos_cache s' = two_filters ld hd lt ht fs st sd) /\
  ((length (decimated_values xl default_factor) <= sos_padlen st)%nat \/
   (length (decimated_values xl default_factor) <= sos_padlen sd)%nat ->
   is_ok (fst (delta_theta lfp ld hd lt ht fs s)) = false).
Proof.
  intros Hl Hc.
  set (dwn := decimated_values xl default_factor).
  assert (H16 : (2 <= default_factor)%Z) by (unfold default_factor; lia).
  destruct (theta_filter (push s (Float64 dwn))) as (c1 & Et & Hc1);
    [exact Hc|].
  pose proof (get_band_power_run lt ht fs default_order Hl H16) as Gt.
  cbv zeta in Gt. fold dwn in Gt. rewrite Et, Vst in Gt. cbn [negb orb] in Gt.
  set (s1 := {| heap := heap (push s (Float64 dwn)); sos_cache := c1 |}) in *.
  assert (L1 : length (heap s1) = (length (heap s) + 1)%nat)
    by (unfold s1; cbn [heap]; rewrite length_heap_push; lia).
  destruct (Nat.leb_spec (length dwn) (sos_padlen st)) as [Pt|Pt].
  { split; [intros; lia|]. intros _.
    unfold delta_theta. now rewrite (bind_raise _ _ _ Gt). }
  set (sA := band_power_store s1 st dwn) in *.
  assert (XA : extends s sA).
  { eapply extends_trans; [|apply extends_band_power_store].
    eapply extends_trans; [apply extends_push|].
    now apply extends_same_heap. }
  assert (LA : length (heap sA) = (length (heap s) + 5)%nat).
  { unfold sA, band_power_store. rewrite !length_heap_push. lia. }
  pose proof (delta_filter (push sA (Float64 dwn))) as Ed.
  rewrite (sos_cache_band_power_store s1 st dwn : sos_cache (push sA _) = _) in Ed.
  specialize (Ed Hc1).
  pose proof (get_band_power_run ld hd fs default_order (extends_holds XA Hl) H16) as Gd.
  cbv zeta in Gd. fold dwn in Gd. rewrite Ed, Vsd in Gd. cbn [negb orb] in Gd.
  set (s2 := {| heap := heap (push sA (Float64 dwn));
                sos_cache := two_filters ld hd lt ht fs st sd |}) in *.
  destruct (Nat.leb_spec (length dwn) (sos_padlen sd)) as [Pd|Pd].
  { split; [intros; lia|]. intros _.
    unfold delta_theta. rewrite (bind_ok _ _ _ Gt). now rewrite (bind_raise _ _ _ Gd). }
  split; [intros _ _|intros [H|H]; lia].
  set (sB := band_power_store s2 sd dwn) in *.
  assert (L2 : length (heap s2) = (length (heap s) + 6)%nat)
    by (unfold s2; cbn [heap]; rewrite length_heap_push; lia).
  assert (LB : length (heap sB) = (length (heap s) + 10)%nat).
  { unfold sB, band_power_store. rewrite !length_heap_push. lia. }
  assert (XB : extends sA sB).
  { eapply extends_trans; [|apply extends_band_power_store].
    eapply extends_trans; [apply extends_push|].
    now apply extends_same_heap. }
  assert (Htp : holds sB (length (heap s) + 4)%nat
                  (Float64 (band_power_values st dwn))).
  { apply (extends_holds XB).
    replace (length (heap s) + 4)%nat with (length (heap s1) + 3)%nat by lia.
    apply holds_band_power_store. }
  assert (Hdp : holds sB (length (heap sA) + 4)%nat
                  (Float64 (band_power_values sd dwn))).
  { replace (length (heap sA) + 4)%nat with (length (heap s2) + 3)%nat by lia.
    apply holds_band_power_store. }
  edestruct delta_theta_run as (_ & Erun);
    [exact Gt | exact Gd | exact Htp | exact Hdp |].
  eexists. split; [|split; [|split]].
  - rewrite Erun. f_equal. f_equal. lia.
  - eapply extends_trans; [exact XA|]. eapply extends_trans; [exact XB|].
    unfold ratio_store.
    do 3 (eapply extends_trans; [|apply extends_push]). apply extends_refl.
  - unfold ratio_store. rewrite !length_heap_push. lia.
  - reflexivity.
Qed.

(** [is_sleeping] with both designs at hand and a decimated rate that is
    not zero. *)
Lemma is_sleeping_two_filters s lfp acc xl xa dwn_fs :
  holds s lfp (Float64 xl) -> holds s acc (Float64 xa) ->
  cold_or_warm ld hd lt ht fs st sd (sos_cache s) ->
  int_truediv fs default_factor = Ok dwn_fs -> (dwn_fs =? 0)%float = false ->
  ((sos_padlen st < length (decimated_values xl default_factor))%nat ->
   (sos_padlen sd < length (decimated_values xl default_factor))%nat ->
   (2 <= length (decimated_values xa default_factor))%nat ->
   exists s',
     is_sleeping lfp acc ld hd lt ht fs s
       = (Ok ((length (heap s) + 12)%nat, (length (heap s) + 15)%nat), s') /\
     extends s s' /\ length (heap s') = (length (heap s) + 16)%nat /\
     sos_cache s' = two_filters ld hd lt ht fs st sd) /\
  ((length (decimated_values xl default_factor) <= sos_padlen st)%nat \/
   (length (decimated_values xl default_factor) <= sos_padlen sd)%nat \/
   (length (decimated_values xa default_factor) < 2)%nat ->
   is_ok (fst (is_sleeping lfp acc ld hd lt ht fs s)) = false).
Proof.
  intros Hl Ha Hc Hrate Hnz.
  destruct (delta_theta_two_filters Hl Hc) as [Hok Hfail].
  destruct (Nat.leb_spec (length (decimated_values xl default_factor)) (sos_padlen st))
    as [Pt|Pt].
  { split; [intros; lia|]. intros _.
    specialize (Hfail (or_introl Pt)). unfold is_sleeping.
    destruct (delta_theta lfp ld hd lt ht fs s) as [[r|e] s1] eqn:E;
      [discriminate Hfail|].
    now rewrite (bind_raise _ _ _ E). }
  destruct (Nat.leb_spec (length (decimated_values xl default_factor)) (sos_padlen sd))
    as [Pd|Pd].
  { split; [intros; lia|]. intros _.
    specialize (Hfail (or_intror Pd)). unfold is_sleeping.
    destruct (delta_theta lfp ld hd lt ht fs s) as [[r|e] s1] eqn:E;
      [discriminate Hfail|].
    now rewrite (bind_raise _ _ _ E). }
  destruct (Hok Pt Pd) as (s1 & E & X1 & L1 & C1). clear Hok Hfail.
  pose proof (speed_run default_factor fs (extends_holds X1 Ha)) as Es.
  cbv zeta in Es. rewrite Hrate, Hnz in Es.
  set (motion := decimated_values xa default_factor) in *.
  destruct (Nat.lt_ge_cases (length motion) 2) as [Pm|Pm].
  { split; [intros; lia|]. intros _.
    destruct (gradient_values_short motion
                (time_axis (length motion) dwn_fs) Pm) as [e Eg].
    rewrite Eg in Es. unfold is_sleeping.
    rewrite (bind_ok _ _ _ E). now rewrite (bind_raise _ _ _ Es). }
  split; [intros _ _ _|intros [H|[H|H]]; lia].
  destruct (@gradient_values_ok motion (time_axis (length motion) dwn_fs))
    as [d Eg]; [apply linspace_values_length | exact Pm |].
  rewrite Eg in Es.
  eexists. split; [|split; [|split]].
  - unfold is_sleeping. rewrite (bind_ok _ _ _ E), (bind_ok _ _ _ Es).
    unfold ret. rewrite L1. f_equal. f_equal. f_equal. lia.
  - eapply extends_trans; [exact X1|].
    do 3 (eapply extends_trans; [|apply extends_push]). apply extends_refl.
  - rewrite !length_heap_push. lia.
  - exact C1.
Qed.

(** From a state that holds the two filters, any number of calls
    return. *)
Lemma is_sleeping_repeated s lfp acc xl xa dwn_fs n :
  holds s lfp (Float64 xl) -> holds s acc (Float64 xa) ->
  cold_or_warm ld hd lt ht fs st sd (sos_cache s) ->
  is_nan lt = false -> is_nan ht = false ->
  is_nan ld = false -> is_nan hd = false ->
  int_truediv fs default_factor = Ok dwn_fs -> (dwn_fs =? 0)%float = false ->
  (sos_padlen st < length (decimated_values xl default_factor))%nat ->
  (sos_padlen sd < length (decimated_values xl default_factor))%nat ->
  (2 <= length (decimated_values xa default_factor))%nat ->
  exists s',
    for_range (S n) (is_sleeping lfp acc ld hd lt ht fs) s = (Ok tt, s') /\
    extends s s' /\ length (heap s') = (length (heap s) + 16 * S n)%nat /\
    sos_cache s' = two_filters ld hd lt ht fs st sd.
Proof.
  intros Hl Ha Hc Nlt Nht Nld Nhd Hrate Hnz Pt Pd Pm.
  revert s Hl Ha Hc. induction n as [|n IH]; intros s Hl Ha Hc.
  - destruct (proj1 (is_sleeping_two_filters Hl Ha Hc Hrate Hnz) Pt Pd Pm)
      as (s1 & E & X1 & L1 & C1).
    exists s1. split; [|split; [exact X1|split; [lia|exact C1]]].
    cbn [for_range]. now rewrite (bind_ok _ _ _ E).
  - destruct (proj1 (is_sleeping_two_filters Hl Ha Hc Hrate Hnz) Pt Pd Pm)
      as (s1 & E & X1 & L1 & C1).
    destruct (IH s1) as (s' & E' & X' & L' & C').
    + exact (extends_holds X1 Hl).
    + exact (extends_holds X1 Ha).
    + right. split; [exact C1|]. split; now apply key_eqb_refl.
    + exists s'. split; [|split; [|split]].
      * change (for_range (S (S n)) ?b) with (_ <- b ;; for_range (S n) b).
        now rewrite (bind_ok _ _ _ E).
      * exact (extends_trans X1 X').
      * lia.
      * exact C'.
Qed.

End TwoFilters.

Section FirstCall.
Context {K : NumKernels} {L : KernelLaws K}.

Lemma decimated_values_default_length xs :
  length (decimated_values xs default_factor) = resample_n_out (length xs) 16.
Proof.
  unfold decimated_values. apply resample_poly_length. unfold default_factor. lia.
Qed.

(** X13.  The first call of [is_sleeping], on two real arrays and with an
    empty filter cache: with the two bands under different keys, both
    designed, and a decimated rate that is not zero, the call returns
    exactly when the LFP has more than 16 times the padding of either
    filter and the accelerometer has at least 17 samples; the library
    calls have then returned 16 new arrays, the ratio is the 13th and the
    motion the 16th, and the cache holds the two filters, the delta filter
    first. *)
Theorem is_sleeping_first_call s lfp acc xl xa ld hd lt ht fs st sd dwn_fs :
  holds s lfp (Float64 xl) -> holds s acc (Float64 xa) ->
  sos_cache s = [] ->
  key_eqb (delta_key ld hd fs) (theta_key lt ht fs) = false ->
  butter default_order [lt; ht] Bandpass (fs / default_factor)%Z = Ok st ->
  butter default_order [ld; hd] Bandpass (fs / default_factor)%Z = Ok sd ->
  validate_sos st = true -> validate_sos sd = true ->
  int_truediv fs default_factor = Ok dwn_fs -> (dwn_fs =? 0)%float = false ->
  (is_ok (fst (is_sleeping lfp acc ld hd lt ht fs s)) = true <->
   (16 * Z.of_nat (sos_padlen st) < Z.of_nat (length xl))%Z /\
   (16 * Z.of_nat (sos_padlen sd) < Z.of_nat (length xl))%Z /\
   17 <= length xa) /\
  (is_ok (fst (is_sleeping lfp acc ld hd lt ht fs s)) = true ->
   fst (is_sleeping lfp acc ld hd lt ht fs s)
     = Ok (length (heap s) + 12, length (heap s) + 15) /\
   length (heap (snd (is_sleeping lfp acc ld hd lt ht fs s))) = length (heap s) + 16 /\
   sos_cache (snd (is_sleeping lfp acc ld hd lt ht fs s))
     = two_filters ld hd lt ht fs st sd).
Proof.
  intros Hl Ha Hc Hdiff Hst Hsd Vst Vsd Hrate Hnz.
  destruct (is_sleeping_two_filters Hdiff Hst Hsd Vst Vsd Hl Ha
              (or_introl Hc) Hrate Hnz) as [Hok Hfail].
  rewrite !decimated_values_default_length in Hok, Hfail.
  pose proof (resample_n_out_gt (length xl) (sos_padlen st) (q := 16) ltac:(lia)) as Gt.
  pose proof (resample_n_out_gt (length xl) (sos_padlen sd) (q := 16) ltac:(lia)) as Gd.
  pose proof (resample_n_out_gt (length xa) 1 (q := 16) ltac:(lia)) as Gm.
  assert (D : ((16 * Z.of_nat (sos_padlen st) < Z.of_nat (length xl))%Z /\
               (16 * Z.of_nat (sos_padlen sd) < Z.of_nat (length xl))%Z /\
               17 <= length xa) \/
              (resample_n_out (length xl) 16 <= sos_padlen st \/
               resample_n_out (length xl) 16 <= sos_padlen sd \/
               resample_n_out (length xa) 16 < 2)) by lia.
  destruct D as [D|D].
  - destruct Hok as (s' & E & _ & Ls & Cs); [lia | lia | lia |].
    rewrite E. cbn [fst snd is_ok]. split; [tauto|auto].
  - rewrite (Hfail D). split; [|discriminate].
    split; [discriminate|]. lia.
Qed.

End FirstCall.

Section MainBlock.
Context {K : NumKernels} {L : KernelLaws K}.
Context {F : FixtureKernels} {FL : FixtureLaws F}.

(** X14.  The main block, from an empty filter cache and with the two
    default bands designed at 1250 Hz: the fixture of 100000 samples always
    returns, and the block runs to its end exactly when both filters pad
    fewer than 6250 samples.  The ten calls then leave the two filters in
    the cache, 193 new arrays (33 of the fixture, 16 of each call), and
    the generator advanced by the six draws of the fixture. *)
Theorem main_outcome w st sd :
  sos_cache (mem w) = [] ->
  butter default_order [Reference.low_theta; Reference.high_theta] Bandpass
    (default_fs / default_factor)%Z = Ok st ->
  butter default_order [Reference.low_delta; Reference.high_delta] Bandpass
    (default_fs / default_factor)%Z = Ok sd ->
  validate_sos st = true -> validate_sos sd = true ->
  (is_ok (fst (main w)) = true <->
   (Z.of_nat (sos_padlen st) < 6250)%Z /\ (Z.of_nat (sos_padlen sd) < 6250)%Z) /\
  (is_ok (fst (main w)) = true ->
   sos_cache (mem (snd (main w)))
     = two_filters Reference.low_delta Reference.high_delta
         Reference.low_theta Reference.high_theta default_fs st sd /\
   length (heap (mem (snd (main w)))) = length (heap (mem w)) + 193 /\
   gen (snd (main w)) = gen_after (fixture_draws (gen w) 1 100000)).
Proof.
  intros Hc Hst Hsd Vst Vsd. destruct w as [g s0]. cbn [mem gen] in *.
  destruct (@generate_data_returns F FL 5 default_fs 1 g s0)
    as (xl & xa & w' & E & X & C & Hg & Lh & Hlfp & Hacc & Lxl & Lxa);
    [discriminate | unfold default_fs; lia | reflexivity | left; reflexivity |].
  destruct w' as [g' s1]. cbn [mem gen] in *.
  assert (Hdiff : key_eqb (delta_key Reference.low_delta Reference.high_delta default_fs)
                    (theta_key Reference.low_theta Reference.high_theta default_fs)
                  = false) by reflexivity.
  assert (Hrate : int_truediv default_fs default_factor
                  = Ok (float_of_int 20000 / float_of_int 16)%float) by reflexivity.
  assert (Hnz : (float_of_int 20000 / float_of_int 16 =? 0)%float = false)
    by (vm_compute; reflexivity).
  assert (Hcw : cold_or_warm Reference.low_delta Reference.high_delta
                  Reference.low_theta Reference.high_theta default_fs st sd
                  (sos_cache s1)) by (left; congruence).
  assert (Ll : length (decimated_values xl default_factor)
               = resample_n_out (length xl) 16)
    by apply decimated_values_default_length.
  assert (La : length (decimated_values xa default_factor)
               = resample_n_out (length xa) 16)
    by apply decimated_values_default_length.
  pose proof (resample_n_out_gt (length xl) (sos_padlen st) (q := 16) ltac:(lia)) as Gt.
  pose proof (resample_n_out_gt (length xl) (sos_padlen sd) (q := 16) ltac:(lia)) as Gd.
  pose proof (resample_n_out_gt (length xa) 1 (q := 16) ltac:(lia)) as Gm.
  unfold default_fs in Lxl, Lxa.
  unfold main. erewrite gbind_ok; [|exact E]. cbn [fst snd].
  destruct (Z.lt_ge_cases (Z.of_nat (sos_padlen st)) 6250) as [Pt|Pt];
    [destruct (Z.lt_ge_cases (Z.of_nat (sos_padlen sd)) 6250) as [Pd|Pd]|].
  - edestruct (is_sleeping_repeated Hdiff Hst Hsd Vst Vsd) with (n := 9)
      as (s2 & E2 & X2 & L2 & C2);
      [exact Hlfp | exact Hacc | exact Hcw | reflexivity | reflexivity
      | reflexivity | reflexivity | exact Hrate | exact Hnz | lia | lia | lia |].
    erewrite np_run; [|exact E2]. cbn [fst snd is_ok mem gen].
    split; [tauto|]. intros _. split; [exact C2|]. split; [lia|exact Hg].
  - pose proof (proj2 (is_sleeping_two_filters Hdiff Hst Hsd Vst Vsd
                  Hlfp Hacc Hcw Hrate Hnz)) as Hfail.
    destruct (is_sleeping _ _ _ _ _ _ _ s1) as [[r|e] s2] eqn:E1.
    { cbn [fst is_ok] in Hfail. discriminate Hfail. right. left. lia. }
    assert (E2 : for_range 10 (is_sleeping (length (heap s0) + 32) (length (heap s0) + 5)
                   Reference.low_delta Reference.high_delta
                   Reference.low_theta Reference.high_theta default_fs) s1
                 = (Raise e, s2))
      by (cbn [for_range]; now rewrite (bind_raise _ _ _ E1)).
    erewrite np_run; [|exact E2]. cbn [fst is_ok].
    split; [|discriminate]. split; [discriminate|lia].
  - pose proof (proj2 (is_sleeping_two_filters Hdiff Hst Hsd Vst Vsd
                  Hlfp Hacc Hcw Hrate Hnz)) as Hfail.
    destruct (is_sleeping _ _ _ _ _ _ _ s1) as [[r|e] s2] eqn:E1.
    { cbn [fst is_ok] in Hfail. discriminate Hfail. left. lia. }
    assert (E2 : for_range 10 (is_sleeping (length (heap s0) + 32) (length (heap s0) + 5)
                   Reference.low_delta Reference.high_delta
                   Reference.low_theta Reference.high_theta default_fs) s1
                 = (Raise e, s2))
      by (cbn [for_range]; now rewrite (bind_raise _ _ _ E1)).
    erewrite np_run; [|exact E2]. cbn [fst is_ok].
    split; [|discriminate]. split; [discriminate|lia].
Qed.

End MainBlock.

Section MainExamples.
#[local] Existing Instance Reference.kernels.
#[local] Existing Instance Examples.counter_fixture.
Import Reference Examples.

(** Two signals of 448 samples, at the defaults. *)
Lemma is_sleeping_first_call_witness :
  is_ok (fst (is_sleeping 0 1 low_delta high_delta low_theta high_theta 20000
                (initial2 zeros448 zeros448))) = true.
Proof.
  apply (proj1 (@is_sleeping_first_call kernels reference_laws
                  (initial2 zeros448 zeros448) 0 1 zeros448 zeros448
                  low_delta high_delta low_theta high_theta 20000
                  (repeat identity_section 4) (repeat identity_section 4)
                  (float_of_int 20000 / float_of_int 16)%float
                  eq_refl eq_refl eq_refl eq_refl eq_refl eq_refl eq_refl eq_refl
                  eq_refl eq_refl)).
  vm_compute. split; [reflexivity|]. split; [reflexivity|lia].
Defined.

(** The main block under the reference kernels, whose filters pad 27
    samples. *)
Lemma main_outcome_witness :
  is_ok (fst (main (seeded {| heap := []; sos_cache := [] |}))) = true.
Proof.
  apply (proj1 (@main_outcome kernels reference_laws counter_fixture
                  counter_fixture_laws (seeded {| heap := []; sos_cache := [] |})
                  (repeat identity_section 4) (repeat identity_section 4)
                  eq_refl eq_refl eq_refl eq_refl eq_refl)).
  split; reflexivity.
Defined.

End MainExamples.
